(** * Ledger, depreciation and advance rules of the shop backend

    A shallow embedding of the accounting core of the repository:
    - [accounting/models.py]: [Account], [JournalEntry], [JournalEntryLine];
    - [assets/models.py], [assets/tasks.py]: depreciation and disposal;
    - [sales/serializers.py], [sales/views.py]: advances against commission.

    Conventions.
    - A [DecimalField(max_digits=15, decimal_places=2)] column of the ledger
      is a [Z] counting hundredths, so sums and differences are exact. An
      account total that the code computes is checked against the range of
      its column when the row is written; an amount the caller hands in is
      taken to be a value of its column.
    - The database is an explicit value [DB]; a method is a function in the
      state-and-exception monad [M], whose state survives a raise exactly as
      the Python heap and the tables do.
    - A model instance held by the caller is a record value, distinct from
      the stored row with the same primary key.
    - The amounts of an asset are Python [Decimal]s, modelled in [Dec] with
      the 28-digit context the interpreter starts with. *)

From Stdlib Require Import ZArith String Ascii List Lia DecimalString.
From stdpp Require Import gmap strings list fin_maps.

Local Open Scope Z_scope.

(** ** Exceptions and the method monad *)

Inductive exn : Type :=
| ValueError (msg : string)
| DoesNotExist
| IntegrityError
| ValidationError (msg : string)
| DecimalException.

Inductive result (A : Type) : Type :=
| Ok (a : A)
| Raise (e : exn).
Arguments Ok {A} a.
Arguments Raise {A} e.

Definition is_ok {A} (r : result A) : bool :=
  match r with Ok _ => true | Raise _ => false end.

#[global] Instance result_ret : MRet result := λ A a, Ok a.

#[global] Instance result_bind : MBind result := λ A B f r,
  match r with
  | Ok a => f a
  | Raise e => Raise e
  end.

Definition M (S A : Type) : Type := S → S * result A.

#[global] Instance M_ret {S} : MRet (M S) := λ A a s, (s, Ok a).

#[global] Instance M_bind {S} : MBind (M S) := λ A B f m s,
  match m s with
  | (s', Ok a) => f a s'
  | (s', Raise e) => (s', Raise e)
  end.

Definition raise {S A} (e : exn) : M S A := λ s, (s, Raise e).
Definition gets {S A} (f : S → A) : M S A := λ s, (s, Ok (f s)).
Definition modify {S} (f : S → S) : M S unit := λ s, (f s, Ok tt).

(** [try: body except handler]: the handler runs in the state the body left. *)
Definition try_except {S A} (body : M S A) (handler : exn → M S A) : M S A :=
  λ s, match body s with
       | (s', Ok a) => (s', Ok a)
       | (s', Raise e) => handler e s'
       end.

(** ** Accounts *)

Inductive AccountType : Type := ASSET | LIABILITY | EQUITY | REVENUE | EXPENSE.

#[global] Instance AccountType_eq_dec : EqDecision AccountType.
Proof. solve_decision. Defined.

Record Account : Type := mkAccount {
  account_pk : Z;
  code : string;
  account_type : AccountType;
  balance : Z;
  debit_balance : Z;
  credit_balance : Z
}.

#[global] Instance Account_eq_dec : EqDecision Account.
Proof. solve_decision. Defined.

(** ** Journal entries and their lines *)

Inductive EntryStatus : Type := DRAFT | POSTED | REVERSED.

#[global] Instance EntryStatus_eq_dec : EqDecision EntryStatus.
Proof. solve_decision. Defined.

Inductive EntryType : Type :=
| MANUAL | AUTO | SALE | PURCHASE | DEPRECIATION | DISPOSAL | ADJUSTMENT.

#[global] Instance EntryType_eq_dec : EqDecision EntryType.
Proof. solve_decision. Defined.

Record date : Type := mkDate { year : Z; month : Z; day : Z }.

#[global] Instance date_eq_dec : EqDecision date.
Proof. solve_decision. Defined.

Record JournalEntry : Type := mkEntry {
  entry_pk : Z;
  entry_number : string;
  entry_date : date;
  entry_type : EntryType;
  status : EntryStatus;
  source_model : string;
  source_id : string;
  total_amount : Z
}.

#[global] Instance JournalEntry_eq_dec : EqDecision JournalEntry.
Proof. solve_decision. Defined.

(** A stored line: both foreign keys are primary keys. *)
Record JournalEntryLine : Type := mkLine {
  journal_entry : Z;
  account : Z;
  debit_amount : Z;
  credit_amount : Z
}.

#[global] Instance JournalEntryLine_eq_dec : EqDecision JournalEntryLine.
Proof. solve_decision. Defined.

(** ** The database *)

Record DB : Type := mkDB {
  accounts : gmap Z Account;
  journal_entries : list JournalEntry;
  journal_lines : list JournalEntryLine
}.

Definition set_accounts (f : gmap Z Account → gmap Z Account) (db : DB) : DB :=
  mkDB (f (accounts db)) (journal_entries db) (journal_lines db).

Definition set_journal_entries (f : list JournalEntry → list JournalEntry)
    (db : DB) : DB :=
  mkDB (accounts db) (f (journal_entries db)) (journal_lines db).

Definition set_journal_lines (f : list JournalEntryLine → list JournalEntryLine)
    (db : DB) : DB :=
  mkDB (accounts db) (journal_entries db) (f (journal_lines db)).

(** A method of a model instance runs on the instance and the database. *)
Definition on_db {Self A} (m : M DB A) : M (Self * DB) A :=
  λ '(self, db), let '(db', r) := m db in ((self, db'), r).

Definition get_self {Self St} : M (Self * St) Self := gets fst.
Definition set_self {Self St} (f : Self → Self) : M (Self * St) unit :=
  modify (λ '(self, st), (f self, st)).

(** ** [Account.update_balance] and the row write behind [save] *)

Definition with_balances (a : Account) (b d c : Z) : Account :=
  mkAccount (account_pk a) (code a) (account_type a) b d c.

(** The type-appropriate formula of [update_balance]. *)
Definition derived_balance (t : AccountType) (d c : Z) : Z :=
  match t with
  | ASSET | EXPENSE => d - c
  | LIABILITY | EQUITY | REVENUE => c - d
  end.

(** The values a [DecimalField(max_digits=15, decimal_places=2)] column
    takes: fewer than 10 ^ 15 hundredths on either side of zero. A write of
    any other value raises ([decimal.InvalidOperation] when the field
    quantizes the value to 15 digits, or the numeric overflow of the
    database) and the row stays as it was. *)
Definition column_15_2 (v : Z) : bool := Z.abs v <? 10 ^ 15.

Definition account_fits (a : Account) : bool :=
  column_15_2 (balance a) && column_15_2 (debit_balance a)
  && column_15_2 (credit_balance a).

Arguments column_15_2 : simpl never.
Arguments account_fits : simpl never.

(** [Model.save] of an account: every column of the row with the
    instance's primary key is overwritten (or the row is inserted), unless
    one of the three totals is no value of its column. *)
Definition Account_save (a : Account) : M DB unit :=
  if account_fits a then modify (set_accounts (<[account_pk a := a]>))
  else raise DecimalException.

(** [update_balance] on an instance: recompute [balance], then [save]. It
    returns the instance as it is after the call, when [save] went
    through. *)
Definition update_balance (a : Account) : M DB Account :=
  let a' := with_balances a
              (derived_balance (account_type a) (debit_balance a) (credit_balance a))
              (debit_balance a) (credit_balance a) in
  _ ← Account_save a'; mret a'.

(** Following the [account] foreign key of a line read from the database:
    the row is fetched when the attribute is first used. *)
Definition fetch_account (pk : Z) : M DB Account :=
  λ db, match accounts db !! pk with
        | Some a => (db, Ok a)
        | None => (db, Raise DoesNotExist)
        end.

(** [self.lines.all()]: the stored lines of an entry, in table order. *)
Definition lines_all (e : JournalEntry) (db : DB) : list JournalEntryLine :=
  filter (λ l, journal_entry l = entry_pk e) (journal_lines db).

(** Python's [sum] over the debit, resp. credit, column. *)
Definition total_debits (ls : list JournalEntryLine) : Z :=
  foldr Z.add 0 (debit_amount <$> ls).
Definition total_credits (ls : list JournalEntryLine) : Z :=
  foldr Z.add 0 (credit_amount <$> ls).

(** ** Strings: what [JournalEntry.save] needs of Python's [str] and [int] *)

Module PyStr.

Local Open Scope string_scope.

(** [s.split('-')[-1]]: the text after the last hyphen (all of [s] when it
    has none); the list is never empty, so no [IndexError] arises. *)
Fixpoint last_segment_from (cur s : string) : string :=
  match s with
  | EmptyString => cur
  | String c s' =>
      if Ascii.eqb c "-" then last_segment_from "" s'
      else last_segment_from (cur ++ String c "") s'
  end.

Definition last_segment (s : string) : string := last_segment_from "" s.

Definition is_digit (c : ascii) : bool :=
  let n := N_of_ascii c in (48 <=? n)%N && (n <=? 57)%N.

Definition digit_val (c : ascii) : Z := Z.of_N (N_of_ascii c) - 48.

(** The white space [int] strips: tab to carriage return, the four
    separators 28 to 31 and the blank. *)
Definition is_space (c : ascii) : bool :=
  let n := N_of_ascii c in
  ((9 <=? n)%N && (n <=? 13)%N) || ((28 <=? n)%N && (n <=? 32)%N).

Fixpoint lstrip (s : string) : string :=
  match s with
  | String c s' => if is_space c then lstrip s' else s
  | EmptyString => EmptyString
  end.

Definition rev_string (s : string) : string :=
  string_of_list_ascii (rev (list_ascii_of_string s)).

Definition strip (s : string) : string :=
  rev_string (lstrip (rev_string (lstrip s))).

(** Decimal digits, single underscores allowed between two digits. *)
Fixpoint parse_digits (acc : Z) (after_digit : bool) (s : string) : option Z :=
  match s with
  | EmptyString => if after_digit then Some acc else None
  | String c s' =>
      if is_digit c then parse_digits (10 * acc + digit_val c) true s'
      else if Ascii.eqb c "_" && after_digit then parse_digits acc false s'
      else None
  end.

(** [int(s)] in base ten on a string of ASCII characters; [None] stands
    for [ValueError]. Python also reads the decimal digits and the white
    space of other scripts; strings that hold any are outside this
    definition. *)
Definition py_int (s : string) : option Z :=
  match strip s with
  | String "+" s' => parse_digits 0 false s'
  | String "-" s' => Z.opp <$> parse_digits 0 false s'
  | s' => parse_digits 0 false s'
  end.

(** [str(n)] for an integer. *)
Definition of_Z (n : Z) : string := NilZero.string_of_int (Z.to_int n).

Fixpoint zeros (n : nat) : string :=
  match n with O => "" | S n' => String "0" (zeros n') end.

(** [f"{n:0wd}"]: sign first, then zeros up to [w] characters in all. *)
Definition fmt_0d (w : nat) (n : Z) : string :=
  let digits := of_Z (Z.abs n) in
  let sign := if (n <? 0)%Z then "-" else "" in
  sign ++ zeros (w - String.length sign - String.length digits)%nat ++ digits.

Definition fmt_06d (n : Z) : string := fmt_0d 6 n.

End PyStr.

(** ** [JournalEntry.save] *)

Definition with_entry_number (e : JournalEntry) (n : string) : JournalEntry :=
  mkEntry (entry_pk e) n (entry_date e) (entry_type e) (status e)
          (source_model e) (source_id e) (total_amount e).

Definition with_status (e : JournalEntry) (s : EntryStatus) : JournalEntry :=
  mkEntry (entry_pk e) (entry_number e) (entry_date e) (entry_type e) s
          (source_model e) (source_id e) (total_amount e).

(** [.order_by('-entry_number').first()]: the row whose number is greatest
    in the code-point order of strings. *)
Definition first_by_number_desc (rows : list JournalEntry) : option JournalEntry :=
  foldl (λ best r,
           match best with
           | None => Some r
           | Some b => if String.ltb (entry_number b) (entry_number r)
                       then Some r else Some b
           end) None rows.

Definition entries_of_year (y : Z) (db : DB) : list JournalEntry :=
  filter (λ r, year (entry_date r) = y) (journal_entries db).

(** The number [save] gives an entry that has none. *)
Definition generate_entry_number (self : JournalEntry) (db : DB) : string :=
  let y := PyStr.of_Z (year (entry_date self)) in
  match first_by_number_desc (entries_of_year (year (entry_date self)) db) with
  | Some last_entry =>
      if decide (entry_number last_entry = ""%string) then (y ++ "-000001")%string
      else
        match PyStr.py_int (PyStr.last_segment (entry_number last_entry)) with
        | Some last_num => (y ++ "-" ++ PyStr.fmt_06d (last_num + 1))%string
        | None => (y ++ "-000001")%string
        end
  | None => (y ++ "-000001")%string
  end.

(** Replace the row with the same primary key, or append a new row. *)
Fixpoint upsert_entry (e : JournalEntry) (rows : list JournalEntry)
    : list JournalEntry :=
  match rows with
  | [] => [e]
  | r :: rows' =>
      if decide (entry_pk r = entry_pk e) then e :: rows'
      else r :: upsert_entry e rows'
  end.

(** [super().save()]: the column [entry_number] is [unique]. *)
Definition number_taken (e : JournalEntry) (rows : list JournalEntry) : bool :=
  existsb (λ r, bool_decide (entry_pk r ≠ entry_pk e)
                && bool_decide (entry_number r = entry_number e)) rows.

Definition Model_save_entry (e : JournalEntry) : M DB unit :=
  λ db, if number_taken e (journal_entries db)
        then (db, Raise IntegrityError)
        else (set_journal_entries (upsert_entry e) db, Ok tt).

Definition JournalEntry_save : M (JournalEntry * DB) unit :=
  self ← get_self;
  _ ← (if decide (entry_number self = ""%string)
       then db ← gets snd;
            set_self (λ e, with_entry_number e (generate_entry_number self db))
       else mret tt);
  self ← get_self;
  on_db (Model_save_entry self).

(** ** [JournalEntry.post] and [JournalEntry.reverse] *)

(** One turn of the loop over [self.lines.all()]. *)
Definition apply_line (sign : Z) (l : JournalEntryLine) : M DB unit :=
  a ← fetch_account (account l);
  _ ← update_balance
        (with_balances a (balance a)
           (debit_balance a + sign * debit_amount l)
           (credit_balance a + sign * credit_amount l));
  mret tt.

Fixpoint apply_lines (sign : Z) (ls : list JournalEntryLine) : M DB unit :=
  match ls with
  | [] => mret tt
  | l :: ls' => _ ← apply_line sign l; apply_lines sign ls'
  end.

Definition post : M (JournalEntry * DB) unit :=
  self ← get_self;
  if decide (status self ≠ DRAFT)
  then raise (ValueError "Only draft entries can be posted")
  else
    debits ← gets (λ s, total_debits (lines_all self (snd s)));
    credits ← gets (λ s, total_credits (lines_all self (snd s)));
    if decide (debits ≠ credits)
    then raise (ValueError "Debits must equal credits")
    else
      ls ← gets (λ s, lines_all self (snd s));
      _ ← on_db (apply_lines 1 ls);
      _ ← set_self (λ e, with_status e POSTED);
      JournalEntry_save.

Definition reverse : M (JournalEntry * DB) unit :=
  self ← get_self;
  if decide (status self ≠ POSTED)
  then raise (ValueError "Only posted entries can be reversed")
  else
    ls ← gets (λ s, lines_all self (snd s));
    _ ← on_db (apply_lines (-1) ls);
    _ ← set_self (λ e, with_status e REVERSED);
    JournalEntry_save.

(** ** [JournalEntryLine.save] *)

(** The line as the caller builds it and before it has a row of its own
    ([pk] is [None], so that [save] inserts): [lo_account] is the [Account]
    instance handed to the constructor, not a fresh read of its row. The
    amounts are values of their columns, and the two foreign keys of the
    row are taken to hold. *)
Record LineObj : Type := mkLineObj {
  lo_journal_entry : Z;
  lo_account : Account;
  lo_debit_amount : Z;
  lo_credit_amount : Z
}.

Definition row_of_line (l : LineObj) : JournalEntryLine :=
  mkLine (lo_journal_entry l) (account_pk (lo_account l))
         (lo_debit_amount l) (lo_credit_amount l).

(** [save] of such a line: insert the row, then add the amounts to the
    instance and write the instance back. No transaction spans the two
    writes: when the account does not fit its columns any more the call
    raises with the line row already stored. The result is the instance
    after the call. *)
Definition JournalEntryLine_save (l : LineObj) : M DB Account :=
  _ ← modify (set_journal_lines (λ rows, rows ++ [row_of_line l]));
  let a := lo_account l in
  update_balance
    (with_balances a (balance a)
       (debit_balance a + lo_debit_amount l)
       (credit_balance a + lo_credit_amount l)).

(** ** Python's [decimal.Decimal] under the default context *)

(** A finite [Decimal] is a signed coefficient and an exponent, standing
    for [coef * 10 ^ dexp]. The default context has 28 significant digits
    and rounds half to even; the exponent limits of the context (beyond
    10 ^ 999999) are out of reach of the amounts handled here and are not
    modelled, nor are signed zeros, infinities and NaN. *)
Module Dec.

Record Decimal : Type := mkDec { coef : Z; dexp : Z }.

#[global] Instance Decimal_eq_dec : EqDecision Decimal.
Proof. solve_decision. Defined.

Definition prec : Z := 28.

(** [Decimal(str(n))] for an integer [n]. *)
Definition of_int (n : Z) : Decimal := mkDec n 0.

(** A count of hundredths as the two-place [Decimal] a column yields. *)
Definition of_cents (n : Z) : Decimal := mkDec n (-2).

Definition zero : Decimal := of_int 0.

Fixpoint ndigits_fuel (fuel : nat) (m : Z) : Z :=
  match fuel with
  | O => 1
  | S fuel' => if m <? 10 then 1 else 1 + ndigits_fuel fuel' (m / 10)
  end.

(** [len(d._int)]: the number of digits of the coefficient. *)
Definition ndigits (n : Z) : Z :=
  ndigits_fuel (S (Z.to_nat (Z.log2 (Z.abs n)))) (Z.abs n).

Definition sgn_mul (c m : Z) : Z := if c <? 0 then - m else m.

(** [m / p] rounded to an integer, ties to the even neighbour. *)
Definition div_half_even (m p : Z) : Z :=
  let q := m / p in
  let r := m mod p in
  if 2 * r <? p then q
  else if p <? 2 * r then q + 1
  else if Z.even q then q else q + 1.

(** [m / p] rounded to an integer, ties away from zero ([ROUND_HALF_UP]). *)
Definition div_half_up (m p : Z) : Z :=
  let q := m / p in
  let r := m mod p in
  if 2 * r <? p then q else q + 1.

(** [Decimal._fix]: round to the precision of the context. *)
Definition fix_ctx (d : Decimal) : Decimal :=
  let m := Z.abs (coef d) in
  let k := ndigits m - prec in
  if k <=? 0 then d
  else
    let q := div_half_even m (10 ^ k) in
    if q =? 10 ^ prec
    then mkDec (sgn_mul (coef d) (10 ^ (prec - 1))) (dexp d + k + 1)
    else mkDec (sgn_mul (coef d) q) (dexp d + k).

(** The coefficient of [d] when written with the exponent [e <= dexp d]. *)
Definition scaled (d : Decimal) (e : Z) : Z := coef d * 10 ^ (dexp d - e).

Definition add (a b : Decimal) : Decimal :=
  let e := Z.min (dexp a) (dexp b) in
  fix_ctx (mkDec (scaled a e + scaled b e) e).

Definition neg (a : Decimal) : Decimal := mkDec (- coef a) (dexp a).

Definition sub (a b : Decimal) : Decimal := add a (neg b).

Definition mul (a b : Decimal) : Decimal :=
  fix_ctx (mkDec (coef a * coef b) (dexp a + dexp b)).

(** The loop of [__truediv__] that brings an exact quotient as close to
    the ideal exponent as its trailing zeros allow. *)
Fixpoint strip_zeros (fuel : nat) (c e : Z) : Z * Z :=
  match fuel with
  | O => (c, e)
  | S fuel' => if c mod 10 =? 0 then strip_zeros fuel' (c / 10) (e + 1) else (c, e)
  end.

(** [a / b], digit for digit as [__truediv__] computes it; a zero divisor
    raises ([DivisionByZero], or [InvalidOperation] for 0 / 0). *)
Definition div (a b : Decimal) : result Decimal :=
  if coef b =? 0 then Raise DecimalException
  else if coef a =? 0 then Ok (fix_ctx (mkDec 0 (dexp a - dexp b)))
  else
    let ma := Z.abs (coef a) in
    let mb := Z.abs (coef b) in
    let shift := ndigits mb - ndigits ma + prec + 1 in
    let e := dexp a - dexp b - shift in
    let num := if 0 <=? shift then ma * 10 ^ shift else ma in
    let den := if 0 <=? shift then mb else mb * 10 ^ (- shift) in
    let q := num / den in
    let r := num mod den in
    let '(c, e') :=
      if r =? 0
      then strip_zeros (Z.to_nat (dexp a - dexp b - e)) q e
      else (if q mod 5 =? 0 then q + 1 else q, e) in
    Ok (fix_ctx (mkDec (sgn_mul (coef a * coef b) c) e')).

(** Comparison is by value. *)
Definition compare (a b : Decimal) : comparison :=
  let e := Z.min (dexp a) (dexp b) in
  Z.compare (scaled a e) (scaled b e).

Definition ltb (a b : Decimal) : bool :=
  match compare a b with Lt => true | _ => false end.
Definition leb (a b : Decimal) : bool :=
  match compare a b with Gt => false | _ => true end.
Definition eqb (a b : Decimal) : bool :=
  match compare a b with Eq => true | _ => false end.

(** The builtins [min] and [max] on two arguments: the first wins a tie. *)
Definition min (a b : Decimal) : Decimal := if ltb b a then b else a.
Definition max (a b : Decimal) : Decimal := if ltb a b then b else a.

(** [d.quantize(Decimal('0.01'), rounding=ROUND_HALF_UP)]; a result with
    more digits than the precision raises [InvalidOperation]. *)
Definition quantize_cents (d : Decimal) : result Decimal :=
  let c :=
    if -2 <=? dexp d then coef d * 10 ^ (dexp d + 2)
    else sgn_mul (coef d) (div_half_up (Z.abs (coef d)) (10 ^ (-2 - dexp d))) in
  if Z.abs c <? 10 ^ prec then Ok (mkDec c (-2)) else Raise DecimalException.

(** Truth value of a [Decimal]: zero is false. *)
Definition is_true (d : Decimal) : bool := negb (coef d =? 0).

End Dec.

(** ** Fixed assets: [assets/models.py] and [assets/tasks.py] *)

Module Assets.

Import Dec.

Inductive DepreciationMethod : Type :=
| STRAIGHT_LINE | DECLINING_BALANCE | DOUBLE_DECLINING | UNITS_OF_PRODUCTION.

#[global] Instance DepreciationMethod_eq_dec : EqDecision DepreciationMethod.
Proof. solve_decision. Defined.

Inductive AssetStatus : Type :=
| ACTIVE | INACTIVE | DISPOSED | SOLD | LOST | STOLEN.

#[global] Instance AssetStatus_eq_dec : EqDecision AssetStatus.
Proof. solve_decision. Defined.

Record AssetCategory : Type := mkCategory {
  cat_code : string;
  cat_name : string;
  cat_useful_life_years : Z;
  cat_depreciation_method : DepreciationMethod;
  asset_account : string;
  depreciation_account : string;
  expense_account : string
}.

(** A blank [depreciation_method] or [disposal_method] is [None], resp.
    the empty string; a null date or amount is [None]. *)
Record Asset : Type := mkAsset {
  asset_pk : Z;
  asset_number : string;
  asset_name : string;
  category : AssetCategory;
  purchase_cost : Decimal;
  purchase_date : date;
  salvage_value : Decimal;
  useful_life_years : Z;
  depreciation_method : option DepreciationMethod;
  accumulated_depreciation : Decimal;
  current_book_value : Decimal;
  last_depreciation_date : option date;
  status : AssetStatus;
  disposal_date : option date;
  disposal_amount : option Decimal;
  disposal_method : string
}.

Definition with_values (a : Asset) (acc book : Decimal) : Asset :=
  mkAsset (asset_pk a) (asset_number a) (asset_name a) (category a)
    (purchase_cost a) (purchase_date a) (salvage_value a) (useful_life_years a)
    (depreciation_method a) acc book (last_depreciation_date a)
    (status a) (disposal_date a) (disposal_amount a) (disposal_method a).

Definition with_last_depreciation_date (a : Asset) (d : option date) : Asset :=
  mkAsset (asset_pk a) (asset_number a) (asset_name a) (category a)
    (purchase_cost a) (purchase_date a) (salvage_value a) (useful_life_years a)
    (depreciation_method a) (accumulated_depreciation a) (current_book_value a) d
    (status a) (disposal_date a) (disposal_amount a) (disposal_method a).

Definition with_depreciation_method (a : Asset) (m : option DepreciationMethod)
    : Asset :=
  mkAsset (asset_pk a) (asset_number a) (asset_name a) (category a)
    (purchase_cost a) (purchase_date a) (salvage_value a) (useful_life_years a)
    m (accumulated_depreciation a) (current_book_value a)
    (last_depreciation_date a)
    (status a) (disposal_date a) (disposal_amount a) (disposal_method a).

Definition with_asset_number (a : Asset) (n : string) : Asset :=
  mkAsset (asset_pk a) n (asset_name a) (category a)
    (purchase_cost a) (purchase_date a) (salvage_value a) (useful_life_years a)
    (depreciation_method a) (accumulated_depreciation a) (current_book_value a)
    (last_depreciation_date a)
    (status a) (disposal_date a) (disposal_amount a) (disposal_method a).

Definition with_disposal (a : Asset) (s : AssetStatus) (dd : option date)
    (da : option Decimal) (dm : string) : Asset :=
  mkAsset (asset_pk a) (asset_number a) (asset_name a) (category a)
    (purchase_cost a) (purchase_date a) (salvage_value a) (useful_life_years a)
    (depreciation_method a) (accumulated_depreciation a) (current_book_value a)
    (last_depreciation_date a) s dd da dm.

(** [d1 > d2] on dates. *)
Definition date_gtb (d1 d2 : date) : bool :=
  (year d2 <? year d1)
  || ((year d1 =? year d2)
      && ((month d2 <? month d1)
          || ((month d1 =? month d2) && (day d2 <? day d1)))).

(** [self.depreciation_method or self.category.depreciation_method]. *)
Definition method_of (a : Asset) : DepreciationMethod :=
  default (cat_depreciation_method (category a)) (depreciation_method a).

Definition disposed_or_sold (a : Asset) : bool :=
  bool_decide (status a = DISPOSED) || bool_decide (status a = SOLD).

(** The property [depreciation_rate]. *)
Definition depreciation_rate (a : Asset) : result Decimal :=
  if useful_life_years a <=? 0 then Ok zero
  else
    match method_of a with
    | STRAIGHT_LINE => div (of_int 1) (of_int (useful_life_years a))
    | DOUBLE_DECLINING => div (of_int 2) (of_int (useful_life_years a))
    | DECLINING_BALANCE => div (mkDec 15 (-1)) (of_int (useful_life_years a))
    | UNITS_OF_PRODUCTION => div (of_int 1) (of_int (useful_life_years a))
    end.

(** The property [annual_depreciation]. *)
Definition annual_depreciation (a : Asset) : result Decimal :=
  if disposed_or_sold a then Ok zero
  else
    let depreciable_amount := sub (purchase_cost a) (salvage_value a) in
    match method_of a with
    | STRAIGHT_LINE => div depreciable_amount (of_int (useful_life_years a))
    | DECLINING_BALANCE | DOUBLE_DECLINING =>
        let remaining_value := sub (current_book_value a) (salvage_value a) in
        if leb remaining_value zero then Ok zero
        else rate ← depreciation_rate a; Ok (mul remaining_value rate)
    | UNITS_OF_PRODUCTION => div depreciable_amount (of_int (useful_life_years a))
    end.

(** The property [monthly_depreciation]. *)
Definition monthly_depreciation (a : Asset) : result Decimal :=
  annual ← annual_depreciation a; div annual (of_int 12).

(** [get_age_in_months]; also the [months_owned] of
    [calculate_current_values]. *)
Definition months_between (today purchase : date) : Z :=
  (year today - year purchase) * 12 + (month today - month purchase).

(** The loop of the double-declining branch over
    [range(int(months_owned // 12) + 1)]: [n] turns are left, [yr] is the
    loop variable, the state is [(remaining_value, total_depreciation)]. *)
Fixpoint declining_loop (n : nat) (yr months_owned : Z)
    (annual_rate salvage remaining_value total_depreciation : Decimal)
    : result Decimal :=
  match n with
  | O => Ok total_depreciation
  | S n' =>
      if leb remaining_value salvage then Ok total_depreciation
      else
        let year_depreciation := mul remaining_value annual_rate in
        let year_depreciation :=
          if ltb (sub remaining_value year_depreciation) salvage
          then sub remaining_value salvage
          else year_depreciation in
        year_depreciation ←
          (if yr =? months_owned / 12
           then
             share ← div (of_int (months_owned mod 12)) (of_int 12);
             Ok (mul year_depreciation share)
           else Ok year_depreciation);
        declining_loop n' (yr + 1) months_owned annual_rate salvage
          (sub remaining_value year_depreciation)
          (add total_depreciation year_depreciation)
  end.

(** The straight-line total, written twice in the method. *)
Definition straight_line_total (a : Asset) (months_owned : Z) : result Decimal :=
  div (mul (sub (purchase_cost a) (salvage_value a)) (of_int months_owned))
      (mul (of_int (useful_life_years a)) (of_int 12)).

(** The method branch of [calculate_current_values]. *)
Definition total_depreciation_of (a : Asset) (months_owned : Z) : result Decimal :=
  match method_of a with
  | STRAIGHT_LINE => straight_line_total a months_owned
  | DOUBLE_DECLINING =>
      annual_rate ← depreciation_rate a;
      declining_loop (Z.to_nat (months_owned / 12 + 1)) 0 months_owned
        annual_rate (salvage_value a) (purchase_cost a) zero
  | DECLINING_BALANCE | UNITS_OF_PRODUCTION => straight_line_total a months_owned
  end.

(** [calculate_current_values], with [today] for [date.today()]. The
    instance after the call is returned; a raise leaves it as it was. *)
Definition calculate_current_values (today : date) (a : Asset) : result Asset :=
  if disposed_or_sold a then Ok a
  else if date_gtb (purchase_date a) today then Ok a
  else
    let months_owned := months_between today (purchase_date a) in
    if months_owned <=? 0
    then Ok (with_values a zero (purchase_cost a))
    else
      total_depreciation ← total_depreciation_of a months_owned;
      let max_depreciation := sub (purchase_cost a) (salvage_value a) in
      let total_depreciation := min total_depreciation max_depreciation in
      acc ← quantize_cents total_depreciation;
      book ← quantize_cents (sub (purchase_cost a) acc);
      Ok (with_values a acc book).

(** One row of [AssetDepreciation], as far as the code reads it back:
    the asset and the period. The amount, the method and the calculation
    details are written and never read by the code modelled here; they
    are left out. *)
Record AssetDepreciation : Type := mkDepreciation {
  dep_asset : Z;
  depreciation_date : date;
  period_month : Z;
  period_year : Z
}.

(** The tables the asset code reads and writes, next to the ledger. *)
Record World : Type := mkWorld {
  ledger : DB;
  assets : gmap Z Asset;
  depreciation_entries : list AssetDepreciation
}.

Definition set_ledger (f : DB → DB) (w : World) : World :=
  mkWorld (f (ledger w)) (assets w) (depreciation_entries w).
Definition set_assets (f : gmap Z Asset → gmap Z Asset) (w : World) : World :=
  mkWorld (ledger w) (f (assets w)) (depreciation_entries w).
Definition set_depreciation_entries
    (f : list AssetDepreciation → list AssetDepreciation) (w : World) : World :=
  mkWorld (ledger w) (assets w) (f (depreciation_entries w)).

Definition on_world {A} (m : M World A) : M (Asset * World) A :=
  λ '(self, w), let '(w', r) := m w in ((self, w'), r).

Definition on_ledger {A} (m : M DB A) : M World A :=
  λ w, let '(db', r) := m (ledger w) in (set_ledger (λ _, db') w, r).

(** A computation that may raise, run inside a method. *)
Definition lift_result {S A} (r : result A) : M S A := λ s, (s, r).

(** [calculate_current_depreciation], with [now] for [timezone.now()]. *)
Definition calculate_current_depreciation (now : date) (a : Asset)
    (w : World) : result Decimal :=
  if disposed_or_sold a then Ok zero
  else
    let existing_entry :=
      filter (λ r, dep_asset r = asset_pk a ∧ period_month r = month now
                   ∧ period_year r = year now) (depreciation_entries w) in
    match existing_entry with
    | _ :: _ => Ok zero
    | [] => monthly_depreciation a
    end.

(** [generate_asset_number]. *)
Definition generate_asset_number (now : date) (a : Asset) (w : World) : string :=
  let stem := (cat_code (category a) ++ "-" ++ PyStr.of_Z (year now) ++ "-")%string in
  let existing_assets :=
    length (filter (λ kv, String.prefix stem (asset_number (snd kv)) = true)
                   (map_to_list (assets w))) in
  (stem ++ PyStr.fmt_0d 4 (Z.of_nat existing_assets + 1))%string.

(** The row write of [Asset.save]: [asset_number] is [unique]. The amounts
    of the instance are taken to be values of their columns. *)
Definition Model_save_asset (a : Asset) : M World unit :=
  λ w,
    if bool_decide (map_Forall (λ pk r, pk = asset_pk a
                                        ∨ asset_number r ≠ asset_number a) (assets w))
    then (set_assets (<[asset_pk a := a]>) w, Ok tt)
    else (w, Raise IntegrityError).

(** [Asset.save]. The key of an asset is a UUID that the field default
    draws when the instance is built, so [self.pk is None] does not hold
    and the branch that would create the purchase entry is not taken; it
    is left out. *)
Definition Asset_save (now : date) : M (Asset * World) unit :=
  self ← get_self;
  _ ← (if decide (asset_number self = ""%string)
       then w ← gets snd;
            set_self (λ a, with_asset_number a (generate_asset_number now self w))
       else mret tt);
  _ ← set_self (λ a, match depreciation_method a with
                     | None => with_depreciation_method a
                                 (Some (cat_depreciation_method (category a)))
                     | Some _ => a
                     end);
  self ← get_self;
  self' ← lift_result (calculate_current_values now self);
  _ ← set_self (λ _, self');
  on_world (Model_save_asset self').

(** The body of the loop of [calculate_monthly_depreciation] for one asset
    (and of [calculate_asset_depreciation]), up to and including
    [asset.save()]: the state it leaves is the state at that point. The
    call of [create_depreciation_journal_entry] that follows swallows its
    own exceptions and writes to the ledger only, not to the asset or the
    depreciation records; it is not part of this definition, so nothing is
    said here about the ledger after the whole body. The result tells
    whether an amount was booked. *)
Definition depreciation_step (now : date) : M (Asset * World) bool :=
  asset ← get_self;
  w ← gets snd;
  depreciation_amount ← lift_result (calculate_current_depreciation now asset w);
  if ltb zero depreciation_amount
  then
    _ ← on_world (modify (set_depreciation_entries
           (λ rows, rows ++ [mkDepreciation (asset_pk asset) now
                               (month now) (year now)])));
    _ ← set_self (λ a,
           let acc := add (accumulated_depreciation a) depreciation_amount in
           let floor := if is_true (salvage_value a) then salvage_value a else zero in
           with_last_depreciation_date
             (with_values a acc (max (sub (purchase_cost a) acc) floor))
             (Some now));
    _ ← Asset_save now;
    mret true
  else mret false.

(** What a [DecimalField(decimal_places=2)] column keeps of a value: the
    count of hundredths, rounded in the context's way. The ledger is kept
    in hundredths, so an amount handed to a journal line is taken at this
    value; for an amount with at most two places nothing is lost. *)
Definition column_cents (d : Decimal) : Z :=
  if -2 <=? dexp d then coef d * 10 ^ (dexp d + 2)
  else sgn_mul (coef d) (div_half_even (Z.abs (coef d)) (10 ^ (-2 - dexp d))).

Definition dec_abs (d : Decimal) : Decimal := mkDec (Z.abs (coef d)) (dexp d).

(** [Account.objects.get(code=c)]; [code] is unique, so at most one row
    matches. *)
Definition get_account_by_code (c : string) : M DB Account :=
  λ db, match filter (λ kv, code (snd kv) = c) (map_to_list (accounts db)) with
        | kv :: _ => (db, Ok (snd kv))
        | [] => (db, Raise DoesNotExist)
        end.

(** [Account.objects.get_or_create(code='8500', defaults=...)] as the
    disposal code calls it: the defaults name no [category], a column that
    is not nullable, so the insert of a missing row is refused. *)
Definition get_or_create_gain_loss_account : M DB Account :=
  λ db, match get_account_by_code "8500" db with
        | (_, Ok a) => (db, Ok a)
        | (_, Raise _) => (db, Raise IntegrityError)
        end.

(** The key the database gives a new journal entry. *)
Definition next_entry_pk (db : DB) : Z :=
  1 + foldr Z.max 0 (entry_pk <$> journal_entries db).

(** [JournalEntry.objects.create(...)] with an explicit number. *)
Definition JournalEntry_objects_create (number : string) (d : date)
    (t : EntryType) (s : EntryStatus) (src_model src_id : string) (total : Z)
    : M DB JournalEntry :=
  λ db,
    let e := mkEntry (next_entry_pk db) number d t s src_model src_id total in
    let '((e', db'), r) := JournalEntry_save (e, db) in
    (db', _ ← r; Ok e').

(** [JournalEntryLine.objects.create(journal_entry=je, account=acct, ...)]. *)
Definition JournalEntryLine_objects_create (je : JournalEntry) (acct : Account)
    (debit credit : Z) : M DB unit :=
  _ ← JournalEntryLine_save (mkLineObj (entry_pk je) acct debit credit); mret tt.

(** [d.strftime('%Y%m%d')]. *)
Definition strftime_Ymd (d : date) : string :=
  (PyStr.fmt_0d 4 (year d) ++ PyStr.fmt_0d 2 (month d) ++ PyStr.fmt_0d 2 (day d))%string.

(** [with transaction.atomic(): body]: a raise inside rolls the tables
    back to their state at entry; the Python objects keep their changes. *)
Definition atomic {A} (body : M (Asset * World) A) : M (Asset * World) A :=
  λ '(self, w),
    match body (self, w) with
    | (s', Ok x) => (s', Ok x)
    | ((self', _), Raise e) => ((self', w), Raise e)
    end.

(** The dictionary [create_disposal_entry] returns. *)
Record DisposalResult : Type := mkDisposalResult {
  journal_entry_id : Z;
  book_value : Decimal;
  result_disposal_amount : Decimal;
  gain_loss : Decimal
}.

(** The body of the [with transaction.atomic()] block. *)
Definition disposal_journal (disposal_date : date)
    (disposal_amount book_value_at_disposal gain_loss : Decimal)
    : M (Asset * World) DisposalResult :=
  self ← get_self;
  journal_entry ← on_world (on_ledger
    (JournalEntry_objects_create
       ("DISP-" ++ asset_number self ++ "-" ++ strftime_Ymd disposal_date)%string
       disposal_date DISPOSAL POSTED "assets.Asset" (PyStr.of_Z (asset_pk self))
       (column_cents disposal_amount)));
  cash_account ← on_world (on_ledger (get_account_by_code "1000"));
  asset_acct ← on_world (on_ledger
    (get_account_by_code (asset_account (category self))));
  accum_dep_account ← on_world (on_ledger
    (get_account_by_code (depreciation_account (category self))));
  _ ← (if ltb zero disposal_amount
       then on_world (on_ledger (JournalEntryLine_objects_create journal_entry
              cash_account (column_cents disposal_amount) 0))
       else mret tt);
  _ ← on_world (on_ledger (JournalEntryLine_objects_create journal_entry
         accum_dep_account (column_cents (accumulated_depreciation self)) 0));
  _ ← on_world (on_ledger (JournalEntryLine_objects_create journal_entry
         asset_acct 0 (column_cents (purchase_cost self))));
  _ ← (if is_true gain_loss
       then
         gain_loss_account ← on_world (on_ledger get_or_create_gain_loss_account);
         if ltb zero gain_loss
         then on_world (on_ledger (JournalEntryLine_objects_create journal_entry
                gain_loss_account 0 (column_cents (dec_abs gain_loss))))
         else on_world (on_ledger (JournalEntryLine_objects_create journal_entry
                gain_loss_account (column_cents (dec_abs gain_loss)) 0))
       else mret tt);
  mret (mkDisposalResult (entry_pk journal_entry) book_value_at_disposal
          disposal_amount gain_loss).

(** [create_disposal_entry]. *)
Definition create_disposal_entry (now disposal_date : date)
    (disposal_amount : Decimal) (disposal_method : string)
    : M (Asset * World) DisposalResult :=
  _ ← set_self (λ a, with_disposal a DISPOSED (Some disposal_date)
                       (Some disposal_amount) disposal_method);
  self ← get_self;
  let book_value_at_disposal := current_book_value self in
  let gain_loss := sub disposal_amount book_value_at_disposal in
  _ ← Asset_save now;
  try_except
    (atomic (disposal_journal disposal_date disposal_amount
               book_value_at_disposal gain_loss))
    (λ e,
       _ ← set_self (λ a, with_disposal a ACTIVE None None "");
       _ ← Asset_save now;
       raise e).

End Assets.

(** ** Predicates used in the statements about assets *)

(** A non-negative amount as a [DecimalField(max_digits=15,
    decimal_places=2)] column yields it. *)
Definition is_money (d : Dec.Decimal) : Prop :=
  Dec.dexp d = -2 ∧ 0 ≤ Dec.coef d < 10 ^ 15.

#[global] Instance is_money_dec d : Decision (is_money d).
Proof. unfold is_money. apply _. Defined.

(** The depreciation floor: accumulated depreciation at most the
    depreciable amount of [a], book value at least the salvage value. *)
Definition within_floor (a a' : Assets.Asset) : Prop :=
  Dec.leb (Assets.accumulated_depreciation a')
          (Dec.sub (Assets.purchase_cost a) (Assets.salvage_value a)) = true
  ∧ Dec.leb (Assets.salvage_value a) (Assets.current_book_value a') = true.

(** The method branch as the specification words it: [DECLINING_BALANCE]
    runs the loop of the double-declining method with the annual rate
    1.5 / useful_life_years that [depreciation_rate] gives for it. *)
Definition spec_total_depreciation_of (a : Assets.Asset) (months_owned : Z)
    : result Dec.Decimal :=
  match Assets.method_of a with
  | Assets.DOUBLE_DECLINING | Assets.DECLINING_BALANCE =>
      annual_rate ← Assets.depreciation_rate a;
      Assets.declining_loop (Z.to_nat (months_owned / 12 + 1)) 0 months_owned
        annual_rate (Assets.salvage_value a) (Assets.purchase_cost a) Dec.zero
  | Assets.STRAIGHT_LINE | Assets.UNITS_OF_PRODUCTION =>
      Assets.straight_line_total a months_owned
  end.

(** The accumulated depreciation that branch leads to, clamped and
    rounded as [calculate_current_values] does. *)
Definition spec_accumulated_depreciation (a : Assets.Asset) (months_owned : Z)
    : result Dec.Decimal :=
  total ← spec_total_depreciation_of a months_owned;
  Dec.quantize_cents
    (Dec.min total (Dec.sub (Assets.purchase_cost a) (Assets.salvage_value a))).

(** An asset of 10000.00 with a salvage value of 1000.00 and five years of
    useful life, bought on 15 January 2024. *)
Definition equipment : Assets.AssetCategory :=
  Assets.mkCategory "EQP" "Equipment" 5 Assets.STRAIGHT_LINE "1500" "1510" "6200".

Definition lift (m : Assets.DepreciationMethod) : Assets.Asset :=
  Assets.mkAsset 1 "EQP-2024-0001" "Two-post lift" equipment
    (Dec.of_cents 1000000) (mkDate 2024 1 15) (Dec.of_cents 100000) 5
    (Some m) Dec.zero Dec.zero None Assets.ACTIVE None None "".

(** ** Advances against commission: [sales/serializers.py], [sales/views.py] *)

Module Sales.

(** The values of the [status] columns of [Commission] and
    [AdvancePayment]. *)
Inductive Status : Type :=
| AVAILABLE | PAYABLE | PAID | CANCELLED
| PENDING | APPROVED | REJECTED | RECOVERED.

#[global] Instance Status_eq_dec : EqDecision Status.
Proof. solve_decision. Defined.

Inductive UserRole : Type :=
| ADMIN | MANAGER | SALES_AGENT | TECHNICIAN | INVENTORY_CLERK | ACCOUNTANT.

#[global] Instance UserRole_eq_dec : EqDecision UserRole.
Proof. solve_decision. Defined.

Record User : Type := mkUser { user_id : Z; role : UserRole }.

Record Commission : Type := mkCommission {
  commission_employee : Z;
  commission_status : Status;
  commission_amount : Z
}.

Record AdvancePayment : Type := mkAdvance {
  employee : Z;
  requested_amount : Z;
  approved_amount : Z;
  available_commission : Z;
  status : Status;
  requested_at : date;
  reviewed_by : option Z;
  paid_by : option Z
}.

Record Tables : Type := mkTables {
  commissions : list Commission;
  advance_payments : list AdvancePayment
}.

(** The request body as parsed: an optional employee and an amount in
    hundredths. *)
Record AdvanceData : Type := mkAdvanceData {
  data_employee : option User;
  data_requested_amount : Z
}.

(** What a view hands back. *)
Inductive Response : Type :=
| Created (a : AdvancePayment)
| BadRequest.

(** [.aggregate(total=Sum(column))['total']]: null over no rows. *)
Definition aggregate_sum (xs : list Z) : option Z :=
  match xs with
  | [] => None
  | _ => Some (foldr Z.add 0 xs)
  end.

(** [total or Decimal('0.00')]: null and zero both give zero. *)
Definition or_zero (total : option Z) : Z :=
  match total with
  | Some v => if v =? 0 then 0 else v
  | None => 0
  end.

Definition pending_commission (emp : Z) (t : Tables) : Z :=
  or_zero (aggregate_sum (commission_amount <$>
    filter (λ c, commission_employee c = emp
                 ∧ (commission_status c = AVAILABLE ∨ commission_status c = PAYABLE))
           (commissions t))).

Definition unrecovered_advances (emp : Z) (t : Tables) : Z :=
  or_zero (aggregate_sum (approved_amount <$>
    filter (λ a, employee a = emp ∧ (status a = APPROVED ∨ status a = PAID))
           (advance_payments t))).

(** The balance the serializer checks a request against. *)
Definition available_balance (emp : Z) (t : Tables) : Z :=
  Z.max (pending_commission emp t - unrecovered_advances emp t) 0.

Definition can_record_for_others (u : User) : bool :=
  bool_decide (role u = ADMIN) || bool_decide (role u = MANAGER).

(** [serializer.is_valid(raise_exception=True)]: the checks of the field
    [requested_amount], a [DecimalField(12, 2)] with
    [MinValueValidator(0.01)]: the count of digits, then the floor.
    [validate_requested_amount] asks for a positive amount once more and
    finds nothing left to refuse. *)
Definition is_valid (data : AdvanceData) : M Tables unit :=
  if 10 ^ 12 <=? Z.abs (data_requested_amount data)
  then raise (ValidationError "Ensure that there are no more than 12 digits in total.")
  else if data_requested_amount data <=? 0
  then raise (ValidationError "Ensure this value is greater than or equal to 0.01.")
  else mret tt.

(** The values a [DecimalField(max_digits=12, decimal_places=2)] column
    takes: fewer than 10 ^ 12 hundredths on either side of zero. *)
Definition column_12_2 (v : Z) : bool := Z.abs v <? 10 ^ 12.

Arguments column_12_2 : simpl never.

(** [AdvancePayment.objects.create(...)]: the row is appended, unless one
    of its three amounts is no value of its column; then the insert raises
    ([decimal.InvalidOperation], or the numeric overflow of the database)
    and the table stays as it was. *)
Definition AdvancePayment_objects_create (adv : AdvancePayment)
    : M Tables AdvancePayment :=
  if column_12_2 (requested_amount adv) && column_12_2 (approved_amount adv)
     && column_12_2 (available_commission adv)
  then _ ← modify (λ t, mkTables (commissions t) (advance_payments t ++ [adv]));
       mret adv
  else raise DecimalException.

(** [AdvancePaymentCreateSerializer.create], with [today] for
    [timezone.now().date()]. *)
Definition AdvancePaymentCreateSerializer_create (request_user : User)
    (today : date) (data : AdvanceData) : M Tables AdvancePayment :=
  emp ← match data_employee data with
        | Some e =>
            if can_record_for_others request_user then mret e
            else raise (ValidationError
                   "You do not have permission to record advances for other employees")
        | None => mret request_user
        end;
  t ← gets id;
  let existing_advance_today :=
    existsb (λ a, bool_decide (employee a = user_id emp)
                  && bool_decide (requested_at a = today))
            (advance_payments t) in
  if existing_advance_today
  then raise (ValidationError
         "An advance payment has already been recorded for this employee today.")
  else
    let available_commission := available_balance (user_id emp) t in
    if available_commission <? data_requested_amount data
    then raise (ValidationError
           "Requested amount exceeds available commission after deducting unrecovered advances.")
    else
      AdvancePayment_objects_create
        (mkAdvance (user_id emp) (data_requested_amount data)
           (data_requested_amount data) available_commission PAID today
           (Some (user_id request_user)) (Some (user_id request_user))).

(** The [create] action of the view set: validate, then [create]. *)
Definition request_advance (request_user : User) (today : date)
    (data : AdvanceData) : M Tables AdvancePayment :=
  _ ← is_valid data;
  AdvancePaymentCreateSerializer_create request_user today data.

(** [AdvancePaymentViewSet.give_advance]. The decorator names the manager
    permission, but [get_permissions] of the view set decides: it asks for a
    manager on [review], [mark_paid] and [cancel] only, so any authenticated
    user reaches this action. *)
Definition give_advance (request_user : User) (today : date)
    (data : AdvanceData) : M Tables Response :=
  _ ← is_valid data;
  let employee_id := user_id (default request_user (data_employee data)) in
  t ← gets id;
  let available_commissions :=
    or_zero (aggregate_sum (commission_amount <$>
      filter (λ c, commission_employee c = employee_id
                   ∧ commission_status c = PAYABLE) (commissions t))) in
  let requested := data_requested_amount data in
  if available_commissions <? requested
  then mret BadRequest
  else
    adv ← AdvancePayment_objects_create
             (mkAdvance employee_id requested requested available_commissions
                PAID today (Some (user_id request_user))
                (Some (user_id request_user)));
    mret (Created adv).

End Sales.

(** ** Creating the lines of an entry from instances the caller holds *)

(** The caller's [Account] instances are Python objects: two variables may
    name one object, and two objects may stand for one row. [Heap] maps an
    object identity to the instance's current field values. *)
Abbreviation Heap := (gmap nat Account).

(** A line to be created: the name of the account object and the two
    amounts, which are values of their columns. *)
Record NewLine : Type := mkNewLine {
  nl_account : nat;
  nl_debit_amount : Z;
  nl_credit_amount : Z
}.

(** The object [lo_account l] as [JournalEntryLine.save] leaves it: the
    amounts are added and the balance recomputed on the object itself,
    before its row is written and whether or not that write goes through. *)
Definition account_after_save (l : LineObj) : Account :=
  let a := lo_account l in
  let d := debit_balance a + lo_debit_amount l in
  let c := credit_balance a + lo_credit_amount l in
  with_balances a (derived_balance (account_type a) d c) d c.

(** [JournalEntryLine.objects.create(journal_entry=je, account=obj, ...)]:
    [save] mutates the object [obj] itself. A name bound to no object is
    an error of the caller, rendered as [DoesNotExist]. *)
Definition create_line (je : Z) (nl : NewLine) : M (Heap * DB) unit :=
  heap ← get_self;
  match heap !! nl_account nl with
  | None => raise DoesNotExist
  | Some inst =>
      let l := mkLineObj je inst (nl_debit_amount nl) (nl_credit_amount nl) in
      _ ← set_self (<[nl_account nl := account_after_save l]>);
      _ ← on_db (JournalEntryLine_save l);
      mret tt
  end.

Fixpoint create_lines (je : Z) (nls : list NewLine) : M (Heap * DB) unit :=
  match nls with
  | [] => mret tt
  | nl :: nls' => _ ← create_line je nl; create_lines je nls'
  end.

(** ** Predicates used in the statements about the ledger *)

(** Every row of the account table sits under its own primary key. *)
Definition accounts_keyed (db : DB) : Prop :=
  map_Forall (λ pk a, account_pk a = pk) (accounts db).

(** The foreign key [JournalEntryLine.account] (on_delete=PROTECT). *)
Definition lines_fk (db : DB) : Prop :=
  Forall (λ l, is_Some (accounts db !! account l)) (journal_lines db).

Definition db_wf (db : DB) : Prop := accounts_keyed db ∧ lines_fk db.

(** The entry went through [save] before: it has a number, and no other
    row carries that number. *)
Definition entry_saved (e : JournalEntry) (db : DB) : Prop :=
  entry_number e ≠ ""%string ∧ number_taken e (journal_entries db) = false.

(** The [Account] invariant of the data model. *)
Definition account_consistent (a : Account) : Prop :=
  balance a = derived_balance (account_type a) (debit_balance a) (credit_balance a).

#[global] Instance account_consistent_dec a : Decision (account_consistent a).
Proof. unfold account_consistent. apply _. Defined.

Definition ledger_consistent (db : DB) : Prop :=
  map_Forall (λ _ a, account_consistent a) (accounts db).

Definition balanced (ls : list JournalEntryLine) : Prop :=
  total_debits ls = total_credits ls.

(** Debits and credits the lines [ls] carry for the account [pk]. *)
Definition line_debits (pk : Z) (ls : list JournalEntryLine) : Z :=
  total_debits (filter (λ l, account l = pk) ls).
Definition line_credits (pk : Z) (ls : list JournalEntryLine) : Z :=
  total_credits (filter (λ l, account l = pk) ls).

(** The effect of one loop turn of [post] ([sign = 1]) or [reverse]
    ([sign = -1]) on the row [a] stored under [pk]. *)
Definition line_effect (sign pk : Z) (a : Account) (l : JournalEntryLine) : Account :=
  if decide (account l = pk)
  then let d := debit_balance a + sign * debit_amount l in
       let c := credit_balance a + sign * credit_amount l in
       with_balances a (derived_balance (account_type a) d c) d c
  else a.

Definition lines_effect (sign pk : Z) (ls : list JournalEntryLine) (a : Account)
    : Account :=
  foldl (line_effect sign pk) a ls.

(** Every stored account holds values of its three columns. *)
Definition ledger_in_range (db : DB) : Prop :=
  map_Forall (λ _ a, account_fits a = true) (accounts db).

(** The account table stays within its columns while a loop over [ls]
    runs with [sign]: every row fits before the first turn and after each
    turn. *)
Definition stays_in_range (sign : Z) (ls : list JournalEntryLine) (db : DB)
    : Prop :=
  map_Forall (λ pk a,
    Forall (λ n, account_fits (lines_effect sign pk (take n ls) a) = true)
           (seq 0 (S (length ls)))) (accounts db).

(** What a successful [post] or [reverse] leaves behind. *)
Definition after_lines (sign : Z) (e : JournalEntry) (s : EntryStatus)
    (db db' : DB) : Prop :=
  journal_entries db' = upsert_entry (with_status e s) (journal_entries db)
  ∧ journal_lines db' = journal_lines db
  ∧ accounts_keyed db'
  ∧ ∀ pk, accounts db' !! pk = lines_effect sign pk (lines_all e db) <$> accounts db !! pk.




(** ** Predicates about the caller's instances *)

(** Every instance shows the stored row of its primary key. *)
Definition heap_synced (heap : Heap) (db : DB) : Prop :=
  map_Forall (λ _ o, accounts db !! account_pk o = Some o) heap.

(** No two objects stand for the same row. *)
Definition heap_no_alias (heap : Heap) : Prop :=
  map_Forall (λ i oi,
    map_Forall (λ j oj, account_pk oi = account_pk oj → i = j) heap) heap.

Definition heap_bound (heap : Heap) (nls : list NewLine) : Prop :=
  Forall (λ nl, is_Some (heap !! nl_account nl)) nls.

(** The row [create_line] stores for [nl]. *)
Definition new_row (je : Z) (heap : Heap) (nl : NewLine) : JournalEntryLine :=
  mkLine je (from_option account_pk 0 (heap !! nl_account nl))
         (nl_debit_amount nl) (nl_credit_amount nl).

(** Debits and credits the new lines carry for the object [loc]. *)
Definition new_debits (loc : nat) (nls : list NewLine) : Z :=
  foldr Z.add 0 (nl_debit_amount <$> filter (λ nl, nl_account nl = loc) nls).
Definition new_credits (loc : nat) (nls : list NewLine) : Z :=
  foldr Z.add 0 (nl_credit_amount <$> filter (λ nl, nl_account nl = loc) nls).

(** ** A small chart of accounts and an entry, used to exercise the model *)

Definition cash : Account := mkAccount 1 "1000" ASSET 120000 150000 30000.
Definition rent : Account := mkAccount 2 "6100" EXPENSE 0 0 0.
Definition sales : Account := mkAccount 3 "4000" REVENUE 80000 0 80000.

Definition rent_entry : JournalEntry :=
  mkEntry 7 "2025-000001" (mkDate 2025 3 14) MANUAL DRAFT "" "" 45000.

(** A balanced draft: rent of 450.00 paid from cash. *)
Definition books : DB :=
  mkDB {[ 1 := cash; 2 := rent; 3 := sales ]}
       [rent_entry]
       [mkLine 7 2 45000 0; mkLine 7 1 0 45000].

(** The books after the rent entry is posted, and after it is reversed. *)
Definition books_posted : DB := snd (fst (post (rent_entry, books))).

Definition books_reversed : DB :=
  snd (fst (reverse (with_status rent_entry POSTED, books_posted))).

(** The same books with a cash row whose balance column disagrees with its
    totals: 1.00 instead of 1500.00 - 300.00. *)
Definition books_off_formula : DB :=
  mkDB {[ 1 := mkAccount 1 "1000" ASSET 100 150000 30000; 2 := rent; 3 := sales ]}
       [rent_entry]
       [mkLine 7 2 45000 0; mkLine 7 1 0 45000].

(** The same draft with the credit line short by 50.00. *)
Definition books_unbalanced : DB :=
  mkDB {[ 1 := cash; 2 := rent; 3 := sales ]}
       [rent_entry]
       [mkLine 7 2 45000 0; mkLine 7 1 0 40000].

(** The books before any line of the rent entry exists, the two instances
    the caller fetched, and the two lines it is about to create. *)
Definition books_no_lines : DB :=
  mkDB {[ 1 := cash; 2 := rent; 3 := sales ]} [rent_entry] [].

Definition rent_heap : Heap := {[ 0%nat := rent; 1%nat := cash ]}.

Definition rent_lines : list NewLine :=
  [mkNewLine 0 45000 0; mkNewLine 1 0 45000].

(** A reserve account one hundredth below the top of its columns, and a
    balanced draft that moves 0.01 from cash into it: the cash line comes
    first. *)
Definition reserve : Account :=
  mkAccount 4 "1100" ASSET 999999999999999 999999999999999 0.

Definition top_up_entry : JournalEntry :=
  mkEntry 8 "2025-000002" (mkDate 2025 3 15) MANUAL DRAFT "" "" 1.

Definition books_at_limit : DB :=
  mkDB {[ 1 := cash; 4 := reserve ]}
       [top_up_entry]
       [mkLine 8 1 0 1; mkLine 8 4 1 0].

(** Two instances of the cash row, as two fetches give them, and a debit
    and a credit line of 10.00 created from one each. *)
Definition cash_twice : Heap := {[ 0%nat := cash; 1%nat := cash ]}.

Definition cash_twice_lines : list NewLine :=
  [mkNewLine 0 1000 0; mkNewLine 1 0 1000].

(** The two lines of the rent entry with the credit short by 50.00. *)
Definition rent_lines_short : list NewLine :=
  [mkNewLine 0 45000 0; mkNewLine 1 0 40000].

(** The books at the limit before the top-up entry has a line, and the
    instance of the reserve account. *)
Definition books_at_limit_no_lines : DB :=
  mkDB {[ 1 := cash; 4 := reserve ]} [top_up_entry] [].

Definition reserve_heap : Heap := {[ 0%nat := reserve ]}.

(** ** Data for the numbering, the advances and the disposal *)

(** Entries dated in 2025: two numbered by [save], and the depreciation
    entry the monthly task wrote on 31 January under its own number. *)
Definition depreciation_entry_jan : JournalEntry :=
  mkEntry 3 "DEP-EQP-2024-0001-20250131" (mkDate 2025 1 31) DEPRECIATION POSTED
    "assets.Asset" "1" 15000.

Definition journal_2025 : DB :=
  mkDB ∅
    [ mkEntry 1 "2025-000001" (mkDate 2025 1 6) MANUAL POSTED "" "" 45000;
      mkEntry 2 "2025-000002" (mkDate 2025 1 9) MANUAL DRAFT "" "" 12000;
      depreciation_entry_jan ]
    [].

(** A year whose only entry so far is that depreciation entry. *)
Definition journal_depreciation_only : DB :=
  mkDB ∅ [depreciation_entry_jan] [].

(** Two numbered entries and one the caller numbered "ADJ-0001". *)
Definition journal_with_adjustment : DB :=
  mkDB ∅
    [ mkEntry 1 "2025-000001" (mkDate 2025 1 6) MANUAL POSTED "" "" 45000;
      mkEntry 2 "2025-000002" (mkDate 2025 1 9) MANUAL DRAFT "" "" 12000;
      mkEntry 3 "ADJ-0001" (mkDate 2025 2 10) ADJUSTMENT POSTED "" "" 700 ]
    [].

(** A new manual entry of 2025 that has no number yet. *)
Definition unnumbered_entry : JournalEntry :=
  mkEntry 9 "" (mkDate 2025 3 1) MANUAL DRAFT "" "" 5000.

(** Employee 5 has payable commissions of 10000.00 in all and one paid
    advance of 3000.00 from an earlier day. *)
Definition commission_tables : Sales.Tables :=
  Sales.mkTables
    [ Sales.mkCommission 5 Sales.PAYABLE 400000;
      Sales.mkCommission 5 Sales.PAYABLE 600000;
      Sales.mkCommission 5 Sales.PAID 250000;
      Sales.mkCommission 6 Sales.AVAILABLE 90000 ]
    [ Sales.mkAdvance 5 300000 300000 1000000 Sales.PAID (mkDate 2025 1 10)
        (Some 9) (Some 9) ].

Definition technician : Sales.User := Sales.mkUser 5 Sales.TECHNICIAN.
Definition manager : Sales.User := Sales.mkUser 9 Sales.MANAGER.

(** The employee an advance is recorded for. *)
Definition advance_employee (request_user : Sales.User)
    (data : Sales.AdvanceData) : Sales.User :=
  default request_user (Sales.data_employee data).

(** The lift, five years old, carried at 5000.00 and out of service. *)
Definition idle_lift : Assets.Asset :=
  Assets.mkAsset 1 "EQP-2024-0001" "Two-post lift" equipment
    (Dec.of_cents 1000000) (mkDate 2024 1 15) (Dec.of_cents 100000) 5
    (Some Assets.STRAIGHT_LINE) (Dec.of_cents 500000) (Dec.of_cents 500000)
    None Assets.INACTIVE None None "".

Definition active_lift : Assets.Asset :=
  Assets.with_disposal idle_lift Assets.ACTIVE None None "".

(** A chart with the cash, equipment, accumulated depreciation and
    gain/loss accounts, and one without the cash account "1000". *)
Definition disposal_chart : DB :=
  mkDB {[ 1 := mkAccount 1 "1000" ASSET 0 0 0;
          2 := mkAccount 2 "1500" ASSET 1000000 1000000 0;
          3 := mkAccount 3 "1510" ASSET (-500000) 0 500000;
          4 := mkAccount 4 "8500" REVENUE 0 0 0 ]} [] [].

Definition chart_without_cash : DB :=
  mkDB {[ 2 := mkAccount 2 "1500" ASSET 1000000 1000000 0;
          3 := mkAccount 3 "1510" ASSET (-500000) 0 500000 ]} [] [].

Definition world_of (db : DB) (a : Assets.Asset) : Assets.World :=
  Assets.mkWorld db {[ Assets.asset_pk a := a ]} [].

(** ** Further predicates about the ledger *)

(** The two uniqueness constraints of the entry table: the primary key and
    the column [entry_number] (unique=True). *)
Definition entry_pks_unique (db : DB) : Prop :=
  NoDup (entry_pk <$> journal_entries db).

Definition numbers_unique (db : DB) : Prop :=
  ∀ r1 r2, r1 ∈ journal_entries db → r2 ∈ journal_entries db →
    entry_number r1 = entry_number r2 → entry_pk r1 = entry_pk r2.

(** The two columns of a trial balance: the debit totals and the credit
    totals of all accounts. *)
Definition column_sum (f : Account → Z) (m : gmap Z Account) : Z :=
  map_fold (λ _ a s, f a + s) 0 m.

Definition sum_debit_balances (db : DB) : Z :=
  column_sum debit_balance (accounts db).

Definition sum_credit_balances (db : DB) : Z :=
  column_sum credit_balance (accounts db).

(** The foreign key [JournalEntryLine.journal_entry] (on_delete=CASCADE):
    every line belongs to a stored entry. *)
Definition lines_entry_fk (db : DB) : Prop :=
  Forall (λ l, ∃ r, r ∈ journal_entries db ∧ entry_pk r = journal_entry l)
         (journal_lines db).


(** ** Expenses: [ExpenseViewSet._create_expense_journal_entry] *)

Module Expenses.

Inductive PaymentMethod : Type :=
| CASH | MPESA | BANK_TRANSFER | CHEQUE | CARD | OTHER.

#[global] Instance PaymentMethod_eq_dec : EqDecision PaymentMethod.
Proof. solve_decision. Defined.

(** What the journal code reads of an [Expense]: [expense_id] is
    [str(expense.id)], [amount] is in hundredths. *)
Record Expense : Type := mkExpense {
  expense_id : string;
  expense_date : date;
  amount : Z;
  payment_method : PaymentMethod
}.

(** [AccountCategory.objects.get(code=c)] over the code column of the
    category table, which the journal code only reads. *)
Definition get_category (category_codes : list string) (c : string) : M DB unit :=
  if bool_decide (c ∈ category_codes) then mret tt else raise DoesNotExist.

(** The key the database gives a new account. *)
Definition next_account_pk (db : DB) : Z :=
  1 + foldr Z.max 0 (fst <$> map_to_list (accounts db)).

(** [Account.objects.get_or_create(code=c, defaults={...})] with defaults
    that name the category: a missing row is inserted with zero balances. *)
Definition Account_get_or_create (c : string) (t : AccountType) : M DB Account :=
  λ db, match Assets.get_account_by_code c db with
        | (_, Ok a) => (db, Ok a)
        | (_, Raise _) =>
            let a := mkAccount (next_account_pk db) c t 0 0 0 in
            (set_accounts (<[account_pk a := a]>) db, Ok a)
        end.

(** The code of the account credited for a payment method. *)
Definition payment_account_code (m : PaymentMethod) : string :=
  match m with
  | CASH => "1010"
  | MPESA => "1011"
  | BANK_TRANSFER | CHEQUE | CARD | OTHER => "1020"
  end.

(** [journal_entry.post()] on the instance [je]; the result is the instance
    after the call. *)
Definition post_instance (je : JournalEntry) : M DB JournalEntry :=
  λ db, let '((je', db'), r) := post (je, db) in (db', _ ← r; Ok je').

(** The body of the [try] block. *)
Definition expense_journal (category_codes : list string) (expense : Expense)
    : M DB JournalEntry :=
  _ ← get_category category_codes "5000";
  _ ← get_category category_codes "1000";
  expense_account ← Account_get_or_create "5100" EXPENSE;
  payment_account ←
    Account_get_or_create (payment_account_code (payment_method expense)) ASSET;
  journal_entry ← Assets.JournalEntry_objects_create "" (expense_date expense)
                     AUTO DRAFT "expenses.Expense" (expense_id expense)
                     (amount expense);
  _ ← Assets.JournalEntryLine_objects_create journal_entry expense_account
         (amount expense) 0;
  _ ← Assets.JournalEntryLine_objects_create journal_entry payment_account
         0 (amount expense);
  post_instance journal_entry.

(** [_create_expense_journal_entry]: any exception is swallowed and [None]
    returned; nothing is rolled back. *)
Definition _create_expense_journal_entry (category_codes : list string)
    (expense : Expense) : M DB (option JournalEntry) :=
  try_except (je ← expense_journal category_codes expense; mret (Some je))
             (λ _, mret None).

End Expenses.

(** A chart with the two categories the expense code asks for, the
    operating-expense account and the cash account; and an expense of
    120.00 paid in cash. *)
Definition expense_categories : list string := ["1000"; "5000"].

Definition expense_chart : DB :=
  mkDB {[ 1 := mkAccount 1 "1010" ASSET 500000 500000 0;
          2 := mkAccount 2 "5100" EXPENSE 30000 30000 0 ]} [] [].

Definition fuel_expense : Expenses.Expense :=
  Expenses.mkExpense "e7" (mkDate 2025 4 2) 12000 Expenses.CASH.

(** The same chart with the operating-expense account at the top of its
    columns, and an expense of 0.01 paid in cash. *)
Definition expense_chart_at_limit : DB :=
  mkDB {[ 1 := mkAccount 1 "1010" ASSET 500000 500000 0;
          2 := mkAccount 2 "5100" EXPENSE 999999999999999 999999999999999 0 ]}
       [] [].

Definition small_expense : Expenses.Expense :=
  Expenses.mkExpense "e8" (mkDate 2025 4 2) 1 Expenses.CASH.

(** ** Commissions and advances: the actions of [CommissionViewSet] and
    [AdvancePaymentViewSet], and [CommissionSerializer.validate_status] *)

Module SalesActions.

Import Sales.

(** What an action hands back: the payload of a 200, or the status of a
    refusal. *)
Inductive Reply (A : Type) : Type :=
| Done (a : A)
| BadRequest400
| Forbidden403
| NotFound404.
Arguments Done {A} a.
Arguments BadRequest400 {A}.
Arguments Forbidden403 {A}.
Arguments NotFound404 {A}.

Definition with_commission_status (c : Commission) (s : Status) : Commission :=
  mkCommission (commission_employee c) s (commission_amount c).

Definition with_advance_status (a : AdvancePayment) (s : Status) : AdvancePayment :=
  mkAdvance (employee a) (requested_amount a) (approved_amount a)
    (available_commission a) s (requested_at a) (reviewed_by a) (paid_by a).

(** [CommissionSerializer.validate_status]: [instance_status] is the status
    of [self.instance], [None] when a row is being created. *)
Definition valid_transitions (old_status : Status) : option (list Status) :=
  match old_status with
  | AVAILABLE => Some [PAYABLE; CANCELLED]
  | PAYABLE => Some [PAID; CANCELLED]
  | PAID => Some []
  | CANCELLED => Some []
  | _ => None
  end.

Definition validate_status (instance_status : option Status) (value : Status)
    : result Status :=
  match instance_status with
  | Some old_status =>
      match valid_transitions old_status with
      | Some allowed =>
          if bool_decide (value ≠ old_status) && bool_decide (value ∉ allowed)
          then Raise (ValidationError "Cannot transition")
          else Ok value
      | None => Ok value
      end
  | None => Ok value
  end.

(** [Commission.objects.filter(id__in=ids, status=s)]: the position of a
    row in the table stands for its key. *)
Definition selected (ids : list nat) (s : Status) (i : nat) (c : Commission)
    : bool :=
  bool_decide (i ∈ ids) && bool_decide (commission_status c = s).

Definition selected_rows (ids : list nat) (s : Status) (rows : list Commission)
    : list Commission :=
  snd <$> filter (λ ic, selected ids s (fst ic) (snd ic) = true) (imap pair rows).

(** [.update(status=s')] on that query set. *)
Definition update_selected (ids : list nat) (s s' : Status)
    (rows : list Commission) : list Commission :=
  imap (λ i c, if selected ids s i c then with_commission_status c s' else c) rows.

(** [CommissionViewSet.mark_payable]; the result is [updated_count]. The
    decorator names the manager permission, but [get_permissions] of the
    view set decides, and it asks for a manager on [create], [update],
    [partial_update] and [destroy] only: any authenticated user runs this
    action and [mark_paid]. *)
Definition CommissionViewSet_mark_payable (request_user : User)
    (commission_ids : list nat) : M Tables (Reply nat) :=
  match commission_ids with
  | [] => mret BadRequest400
  | _ =>
      t ← gets id;
      let updated := length (selected_rows commission_ids AVAILABLE (commissions t)) in
      _ ← modify (λ t, mkTables
             (update_selected commission_ids AVAILABLE PAYABLE (commissions t))
             (advance_payments t));
      mret (Done updated)
  end.

(** The two counts of the answer of [mark_paid]. The list [employee_ids]
    of the answer is left out: its order and its repetitions follow
    [created_at], which is not modelled. *)
Record PaidResult : Type := mkPaidResult {
  updated_count : nat;
  advances_recovered : nat
}.

(** The advances the payout writes off: those of the employees paid that
    are [APPROVED] or [PAID]. *)
Definition to_recover (employee_ids : list Z) (a : AdvancePayment) : bool :=
  bool_decide (employee a ∈ employee_ids)
  && (bool_decide (status a = APPROVED) || bool_decide (status a = PAID)).

(** [CommissionViewSet.mark_paid]. The local [employee_ids] is used for
    [employee_id__in] only, so it stands here with one member per row
    selected. *)
Definition CommissionViewSet_mark_paid (request_user : User)
    (commission_ids : list nat) : M Tables (Reply PaidResult) :=
  match commission_ids with
  | [] => mret BadRequest400
  | _ =>
      t ← gets id;
      let employee_ids :=
        commission_employee <$>
          selected_rows commission_ids PAYABLE (commissions t) in
      let updated := length (selected_rows commission_ids PAYABLE (commissions t)) in
      _ ← modify (λ t, mkTables
             (update_selected commission_ids PAYABLE PAID (commissions t))
             (advance_payments t));
      t ← gets id;
      let advances_updated :=
        length (filter (λ a, to_recover employee_ids a = true) (advance_payments t)) in
      _ ← modify (λ t, mkTables (commissions t)
             ((λ a, if to_recover employee_ids a
                    then with_advance_status a RECOVERED else a)
                <$> advance_payments t));
      mret (Done (mkPaidResult updated advances_updated))
  end.

(** The employees a payout touches: those with a [PAYABLE] commission
    among the keys. *)
Definition paid_employee (ids : list nat) (t : Tables) (emp : Z) : Prop :=
  ∃ i c, commissions t !! i = Some c ∧ i ∈ ids
         ∧ commission_status c = PAYABLE ∧ commission_employee c = emp.

(** [advance.save()] for the row fetched under [pk]. *)
Definition save_advance (pk : nat) (a : AdvancePayment) : M Tables unit :=
  modify (λ t, mkTables (commissions t) (<[pk := a]> (advance_payments t))).

Inductive ReviewAction : Type := approve | reject.

(** The body of a review request: [approved_amount] is optional. *)
Record ReviewData : Type := mkReviewData {
  review_action : ReviewAction;
  review_approved_amount : option Z
}.

(** [AdvancePaymentReviewSerializer]: the field floor of 0.01, then
    [validate]. *)
Definition review_is_valid (data : ReviewData) : M Tables unit :=
  match review_approved_amount data with
  | Some v =>
      if v <? 1
      then raise (ValidationError "Ensure this value is greater than or equal to 0.01.")
      else mret tt
  | None =>
      match review_action data with
      | approve => raise (ValidationError "Approved amount is required when approving")
      | reject => mret tt
      end
  end.

(** [AdvancePaymentViewSet.review]. *)
Definition AdvancePaymentViewSet_review (request_user : User) (pk : nat)
    (data : ReviewData) : M Tables (Reply AdvancePayment) :=
  if negb (can_record_for_others request_user) then mret Forbidden403
  else
    t ← gets id;
    match advance_payments t !! pk with
    | None => mret NotFound404
    | Some advance =>
        if decide (status advance ≠ PENDING) then mret BadRequest400
        else
          _ ← review_is_valid data;
          match review_action data with
          | approve =>
              let approved := default 0 (review_approved_amount data) in
              if available_commission advance <? approved then mret BadRequest400
              else
                let advance' :=
                  mkAdvance (employee advance) (requested_amount advance) approved
                    (available_commission advance) APPROVED (requested_at advance)
                    (Some (user_id request_user)) (paid_by advance) in
                _ ← save_advance pk advance'; mret (Done advance')
          | reject =>
              let advance' :=
                mkAdvance (employee advance) (requested_amount advance)
                  (approved_amount advance) (available_commission advance)
                  REJECTED (requested_at advance)
                  (Some (user_id request_user)) (paid_by advance) in
              _ ← save_advance pk advance'; mret (Done advance')
          end
    end.

(** [Payment.PAYMENT_METHODS], the choices of [AdvancePaymentPaySerializer]. *)
Definition PAYMENT_METHODS : list string :=
  ["CASH"; "CARD"; "MOBILE_MONEY"; "BANK_TRANSFER"; "CHEQUE"; "CREDIT"].

(** [AdvancePaymentViewSet.mark_paid]. *)
Definition AdvancePaymentViewSet_mark_paid (request_user : User) (pk : nat)
    (payment_method : string) : M Tables (Reply AdvancePayment) :=
  if negb (can_record_for_others request_user) then mret Forbidden403
  else
    t ← gets id;
    match advance_payments t !! pk with
    | None => mret NotFound404
    | Some advance =>
        if decide (status advance ≠ APPROVED) then mret BadRequest400
        else if bool_decide (payment_method ∈ PAYMENT_METHODS)
        then
          let advance' :=
            mkAdvance (employee advance) (requested_amount advance)
              (approved_amount advance) (available_commission advance)
              PAID (requested_at advance) (reviewed_by advance)
              (Some (user_id request_user)) in
          _ ← save_advance pk advance'; mret (Done advance')
        else raise (ValidationError "Not a valid choice.")
    end.

(** [AdvancePaymentViewSet.cancel]. *)
Definition AdvancePaymentViewSet_cancel (request_user : User) (pk : nat)
    : M Tables (Reply AdvancePayment) :=
  if negb (can_record_for_others request_user) then mret Forbidden403
  else
    t ← gets id;
    match advance_payments t !! pk with
    | None => mret NotFound404
    | Some advance =>
        if decide (status advance = PAID) then mret BadRequest400
        else
          let advance' := with_advance_status advance CANCELLED in
          _ ← save_advance pk advance'; mret (Done advance')
    end.

(** One call of a per-advance action. *)
Inductive advance_action : Type :=
| ActReview (u : User) (pk : nat) (data : ReviewData)
| ActMarkPaid (u : User) (pk : nat) (payment_method : string)
| ActCancel (u : User) (pk : nat).

Definition run_action (act : advance_action) (t : Tables) : Tables :=
  match act with
  | ActReview u pk data => fst (AdvancePaymentViewSet_review u pk data t)
  | ActMarkPaid u pk m => fst (AdvancePaymentViewSet_mark_paid u pk m t)
  | ActCancel u pk => fst (AdvancePaymentViewSet_cancel u pk t)
  end.

Definition run_actions (acts : list advance_action) (t : Tables) : Tables :=
  foldl (λ t act, run_action act t) t acts.

End SalesActions.

(** The sum [give_advance] compares a request with: the payable
    commissions of the employee. *)
Definition payable_commission (emp : Z) (t : Sales.Tables) : Z :=
  Sales.or_zero (Sales.aggregate_sum (Sales.commission_amount <$>
    filter (λ c, Sales.commission_employee c = emp
                 ∧ Sales.commission_status c = Sales.PAYABLE)
           (Sales.commissions t))).

(** An advance whose approved amount is within the commission balance
    recorded with the request. *)
Definition within_snapshot (a : Sales.AdvancePayment) : Prop :=
  Sales.approved_amount a ≤ Sales.available_commission a.

(** Tables in which employee 5 has one payable commission of
    10 000 000 000.00, which is no value of a [DecimalField(12, 2)]. *)
Definition rich_tables : Sales.Tables :=
  Sales.mkTables [Sales.mkCommission 5 Sales.PAYABLE 1000000000000] [].

(** A pending request of employee 6 beside the paid advance of employee 5. *)
Definition advance_tables : Sales.Tables :=
  Sales.mkTables (Sales.commissions commission_tables)
    [ Sales.mkAdvance 5 300000 300000 1000000 Sales.PAID (mkDate 2025 1 10)
        (Some 9) (Some 9);
      Sales.mkAdvance 6 50000 0 90000 Sales.PENDING (mkDate 2025 1 12)
        None None ].

(** ** Predicates about the depreciation runs *)

(** The instance as [Asset.save] has it when it reaches
    [calculate_current_values]: numbered, and with the method of its
    category when it had none. *)
Definition save_prepared (now : date) (a : Assets.Asset) (w : Assets.World)
    : Assets.Asset :=
  let a1 := if decide (Assets.asset_number a = ""%string)
            then Assets.with_asset_number a (Assets.generate_asset_number now a w)
            else a in
  match Assets.depreciation_method a1 with
  | None => Assets.with_depreciation_method a1
              (Some (Assets.cat_depreciation_method (Assets.category a1)))
  | Some _ => a1
  end.

(** Two instances that differ in nothing the depreciation schedule reads. *)
Definition same_schedule_inputs (x y : Assets.Asset) : Prop :=
  Assets.asset_pk x = Assets.asset_pk y ∧ Assets.status x = Assets.status y
  ∧ Assets.purchase_date x = Assets.purchase_date y
  ∧ Assets.purchase_cost x = Assets.purchase_cost y
  ∧ Assets.salvage_value x = Assets.salvage_value y
  ∧ Assets.useful_life_years x = Assets.useful_life_years y
  ∧ Assets.method_of x = Assets.method_of y.

(** The lift in service, depreciated on the straight line, and the tables
    that hold it. *)
Definition lift_in_service : Assets.Asset :=
  Assets.with_disposal (lift Assets.STRAIGHT_LINE) Assets.ACTIVE None None "".

Definition lift_world : Assets.World := world_of disposal_chart lift_in_service.

(** * Properties of the ledger *)

Ltac munfold :=
  unfold get_self, set_self, on_db in *;
  unfold mbind, M_bind, mret, M_ret, gets, modify, raise in *; simpl in *.

Section Ledger.

Lemma lines_effect_cons sign pk l ls a :
  lines_effect sign pk (l :: ls) a = lines_effect sign pk ls (line_effect sign pk a l).
Proof. reflexivity. Qed.

Lemma line_effect_invariant sign pk a l :
  account_pk (line_effect sign pk a l) = account_pk a
  ∧ code (line_effect sign pk a l) = code a
  ∧ account_type (line_effect sign pk a l) = account_type a.
Proof. unfold line_effect. case_decide; simpl; auto. Qed.

Lemma lines_effect_invariant sign pk ls : ∀ a,
  account_pk (lines_effect sign pk ls a) = account_pk a
  ∧ code (lines_effect sign pk ls a) = code a
  ∧ account_type (lines_effect sign pk ls a) = account_type a.
Proof.
  induction ls as [|l ls IH]; intros a; [done|].
  rewrite lines_effect_cons.
  destruct (IH (line_effect sign pk a l)) as (-> & -> & ->).
  apply line_effect_invariant.
Qed.

Lemma line_debits_cons pk l ls :
  line_debits pk (l :: ls) =
    (if decide (account l = pk) then debit_amount l else 0) + line_debits pk ls.
Proof.
  unfold line_debits, total_debits. rewrite filter_cons.
  destruct (decide (account l = pk)); reflexivity.
Qed.

Lemma line_credits_cons pk l ls :
  line_credits pk (l :: ls) =
    (if decide (account l = pk) then credit_amount l else 0) + line_credits pk ls.
Proof.
  unfold line_credits, total_credits. rewrite filter_cons.
  destruct (decide (account l = pk)); reflexivity.
Qed.

(** The running totals after a loop over [ls]. *)
Lemma lines_effect_totals sign pk ls : ∀ a,
  debit_balance (lines_effect sign pk ls a) = debit_balance a + sign * line_debits pk ls
  ∧ credit_balance (lines_effect sign pk ls a) = credit_balance a + sign * line_credits pk ls.
Proof.
  induction ls as [|l ls IH]; intros a.
  - unfold line_debits, line_credits, total_debits, total_credits.
    rewrite filter_nil. simpl. lia.
  - rewrite lines_effect_cons, line_debits_cons, line_credits_cons.
    destruct (IH (line_effect sign pk a l)) as [-> ->].
    unfold line_effect. destruct (decide (account l = pk)); simpl; lia.
Qed.

Lemma line_effect_consistent sign pk a l :
  account_consistent a → account_consistent (line_effect sign pk a l).
Proof. unfold line_effect. case_decide; [reflexivity | done]. Qed.

Lemma lines_effect_consistent sign pk ls : ∀ a,
  account_consistent a → account_consistent (lines_effect sign pk ls a).
Proof.
  induction ls as [|l ls IH]; intros a Ha; [done|].
  rewrite lines_effect_cons. by apply IH, line_effect_consistent.
Qed.

(** A row that some line of the loop touches ends consistent. *)
Lemma lines_effect_touched sign pk ls : ∀ a,
  (∃ l, l ∈ ls ∧ account l = pk) → account_consistent (lines_effect sign pk ls a).
Proof.
  induction ls as [|l ls IH]; intros a (l' & Hin & Hpk).
  - by apply elem_of_nil in Hin.
  - rewrite lines_effect_cons. apply elem_of_cons in Hin as [->|Hin].
    + apply lines_effect_consistent. unfold line_effect.
      rewrite decide_True by done. reflexivity.
    + apply IH. eauto.
Qed.

Lemma lines_effect_untouched sign pk ls : ∀ a,
  (∀ l, l ∈ ls → account l ≠ pk) → lines_effect sign pk ls a = a.
Proof.
  induction ls as [|l ls IH]; intros a Hno; [done|].
  rewrite lines_effect_cons. unfold line_effect.
  rewrite decide_False by (apply Hno; left).
  apply IH. intros l' Hl'. apply Hno. by right.
Qed.

Lemma stays_in_range_at sign ls db pk a n :
  stays_in_range sign ls db → accounts db !! pk = Some a →
  (n ≤ length ls)%nat →
  account_fits (lines_effect sign pk (take n ls) a) = true.
Proof.
  intros H Ha Hn. specialize (H pk a Ha). rewrite Forall_forall in H.
  apply H, elem_of_seq. lia.
Qed.

Lemma stays_in_range_intro sign ls db :
  (∀ pk a n, accounts db !! pk = Some a → (n ≤ length ls)%nat →
     account_fits (lines_effect sign pk (take n ls) a) = true) →
  stays_in_range sign ls db.
Proof.
  intros H pk a Ha. apply Forall_forall. intros n Hn.
  apply elem_of_seq in Hn. apply (H pk a n Ha). lia.
Qed.

Lemma stays_in_range_start sign ls db :
  stays_in_range sign ls db → ledger_in_range db.
Proof.
  intros H pk a Ha.
  exact (stays_in_range_at sign ls db pk a 0 H Ha (Nat.le_0_l _)).
Qed.

Lemma stays_in_range_nil sign db :
  ledger_in_range db → stays_in_range sign [] db.
Proof.
  intros H. apply stays_in_range_intro. intros pk a n Ha _.
  rewrite take_nil. exact (H pk a Ha).
Qed.

(** The account table after one turn of the loop. *)
Lemma step_lookup sign l (m : gmap Z Account) a pk :
  m !! account l = Some a →
  <[account l := line_effect sign (account l) a l]> m !! pk
  = (λ b, line_effect sign pk b l) <$> m !! pk.
Proof.
  intros Ha. rewrite lookup_insert. case_decide as Hc.
  - subst pk. by rewrite Ha.
  - destruct (m !! pk) as [b|]; [|done].
    cbn [fmap option_fmap option_map]. unfold line_effect.
    by rewrite decide_False.
Qed.

Lemma stays_in_range_cons sign l ls db a :
  accounts db !! account l = Some a →
  stays_in_range sign (l :: ls) db
  ↔ ledger_in_range db
    ∧ stays_in_range sign ls
        (set_accounts (<[account l := line_effect sign (account l) a l]>) db).
Proof.
  intros Ha. split.
  - intros H. split; [by eapply stays_in_range_start|].
    apply stays_in_range_intro. intros pk b1 n Hb1 Hn.
    cbn [set_accounts accounts] in Hb1.
    rewrite (step_lookup sign l _ a pk Ha) in Hb1.
    destruct (accounts db !! pk) as [b|] eqn:Hb; [|discriminate].
    injection Hb1 as <-.
    apply (stays_in_range_at sign (l :: ls) db pk b (S n) H Hb).
    simpl. lia.
  - intros [H0 H]. apply stays_in_range_intro. intros pk b n Hb Hn.
    destruct n as [|n]; [exact (H0 pk b Hb)|].
    cbn [take]. rewrite lines_effect_cons.
    apply (stays_in_range_at sign ls _ pk _ n H); [|simpl in Hn; lia].
    cbn [set_accounts accounts].
    by rewrite (step_lookup sign l _ a pk Ha), Hb.
Qed.

(** One turn of the loop on a line whose account exists: the row is
    written when it fits its columns, and the turn raises otherwise. *)
Lemma apply_line_run sign l db a :
  accounts db !! account l = Some a → account_pk a = account l →
  apply_line sign l db
  = if account_fits (line_effect sign (account l) a l)
    then (set_accounts (<[account l := line_effect sign (account l) a l]>) db,
          Ok tt)
    else (db, Raise DecimalException).
Proof.
  intros Ha Hpk. unfold apply_line, fetch_account, update_balance, Account_save.
  unfold line_effect. rewrite decide_True by done.
  unfold mbind, M_bind. rewrite Ha. unfold with_balances.
  cbn [account_type debit_balance credit_balance account_pk code balance].
  match goal with |- context [account_fits ?x] => destruct (account_fits x) end;
    unfold modify, raise, mret, M_ret; by rewrite ?Hpk.
Qed.

Lemma step_keyed sign l db a :
  accounts_keyed db → accounts db !! account l = Some a →
  accounts_keyed
    (set_accounts (<[account l := line_effect sign (account l) a l]>) db).
Proof.
  intros Hk Ha pk b. cbn [set_accounts accounts].
  rewrite (step_lookup sign l _ a pk Ha).
  destruct (accounts db !! pk) as [b0|] eqn:Hb; [|done].
  intros [= <-]. destruct (line_effect_invariant sign pk b0 l) as (-> & _ & _).
  by apply (Hk pk).
Qed.

(** What the loop of [post] and [reverse] has done when it ends normally:
    it touched the account table only, left under each key the row
    [lines_effect] computes, and every row it wrote fitted its columns. *)
Lemma apply_lines_inv sign ls : ∀ db db',
  accounts_keyed db →
  apply_lines sign ls db = (db', Ok tt) →
  journal_entries db' = journal_entries db
  ∧ journal_lines db' = journal_lines db
  ∧ accounts_keyed db'
  ∧ (∀ pk, accounts db' !! pk = lines_effect sign pk ls <$> accounts db !! pk)
  ∧ (ledger_in_range db → stays_in_range sign ls db).
Proof.
  induction ls as [|l ls IH]; intros db db' Hk Hrun.
  - injection Hrun as <-. repeat split; try done.
    + intros pk. by destruct (accounts db !! pk).
    + apply stays_in_range_nil.
  - cbn [apply_lines] in Hrun. unfold mbind, M_bind in Hrun.
    destruct (accounts db !! account l) as [a|] eqn:Ha.
    2:{ unfold apply_line, fetch_account, mbind, M_bind in Hrun.
        rewrite Ha in Hrun. discriminate. }
    pose proof (Hk _ _ Ha) as Hpk. cbn beta in Hpk.
    rewrite (apply_line_run sign l db a Ha Hpk) in Hrun.
    destruct (account_fits (line_effect sign (account l) a l)) eqn:Hfit;
      [|discriminate].
    pose proof (step_keyed sign l db a Hk Ha) as Hk1.
    destruct (IH _ db' Hk1 Hrun) as (He & Hl & Hk' & Hacc & Hr).
    split; [exact He|]. split; [exact Hl|]. split; [exact Hk'|]. split.
    + intros pk. rewrite Hacc. cbn [set_accounts accounts].
      rewrite (step_lookup sign l _ a pk Ha).
      by destruct (accounts db !! pk).
    + intros H0. apply (stays_in_range_cons sign l ls db a Ha).
      split; [exact H0|]. apply Hr.
      intros pk b. cbn [set_accounts accounts].
      rewrite (step_lookup sign l _ a pk Ha).
      destruct (accounts db !! pk) as [b0|] eqn:Hb; [|done].
      intros [= <-]. unfold line_effect. case_decide as Hc; [|exact (H0 pk b0 Hb)].
      subst pk. rewrite Ha in Hb. injection Hb as <-.
      unfold line_effect in Hfit. by rewrite decide_True in Hfit.
Qed.

(** The loop ends normally when the accounts of its lines exist and the
    table stays within its columns. *)
Lemma apply_lines_ok sign ls : ∀ db,
  accounts_keyed db →
  Forall (λ l, is_Some (accounts db !! account l)) ls →
  stays_in_range sign ls db →
  ∃ db', apply_lines sign ls db = (db', Ok tt).
Proof.
  induction ls as [|l ls IH]; intros db Hk Hfk Hr.
  - by exists db.
  - apply Forall_cons in Hfk as [[a Ha] Hfk].
    pose proof (Hk _ _ Ha) as Hpk. cbn beta in Hpk.
    pose proof (stays_in_range_at sign (l :: ls) db (account l) a 1 Hr Ha) as Hfit.
    cbn [take lines_effect foldl length] in Hfit.
    rewrite take_0 in Hfit. cbn [foldl] in Hfit.
    specialize (Hfit ltac:(lia)).
    apply (stays_in_range_cons sign l ls db a Ha) in Hr as [_ Hr1].
    destruct (IH _ (step_keyed sign l db a Hk Ha)) as [db' Hrun]; [|exact Hr1|].
    { eapply Forall_impl; [exact Hfk|]. intros l0 Hl0. cbn [set_accounts accounts].
      rewrite lookup_insert. case_decide; [eauto | done]. }
    exists db'. cbn [apply_lines]. unfold mbind, M_bind.
    rewrite (apply_line_run sign l db a Ha Hpk), Hfit. exact Hrun.
Qed.

Lemma apply_lines_spec sign ls db :
  accounts_keyed db →
  Forall (λ l, is_Some (accounts db !! account l)) ls →
  stays_in_range sign ls db →
  ∃ db', apply_lines sign ls db = (db', Ok tt)
    ∧ journal_entries db' = journal_entries db
    ∧ journal_lines db' = journal_lines db
    ∧ accounts_keyed db'
    ∧ ∀ pk, accounts db' !! pk = lines_effect sign pk ls <$> accounts db !! pk.
Proof.
  intros Hk Hfk Hr. destruct (apply_lines_ok sign ls db Hk Hfk Hr) as [db' Hrun].
  exists db'. split; [exact Hrun|].
  destruct (apply_lines_inv sign ls db db' Hk Hrun) as (? & ? & ? & ? & _).
  auto.
Qed.



Lemma lines_all_fk e db :
  lines_fk db → Forall (λ l, is_Some (accounts db !! account l)) (lines_all e db).
Proof.
  unfold lines_fk, lines_all. rewrite !Forall_forall.
  intros H l Hl. apply H. by apply list_elem_of_filter in Hl as [_ Hl].
Qed.

Lemma number_taken_with_status e s rows :
  number_taken (with_status e s) rows = number_taken e rows.
Proof. reflexivity. Qed.

(** Writing an entry back under its own key takes no number of another. *)
Lemma number_taken_upsert e e' rows :
  entry_pk e' = entry_pk e →
  number_taken e rows = false →
  number_taken e (upsert_entry e' rows) = false.
Proof.
  intros Hpk. unfold number_taken.
  assert (He' : bool_decide (entry_pk e' ≠ entry_pk e) = false)
    by (apply bool_decide_eq_false_2; tauto).
  induction rows as [|r rows IH]; intros H.
  - simpl. by rewrite He'.
  - cbn [upsert_entry]. cbn [existsb] in H.
    apply orb_false_iff in H as [Hr Hrows].
    destruct (decide (entry_pk r = entry_pk e')); cbn [existsb].
    + by rewrite He', Hrows.
    + rewrite Hr. by apply IH.
Qed.

(** [save] of an entry that has a number no other row carries. *)
Lemma JournalEntry_save_ok e db :
  entry_saved e db →
  JournalEntry_save (e, db) = ((e, set_journal_entries (upsert_entry e) db), Ok tt).
Proof.
  intros [Hnum Hfree]. unfold JournalEntry_save, Model_save_entry. munfold.
  rewrite decide_False by done. simpl. by rewrite Hfree.
Qed.


Lemma post_not_draft e db :
  status e ≠ DRAFT →
  post (e, db) = ((e, db), Raise (ValueError "Only draft entries can be posted")).
Proof. intros H. unfold post. munfold. by rewrite decide_True. Qed.

Lemma post_unbalanced e db :
  status e = DRAFT → ¬ balanced (lines_all e db) →
  post (e, db) = ((e, db), Raise (ValueError "Debits must equal credits")).
Proof.
  intros Hs Hb. unfold post. munfold.
  rewrite decide_False by (rewrite Hs; tauto).
  by rewrite decide_True.
Qed.

Lemma reverse_not_posted e db :
  status e ≠ POSTED →
  reverse (e, db) = ((e, db), Raise (ValueError "Only posted entries can be reversed")).
Proof. intros H. unfold reverse. munfold. by rewrite decide_True. Qed.

(** [post] past its two checks, and [reverse] past its check: the loop,
    then the status and the entry's [save]; a raise of the loop leaves the
    instance as it was and the accounts as the loop left them. *)
Lemma post_run e db :
  status e = DRAFT → balanced (lines_all e db) →
  post (e, db)
  = match apply_lines 1 (lines_all e db) db with
    | (db1, Ok _) => JournalEntry_save (with_status e POSTED, db1)
    | (db1, Raise err) => ((e, db1), Raise err)
    end.
Proof.
  intros Hs Hb. unfold post. munfold.
  rewrite decide_False by (rewrite Hs; tauto).
  rewrite decide_False by (intros H; apply H, Hb).
  cbn [fst snd].
  by destruct (apply_lines 1 (lines_all e db) db) as [db1 [[]|err]].
Qed.

Lemma reverse_run e db :
  status e = POSTED →
  reverse (e, db)
  = match apply_lines (-1) (lines_all e db) db with
    | (db1, Ok _) => JournalEntry_save (with_status e REVERSED, db1)
    | (db1, Raise err) => ((e, db1), Raise err)
    end.
Proof.
  intros Hs. unfold reverse. munfold.
  rewrite decide_False by (rewrite Hs; tauto).
  cbn [fst snd].
  by destruct (apply_lines (-1) (lines_all e db) db) as [db1 [[]|err]].
Qed.

Lemma post_balanced e db :
  db_wf db → entry_saved e db → status e = DRAFT → balanced (lines_all e db) →
  stays_in_range 1 (lines_all e db) db →
  ∃ db', post (e, db) = ((with_status e POSTED, db'), Ok tt)
         ∧ after_lines 1 e POSTED db db'.
Proof.
  intros [Hk Hfk] Hsaved Hs Hb Hr.
  destruct (apply_lines_spec 1 (lines_all e db) db Hk (lines_all_fk e db Hfk) Hr)
    as (db1 & Hrun & He & Hl & Hk1 & Hacc).
  exists (set_journal_entries (upsert_entry (with_status e POSTED)) db1).
  split.
  - rewrite (post_run e db Hs Hb), Hrun.
    apply JournalEntry_save_ok. destruct Hsaved as [Hn Hfree].
    split; [exact Hn|]. rewrite He. exact Hfree.
  - unfold after_lines. simpl. rewrite He, Hl. repeat split; try done.
Qed.

Lemma reverse_posted e db :
  db_wf db → entry_saved e db → status e = POSTED →
  stays_in_range (-1) (lines_all e db) db →
  ∃ db', reverse (e, db) = ((with_status e REVERSED, db'), Ok tt)
         ∧ after_lines (-1) e REVERSED db db'.
Proof.
  intros [Hk Hfk] Hsaved Hs Hr.
  destruct (apply_lines_spec (-1) (lines_all e db) db Hk (lines_all_fk e db Hfk) Hr)
    as (db1 & Hrun & He & Hl & Hk1 & Hacc).
  exists (set_journal_entries (upsert_entry (with_status e REVERSED)) db1).
  split.
  - rewrite (reverse_run e db Hs), Hrun.
    apply JournalEntry_save_ok. destruct Hsaved as [Hn Hfree].
    split; [exact Hn|]. rewrite He. exact Hfree.
  - unfold after_lines. simpl. rewrite He, Hl. repeat split; try done.
Qed.

(** A [post] that ended normally: the entry was a balanced draft, every
    row the loop wrote fitted its columns, and the tables are as
    [after_lines] says. *)
Lemma post_ok_inv e db e' db' :
  accounts_keyed db → entry_saved e db →
  post (e, db) = ((e', db'), Ok tt) →
  status e = DRAFT ∧ balanced (lines_all e db)
  ∧ e' = with_status e POSTED ∧ after_lines 1 e POSTED db db'
  ∧ (ledger_in_range db → stays_in_range 1 (lines_all e db) db).
Proof.
  intros Hk Hsaved Hpost.
  destruct (decide (status e = DRAFT)) as [Hs|Hs];
    [|rewrite (post_not_draft e db Hs) in Hpost; discriminate].
  destruct (decide (balanced (lines_all e db))) as [Hb|Hb];
    [|rewrite (post_unbalanced e db Hs Hb) in Hpost; discriminate].
  rewrite (post_run e db Hs Hb) in Hpost.
  destruct (apply_lines 1 (lines_all e db) db) as [db1 [[]|err]] eqn:Hrun;
    [|discriminate].
  destruct (apply_lines_inv 1 _ db db1 Hk Hrun) as (He & Hl & Hk1 & Hacc & Hr).
  rewrite JournalEntry_save_ok in Hpost.
  2:{ destruct Hsaved as [Hn Hfree]. split; [exact Hn|]. rewrite He. exact Hfree. }
  injection Hpost as <- <-.
  split; [exact Hs|]. split; [exact Hb|]. split; [reflexivity|].
  split; [|exact Hr].
  unfold after_lines. simpl. rewrite He, Hl. repeat split; try done.
Qed.

Lemma reverse_ok_inv e db e' db' :
  accounts_keyed db → entry_saved e db →
  reverse (e, db) = ((e', db'), Ok tt) →
  status e = POSTED
  ∧ e' = with_status e REVERSED ∧ after_lines (-1) e REVERSED db db'
  ∧ (ledger_in_range db → stays_in_range (-1) (lines_all e db) db).
Proof.
  intros Hk Hsaved Hrev.
  destruct (decide (status e = POSTED)) as [Hs|Hs];
    [|rewrite (reverse_not_posted e db Hs) in Hrev; discriminate].
  rewrite (reverse_run e db Hs) in Hrev.
  destruct (apply_lines (-1) (lines_all e db) db) as [db1 [[]|err]] eqn:Hrun;
    [|discriminate].
  destruct (apply_lines_inv (-1) _ db db1 Hk Hrun) as (He & Hl & Hk1 & Hacc & Hr).
  rewrite JournalEntry_save_ok in Hrev.
  2:{ destruct Hsaved as [Hn Hfree]. split; [exact Hn|]. rewrite He. exact Hfree. }
  injection Hrev as <- <-.
  split; [exact Hs|]. split; [reflexivity|].
  split; [|exact Hr].
  unfold after_lines. simpl. rewrite He, Hl. repeat split; try done.
Qed.

(** The tables after a successful [post] are well formed again, and the
    posted entry is a saved one with the lines it had. *)
Lemma after_post_ready e db db1 :
  db_wf db → entry_saved e db → after_lines 1 e POSTED db db1 →
  db_wf db1 ∧ entry_saved (with_status e POSTED) db1
  ∧ lines_all (with_status e POSTED) db1 = lines_all e db.
Proof.
  intros Hwf Hsaved (He1 & Hl1 & Hk1 & Hacc1).
  split; [|split].
  - split; [exact Hk1|]. destruct Hwf as [_ Hfk].
    unfold lines_fk in *. rewrite Hl1.
    eapply Forall_impl; [exact Hfk|]. intros l [a Ha]. rewrite Hacc1, Ha. eauto.
  - destruct Hsaved as [Hn Hfree]. split; [exact Hn|].
    rewrite He1, number_taken_with_status. by apply number_taken_upsert.
  - unfold lines_all. simpl. by rewrite Hl1.
Qed.

(** Decidable side conditions on closed data. *)
Ltac by_compute := apply (bool_decide_unpack _); vm_compute; exact I.

Lemma books_wf : db_wf books.
Proof. split; unfold accounts_keyed, lines_fk; by_compute. Qed.

Lemma books_consistent : ledger_consistent books.
Proof. unfold ledger_consistent; by_compute. Qed.

Lemma books_in_range : ledger_in_range books.
Proof. unfold ledger_in_range; by_compute. Qed.

Lemma rent_entry_saved : entry_saved rent_entry books.
Proof. split; [discriminate | reflexivity]. Qed.

Lemma books_balanced : balanced (lines_all rent_entry books).
Proof. reflexivity. Qed.

Lemma books_stay_in_range :
  stays_in_range 1 (lines_all rent_entry books) books.
Proof. unfold stays_in_range; by_compute. Qed.

Lemma post_books_ok :
  post (rent_entry, books) = ((with_status rent_entry POSTED, books_posted), Ok tt).
Proof. by vm_compute. Qed.

Lemma reverse_books_ok :
  reverse (with_status rent_entry POSTED, books_posted)
  = ((with_status (with_status rent_entry POSTED) REVERSED, books_reversed), Ok tt).
Proof. by vm_compute. Qed.

Example post_books_unbalanced :
  post (rent_entry, books_unbalanced)
  = ((rent_entry, books_unbalanced), Raise (ValueError "Debits must equal credits")).
Proof. reflexivity. Qed.

Example post_books :
  let '((e, db), r) := post (rent_entry, books) in
  r = Ok tt ∧ status e = POSTED
  ∧ accounts db !! 1 = Some (mkAccount 1 "1000" ASSET 75000 150000 75000)
  ∧ accounts db !! 2 = Some (mkAccount 2 "6100" EXPENSE 45000 45000 0)
  ∧ accounts db !! 3 = Some sales.
Proof. vm_compute. auto. Qed.

(** C1, as amended. For a draft entry whose lines keep every account row
    within its [DecimalField(15, 2)] columns, [post] succeeds exactly when
    the debit and the credit totals of its lines agree; in general a
    successful [post] means that the totals agree and that the rows stayed
    within their columns. When the totals differ, [post] raises and leaves
    the instance and the whole database as they were: no account moves and
    the status stays [DRAFT]. On an entry that is not a draft, [post]
    raises as well, again without any change. *)
Theorem post_zero_sum (e : JournalEntry) (db : DB)
    (Hwf : db_wf db) (Hsaved : entry_saved e db)
    (Hrange : ledger_in_range db) :
  (status e = DRAFT →
     (stays_in_range 1 (lines_all e db) db →
        (is_ok (snd (post (e, db))) = true
           ↔ total_debits (lines_all e db) = total_credits (lines_all e db)))
     ∧ (is_ok (snd (post (e, db))) = true →
          total_debits (lines_all e db) = total_credits (lines_all e db)
          ∧ stays_in_range 1 (lines_all e db) db)
     ∧ (total_debits (lines_all e db) ≠ total_credits (lines_all e db) →
          ∃ msg, post (e, db) = ((e, db), Raise (ValueError msg))))
  ∧ (status e ≠ DRAFT →
       ∃ msg, post (e, db) = ((e, db), Raise (ValueError msg))).
Proof.
  assert (Hinv : is_ok (snd (post (e, db))) = true →
            total_debits (lines_all e db) = total_credits (lines_all e db)
            ∧ stays_in_range 1 (lines_all e db) db).
  { intros Hok.
    destruct (post (e, db)) as [[e' db'] [[]|err]] eqn:Hpost; [|discriminate].
    destruct (post_ok_inv e db e' db' (proj1 Hwf) Hsaved Hpost)
      as (_ & Hb & _ & _ & Hr).
    split; [exact Hb | exact (Hr Hrange)]. }
  split.
  - intros Hs. split; [|split].
    + intros Hr. split; [intros Hok; apply (Hinv Hok)|].
      intros Hb. destruct (post_balanced e db Hwf Hsaved Hs Hb Hr) as (db' & -> & _).
      reflexivity.
    + exact Hinv.
    + intros Hne. eexists. by apply post_unbalanced.
  - intros Hs. eexists. by apply post_not_draft.
Qed.

Lemma post_zero_sum_witness :
  db_wf books ∧ entry_saved rent_entry books ∧ ledger_in_range books
  ∧ stays_in_range 1 (lines_all rent_entry books) books
  ∧ (is_ok (snd (post (rent_entry, books))) = true
       ↔ total_debits (lines_all rent_entry books)
         = total_credits (lines_all rent_entry books)).
Proof.
  split; [exact books_wf|]. split; [exact rent_entry_saved|].
  split; [exact books_in_range|]. split; [exact books_stay_in_range|].
  apply (post_zero_sum rent_entry books books_wf rent_entry_saved books_in_range);
    [reflexivity | exact books_stay_in_range].
Defined.

Lemma books_at_limit_wf : db_wf books_at_limit.
Proof. split; unfold accounts_keyed, lines_fk; by_compute. Qed.

Lemma books_at_limit_in_range : ledger_in_range books_at_limit.
Proof. unfold ledger_in_range; by_compute. Qed.

(** C1 as it was stated fails at the top of the columns. The reserve
    account holds 9999999999999.99 and the draft moves 0.01 into it from
    cash: the totals of the two lines agree, yet [post] raises, because the
    reserve row would leave its columns. The cash row, whose line came
    first, is already written, and the entry is still a draft. *)
Lemma post_zero_sum_fails_at_limit :
  status top_up_entry = DRAFT
  ∧ db_wf books_at_limit ∧ entry_saved top_up_entry books_at_limit
  ∧ ledger_in_range books_at_limit
  ∧ total_debits (lines_all top_up_entry books_at_limit)
    = total_credits (lines_all top_up_entry books_at_limit)
  ∧ is_ok (snd (post (top_up_entry, books_at_limit))) = false
  ∧ snd (post (top_up_entry, books_at_limit)) = Raise DecimalException
  ∧ status (fst (fst (post (top_up_entry, books_at_limit)))) = DRAFT
  ∧ journal_entries (snd (fst (post (top_up_entry, books_at_limit))))
    = [top_up_entry]
  ∧ accounts books_at_limit !! 1 = Some (mkAccount 1 "1000" ASSET 120000 150000 30000)
  ∧ accounts (snd (fst (post (top_up_entry, books_at_limit)))) !! 1
    = Some (mkAccount 1 "1000" ASSET 119999 150000 30001)
  ∧ accounts (snd (fst (post (top_up_entry, books_at_limit)))) !! 4
    = Some reserve.
Proof.
  split; [reflexivity|]. split; [exact books_at_limit_wf|].
  split; [split; [discriminate | reflexivity]|].
  split; [exact books_at_limit_in_range|].
  vm_compute. repeat split.
Qed.

Lemma account_eta (a b : Account) :
  account_pk a = account_pk b → code a = code b →
  account_type a = account_type b → balance a = balance b →
  debit_balance a = debit_balance b → credit_balance a = credit_balance b →
  a = b.
Proof. destruct a, b; simpl; congruence. Qed.

(** Undoing with [sign = -1] what the loop did with [sign = 1]. *)
Lemma lines_effect_inverse pk ls a :
  account_consistent a →
  lines_effect (-1) pk ls (lines_effect 1 pk ls a) = a.
Proof.
  intros Ha.
  destruct (decide (Exists (λ l, account l = pk) ls)) as [Hex|Hno].
  - apply Exists_exists in Hex.
    pose proof (lines_effect_touched (-1) pk ls (lines_effect 1 pk ls a) Hex) as Hc.
    destruct (lines_effect_invariant (-1) pk ls (lines_effect 1 pk ls a)) as (Hp & Hcd & Ht).
    destruct (lines_effect_invariant 1 pk ls a) as (Hp1 & Hcd1 & Ht1).
    destruct (lines_effect_totals (-1) pk ls (lines_effect 1 pk ls a)) as [Hd Hcr].
    destruct (lines_effect_totals 1 pk ls a) as [Hd1 Hcr1].
    assert (Hd' : debit_balance (lines_effect (-1) pk ls (lines_effect 1 pk ls a))
                  = debit_balance a) by lia.
    assert (Hcr' : credit_balance (lines_effect (-1) pk ls (lines_effect 1 pk ls a))
                   = credit_balance a) by lia.
    unfold account_consistent in *.
    apply account_eta; congruence.
  - assert (Hn : ∀ l, l ∈ ls → account l ≠ pk).
    { intros l Hl Hpk. apply Hno, Exists_exists. eauto. }
    by rewrite !lines_effect_untouched.
Qed.

(** Without any assumption on the stored balances: after a post and its
    reversal that both ended normally every account has its debit and
    credit totals back, and its balance is the type formula over them when
    a line touched it. *)
Lemma post_then_reverse_totals (e : JournalEntry) (db : DB) e1 db1 e2 db2 :
  db_wf db → entry_saved e db →
  post (e, db) = ((e1, db1), Ok tt) →
  reverse (e1, db1) = ((e2, db2), Ok tt) →
  ∀ pk a, accounts db !! pk = Some a →
    ∃ a2, accounts db2 !! pk = Some a2
          ∧ debit_balance a2 = debit_balance a
          ∧ credit_balance a2 = credit_balance a
          ∧ ((∃ l, l ∈ lines_all e db ∧ account l = pk) → account_consistent a2)
          ∧ ((∀ l, l ∈ lines_all e db → account l ≠ pk) → a2 = a).
Proof.
  intros Hwf Hsaved Hpost Hrev.
  destruct (post_ok_inv e db e1 db1 (proj1 Hwf) Hsaved Hpost)
    as (_ & _ & -> & Hafter1 & _).
  destruct (after_post_ready e db db1 Hwf Hsaved Hafter1) as (Hwf1 & Hsaved1 & Hlines).
  destruct (reverse_ok_inv _ db1 e2 db2 (proj1 Hwf1) Hsaved1 Hrev)
    as (_ & _ & (_ & _ & _ & Hacc2) & _).
  destruct Hafter1 as (_ & _ & _ & Hacc1).
  intros pk a Ha. rewrite Hlines in Hacc2.
  exists (lines_effect (-1) pk (lines_all e db)
            (lines_effect 1 pk (lines_all e db) a)).
  split; [by rewrite Hacc2, Hacc1, Ha|].
  rewrite !(proj1 (lines_effect_totals _ _ _ _)),
          !(proj2 (lines_effect_totals _ _ _ _)).
  split; [lia|]. split; [lia|]. split.
  - apply lines_effect_touched.
  - intros Hno. by rewrite !lines_effect_untouched.
Qed.

(** C2, as amended. A balanced draft entry is posted and then reversed.
    Whenever both calls end normally, the entry ends [REVERSED] and the
    account table is what it was before the posting, row by row (debit
    total, credit total and balance), given that the rows satisfied the
    balance formula of the data model. [post] ends normally when its loop
    keeps the rows within their [DecimalField(15, 2)] columns, and so does
    the [reverse] that follows. [reverse] on an entry that is not [POSTED]
    raises and changes nothing. *)
Theorem post_then_reverse_restores (e : JournalEntry) (db : DB)
    (Hwf : db_wf db) (Hsaved : entry_saved e db)
    (Hdraft : status e = DRAFT) (Hbal : balanced (lines_all e db))
    (Hcons : ledger_consistent db) :
  (∀ e1 db1 e2 db2,
      post (e, db) = ((e1, db1), Ok tt) →
      reverse (e1, db1) = ((e2, db2), Ok tt) →
      status e2 = REVERSED
      ∧ (∀ l a, l ∈ lines_all e db → accounts db !! account l = Some a →
           ∃ a2, accounts db2 !! account l = Some a2
                 ∧ debit_balance a2 = debit_balance a
                 ∧ credit_balance a2 = credit_balance a
                 ∧ balance a2 = balance a)
      ∧ accounts db2 = accounts db)
  ∧ (stays_in_range 1 (lines_all e db) db →
       ∃ e1 db1, post (e, db) = ((e1, db1), Ok tt)
         ∧ (stays_in_range (-1) (lines_all e db) db1 →
              ∃ e2 db2, reverse (e1, db1) = ((e2, db2), Ok tt)))
  ∧ (∀ e' db', status e' ≠ POSTED →
       ∃ msg, reverse (e', db') = ((e', db'), Raise (ValueError msg))).
Proof.
  split; [|split; [|intros e' db' Hs; eexists; by apply reverse_not_posted]].
  - intros e1 db1 e2 db2 Hpost Hrev.
    destruct (post_ok_inv e db e1 db1 (proj1 Hwf) Hsaved Hpost)
      as (_ & _ & -> & Hafter1 & _).
    destruct (after_post_ready e db db1 Hwf Hsaved Hafter1)
      as (Hwf1 & Hsaved1 & Hlines).
    destruct (reverse_ok_inv _ db1 e2 db2 (proj1 Hwf1) Hsaved1 Hrev)
      as (_ & -> & (_ & _ & _ & Hacc2) & _).
    destruct Hafter1 as (_ & _ & _ & Hacc1).
    assert (Heq : accounts db2 = accounts db).
    { apply map_eq. intros pk. rewrite Hacc2, Hlines, Hacc1.
      destruct (accounts db !! pk) as [a|] eqn:Ha; [|done].
      cbn [fmap option_fmap option_map]. f_equal.
      apply lines_effect_inverse. exact (Hcons pk a Ha). }
    split; [reflexivity|]. split; [|exact Heq].
    intros l a _ Ha. exists a. by rewrite Heq.
  - intros Hr.
    destruct (post_balanced e db Hwf Hsaved Hdraft Hbal Hr) as (db1 & Hpost & Hafter1).
    exists (with_status e POSTED), db1. split; [exact Hpost|].
    intros Hr1.
    destruct (after_post_ready e db db1 Hwf Hsaved Hafter1)
      as (Hwf1 & Hsaved1 & Hlines).
    rewrite <- Hlines in Hr1.
    destruct (reverse_posted _ db1 Hwf1 Hsaved1 eq_refl Hr1) as (db2 & Hrev & _).
    eauto.
Qed.

Lemma post_then_reverse_restores_witness :
  db_wf books ∧ entry_saved rent_entry books ∧ status rent_entry = DRAFT
  ∧ balanced (lines_all rent_entry books) ∧ ledger_consistent books
  ∧ ∃ e1 db1 e2 db2,
      post (rent_entry, books) = ((e1, db1), Ok tt)
      ∧ reverse (e1, db1) = ((e2, db2), Ok tt)
      ∧ status e2 = REVERSED
      ∧ accounts db2 = accounts books.
Proof.
  split; [exact books_wf|]. split; [exact rent_entry_saved|].
  split; [reflexivity|]. split; [exact books_balanced|].
  split; [exact books_consistent|].
  destruct (post_then_reverse_restores rent_entry books books_wf rent_entry_saved
              eq_refl books_balanced books_consistent)
    as (Hrestore & Hruns & _).
  destruct (Hruns books_stay_in_range) as (e1 & db1 & Hpost & Hrev).
  assert (Hr1 : stays_in_range (-1) (lines_all rent_entry books) db1).
  { pose proof Hpost as Hp. vm_compute in Hp. injection Hp as _ <-.
    unfold stays_in_range. by_compute. }
  destruct (Hrev Hr1) as (e2 & db2 & Hrev2).
  destruct (Hrestore e1 db1 e2 db2 Hpost Hrev2) as (Hst & _ & Hacc).
  exists e1, db1, e2, db2. auto.
Defined.

(** C2 as it was stated fails in two ways. At the top of the columns the
    balanced draft that moves 0.01 into the reserve account is not posted,
    so there is nothing to reverse: [post] raises with the cash row already
    written and the entry still a draft, and [reverse] on that draft raises
    too. And where a stored balance disagrees with its totals, [post] and
    [reverse] both succeed and bring the totals back, but the balance of the
    cash account, 1.00 before, is 1200.00 afterwards. *)
Lemma post_then_reverse_fails :
  (status top_up_entry = DRAFT
   ∧ db_wf books_at_limit ∧ entry_saved top_up_entry books_at_limit
   ∧ balanced (lines_all top_up_entry books_at_limit)
   ∧ ledger_consistent books_at_limit
   ∧ snd (post (top_up_entry, books_at_limit)) = Raise DecimalException
   ∧ snd (reverse (fst (post (top_up_entry, books_at_limit))))
     = Raise (ValueError "Only posted entries can be reversed")
   ∧ status (fst (fst (reverse (fst (post (top_up_entry, books_at_limit))))))
     = DRAFT
   ∧ accounts books_at_limit !! 1
     = Some (mkAccount 1 "1000" ASSET 120000 150000 30000)
   ∧ accounts (snd (fst (reverse (fst (post (top_up_entry, books_at_limit)))))) !! 1
     = Some (mkAccount 1 "1000" ASSET 119999 150000 30001))
  ∧ (status rent_entry = DRAFT
     ∧ db_wf books_off_formula ∧ entry_saved rent_entry books_off_formula
     ∧ balanced (lines_all rent_entry books_off_formula)
     ∧ snd (post (rent_entry, books_off_formula)) = Ok tt
     ∧ snd (reverse (fst (post (rent_entry, books_off_formula)))) = Ok tt
     ∧ status (fst (fst (reverse (fst (post (rent_entry, books_off_formula))))))
       = REVERSED
     ∧ accounts books_off_formula !! 1
       = Some (mkAccount 1 "1000" ASSET 100 150000 30000)
     ∧ accounts (snd (fst (reverse (fst (post (rent_entry, books_off_formula)))))) !! 1
       = Some (mkAccount 1 "1000" ASSET 120000 150000 30000)).
Proof.
  split.
  - split; [reflexivity|]. split; [exact books_at_limit_wf|].
    split; [split; [discriminate | reflexivity]|].
    split; [reflexivity|].
    split; [unfold ledger_consistent; by_compute|].
    vm_compute. repeat split.
  - split; [reflexivity|].
    split; [split; unfold accounts_keyed, lines_fk; by_compute|].
    split; [split; [discriminate | reflexivity]|].
    split; [reflexivity|].
    vm_compute. repeat split.
Qed.












(** ** Lines created while the entry is a draft *)

Lemma filter_all {A} (P : A → Prop) `{∀ x, Decision (P x)} (l : list A) :
  Forall P l → filter P l = l.
Proof.
  induction 1 as [|x l Hx _ IH]; [done|].
  rewrite filter_cons, decide_True by done. by rewrite IH.
Qed.

Lemma heap_no_alias_pks (heap heap' : Heap) :
  (∀ loc, account_pk <$> heap' !! loc = account_pk <$> heap !! loc) →
  heap_no_alias heap → heap_no_alias heap'.
Proof.
  intros Hpk Hna i oi Hi j oj Hj Heq.
  pose proof (Hpk i) as Hi'. pose proof (Hpk j) as Hj'.
  rewrite Hi in Hi'. rewrite Hj in Hj'.
  destruct (heap !! i) as [oi0|] eqn:Hi0; [|discriminate].
  destruct (heap !! j) as [oj0|] eqn:Hj0; [|discriminate].
  simpl in Hi', Hj'. apply (Hna i oi0 Hi0 j oj0 Hj0). congruence.
Qed.

Lemma new_row_pks je (heap heap' : Heap) nl :
  (∀ loc, account_pk <$> heap' !! loc = account_pk <$> heap !! loc) →
  new_row je heap' nl = new_row je heap nl.
Proof.
  intros Hpk. unfold new_row. f_equal.
  specialize (Hpk (nl_account nl)).
  destruct (heap' !! nl_account nl), (heap !! nl_account nl);
    simpl in *; congruence.
Qed.

(** The save of a new line: the row is inserted, then the instance is
    written when it fits its columns; the call raises otherwise, with the
    line row stored. *)
Lemma JournalEntryLine_save_run l db :
  JournalEntryLine_save l db
  = let db0 := set_journal_lines (λ rows, rows ++ [row_of_line l]) db in
    if account_fits (account_after_save l)
    then (set_accounts (<[account_pk (lo_account l) := account_after_save l]>) db0,
          Ok (account_after_save l))
    else (db0, Raise DecimalException).
Proof.
  unfold JournalEntryLine_save, update_balance, Account_save, account_after_save.
  unfold mbind, M_bind, modify, mret, M_ret, raise, with_balances.
  cbn [account_type debit_balance credit_balance account_pk code balance].
  by match goal with |- context [account_fits ?x] => destruct (account_fits x) end.
Qed.

(** One line created from the instance bound to its name. *)
Lemma create_line_run je nl (heap : Heap) db inst :
  heap !! nl_account nl = Some inst →
  create_line je nl (heap, db)
  = let l := mkLineObj je inst (nl_debit_amount nl) (nl_credit_amount nl) in
    let db0 := set_journal_lines (λ rows, rows ++ [row_of_line l]) db in
    let heap1 := <[nl_account nl := account_after_save l]> heap in
    if account_fits (account_after_save l)
    then ((heap1, set_accounts (<[account_pk inst := account_after_save l]>) db0),
          Ok tt)
    else ((heap1, db0), Raise DecimalException).
Proof.
  intros Hinst. unfold create_line. munfold. rewrite Hinst.
  cbn zeta. rewrite JournalEntryLine_save_run. cbn zeta.
  by destruct (account_fits _).
Qed.

Lemma stays_in_range_accounts sign ls db db' :
  accounts db' = accounts db →
  stays_in_range sign ls db → stays_in_range sign ls db'.
Proof. unfold stays_in_range. by intros ->. Qed.

(** The instance a line is created from, when it shows its row: what
    [save] makes of it is what one turn of the loop of [post] makes of
    the row. *)
Lemma account_after_save_effect je (heap : Heap) nl inst :
  heap !! nl_account nl = Some inst →
  account_after_save (mkLineObj je inst (nl_debit_amount nl) (nl_credit_amount nl))
  = line_effect 1 (account_pk inst) inst (new_row je heap nl)
  ∧ account (new_row je heap nl) = account_pk inst.
Proof.
  intros Hinst. unfold new_row, account_after_save, line_effect.
  rewrite Hinst. cbn. rewrite decide_True by done.
  by rewrite !Z.mul_1_l.
Qed.

(** With instances in step with their rows and no two instances for one
    row, creating lines acts on the account table exactly as the loop of
    [post] does over the same rows. *)
Lemma create_lines_inv je nls : ∀ (heap : Heap) db heap' db',
  heap_synced heap db → heap_no_alias heap →
  create_lines je nls (heap, db) = ((heap', db'), Ok tt) →
  journal_entries db' = journal_entries db
  ∧ journal_lines db' = journal_lines db ++ (new_row je heap <$> nls)
  ∧ (∀ loc, account_pk <$> heap' !! loc = account_pk <$> heap !! loc)
  ∧ (∀ pk, accounts db' !! pk
           = lines_effect 1 pk (new_row je heap <$> nls) <$> accounts db !! pk)
  ∧ heap_bound heap nls
  ∧ (ledger_in_range db → stays_in_range 1 (new_row je heap <$> nls) db).
Proof.
  induction nls as [|nl nls IH]; intros heap db heap' db' Hsync Hna Hrun.
  - injection Hrun as <- <-.
    split; [done|]. split; [by rewrite app_nil_r|]. split; [done|].
    split; [intros pk; by destruct (accounts db !! pk)|].
    split; [apply Forall_nil_2 | apply stays_in_range_nil].
  - cbn [create_lines] in Hrun. unfold mbind, M_bind in Hrun.
    destruct (heap !! nl_account nl) as [inst|] eqn:Hinst.
    2:{ unfold create_line in Hrun. munfold. rewrite Hinst in Hrun. discriminate. }
    rewrite (create_line_run je nl heap db inst Hinst) in Hrun. cbn zeta in Hrun.
    destruct (account_after_save_effect je heap nl inst Hinst) as [Heff Hrowpk].
    set (row := new_row je heap nl) in *.
    pose proof (Hsync _ _ Hinst) as Hrow. cbn beta in Hrow.
    rewrite Heff in Hrun.
    destruct (account_fits (line_effect 1 (account_pk inst) inst row)) eqn:Hfit;
      [|discriminate].
    set (inst' := line_effect 1 (account_pk inst) inst row) in *.
    set (heap1 := <[nl_account nl := inst']> heap) in *.
    match type of Hrun with create_lines _ _ (_, ?d) = _ => set (db1 := d) in * end.
    assert (Hpk' : account_pk inst' = account_pk inst).
    { unfold inst'. by destruct (line_effect_invariant 1 (account_pk inst) inst row)
        as (-> & _ & _). }
    assert (Hpks : ∀ loc, account_pk <$> heap1 !! loc = account_pk <$> heap !! loc).
    { intros loc. unfold heap1. rewrite lookup_insert. case_decide; [|done].
      subst loc. rewrite Hinst. cbn. by rewrite Hpk'. }
    assert (Hsync1 : heap_synced heap1 db1).
    { intros i o Hi. unfold heap1 in Hi. rewrite lookup_insert in Hi.
      unfold db1, set_accounts. cbn [accounts]. rewrite lookup_insert.
      case_decide as Hc.
      - injection Hi as <-. rewrite Hpk'. by rewrite decide_True.
      - case_decide as Hc'; [|by apply (Hsync i o)].
        exfalso. apply Hc. symmetry.
        apply (Hna i o Hi (nl_account nl) inst Hinst). congruence. }
    assert (Hna1 : heap_no_alias heap1) by (by apply (heap_no_alias_pks heap)).
    destruct (IH heap1 db1 heap' db' Hsync1 Hna1 Hrun)
      as (He & Hl & Hpk1 & Hacc & Hbound & Hr).
    assert (Hrows : new_row je heap1 <$> nls = new_row je heap <$> nls).
    { apply list_fmap_ext. intros i nl0 _. by apply new_row_pks. }
    rewrite Hrows in Hl, Hacc, Hr.
    assert (Hacc1 : accounts db1
                    = <[account row := line_effect 1 (account row) inst row]>
                        (accounts db)).
    { unfold db1. cbn [set_accounts set_journal_lines accounts].
      by rewrite Hrowpk. }
    assert (Hrow' : accounts db !! account row = Some inst) by (by rewrite Hrowpk).
    split; [exact He|]. split; [|split; [|split; [|split]]].
    + rewrite Hl, fmap_cons. unfold db1, set_accounts, set_journal_lines.
      cbn [journal_lines]. rewrite <- app_assoc. do 2 f_equal.
      unfold row_of_line, row, new_row. by rewrite Hinst.
    + intros loc. by rewrite Hpk1, Hpks.
    + intros pk. rewrite Hacc, fmap_cons, Hacc1.
      rewrite (step_lookup 1 row _ inst pk Hrow').
      by destruct (accounts db !! pk).
    + apply Forall_cons. split; [eauto|].
      eapply Forall_impl; [exact Hbound|]. intros nl0 Hnl0. unfold heap1 in Hnl0.
      rewrite lookup_insert in Hnl0. case_decide as Hc; [|done].
      rewrite <- Hc. eauto.
    + intros H0. rewrite fmap_cons.
      apply (stays_in_range_cons 1 row _ db inst Hrow').
      split; [exact H0|].
      apply (stays_in_range_accounts 1 _ db1); [by rewrite Hacc1|].
      apply Hr. intros pk b. rewrite Hacc1.
      rewrite (step_lookup 1 row _ inst pk Hrow').
      destruct (accounts db !! pk) as [b0|] eqn:Hb; [|done].
      intros [= <-]. unfold line_effect. case_decide as Hc; [|exact (H0 pk b0 Hb)].
      subst pk. rewrite Hrow' in Hb. injection Hb as <-.
      unfold inst', line_effect in Hfit.
      rewrite decide_True in Hfit by exact Hrowpk. exact Hfit.
Qed.

Lemma create_lines_ok je nls : ∀ (heap : Heap) db,
  heap_synced heap db → heap_no_alias heap → heap_bound heap nls →
  stays_in_range 1 (new_row je heap <$> nls) db →
  ∃ heap' db', create_lines je nls (heap, db) = ((heap', db'), Ok tt).
Proof.
  induction nls as [|nl nls IH]; intros heap db Hsync Hna Hbound Hr.
  - by exists heap, db.
  - apply Forall_cons in Hbound as [[inst Hinst] Hbound].
    destruct (account_after_save_effect je heap nl inst Hinst) as [Heff Hrowpk].
    rewrite fmap_cons in Hr.
    set (row := new_row je heap nl) in *.
    pose proof (Hsync _ _ Hinst) as Hrow. cbn beta in Hrow.
    assert (Hrow' : accounts db !! account row = Some inst) by (by rewrite Hrowpk).
    pose proof (stays_in_range_at 1 _ db (account row) inst 1 Hr Hrow') as Hfit.
    cbn [take lines_effect foldl length] in Hfit. rewrite take_0 in Hfit.
    cbn [foldl] in Hfit. specialize (Hfit ltac:(lia)).
    apply (stays_in_range_cons 1 row _ db inst Hrow') in Hr as [_ Hr1].
    set (inst' := line_effect 1 (account row) inst row) in *.
    set (heap1 := <[nl_account nl := inst']> heap).
    set (db1 := set_accounts (<[account row := inst']>)
                  (set_journal_lines (λ rows, rows ++ [row]) db)).
    assert (Hpk' : account_pk inst' = account_pk inst).
    { unfold inst'. by destruct (line_effect_invariant 1 (account row) inst row)
        as (-> & _ & _). }
    assert (Hpks : ∀ loc, account_pk <$> heap1 !! loc = account_pk <$> heap !! loc).
    { intros loc. unfold heap1. rewrite lookup_insert. case_decide; [|done].
      subst loc. rewrite Hinst. cbn. by rewrite Hpk'. }
    assert (Hsync1 : heap_synced heap1 db1).
    { intros i o Hi. unfold heap1 in Hi. rewrite lookup_insert in Hi.
      unfold db1, set_accounts. cbn [accounts]. rewrite lookup_insert.
      case_decide as Hc.
      - injection Hi as <-. rewrite Hpk', Hrowpk. by rewrite decide_True.
      - rewrite Hrowpk. case_decide as Hc'; [|by apply (Hsync i o)].
        exfalso. apply Hc. symmetry.
        apply (Hna i o Hi (nl_account nl) inst Hinst). congruence. }
    assert (Hna1 : heap_no_alias heap1) by (by apply (heap_no_alias_pks heap)).
    assert (Hbound1 : heap_bound heap1 nls).
    { eapply Forall_impl; [exact Hbound|]. intros nl0 Hnl0. unfold heap1.
      rewrite lookup_insert. case_decide; [eauto | done]. }
    assert (Hrows : new_row je heap1 <$> nls = new_row je heap <$> nls).
    { apply list_fmap_ext. intros i nl0 _. by apply new_row_pks. }
    destruct (IH heap1 db1 Hsync1 Hna1 Hbound1) as (heap' & db' & Hrun).
    { rewrite Hrows. by apply (stays_in_range_accounts 1 _ _ db1) in Hr1. }
    exists heap', db'. cbn [create_lines]. unfold mbind, M_bind.
    rewrite (create_line_run je nl heap db inst Hinst). cbn zeta.
    rewrite Heff, <- Hrowpk. fold inst'. rewrite Hfit.
    replace (row_of_line _) with row; [exact Hrun|].
    unfold row_of_line, row, new_row. by rewrite Hinst.
Qed.

Lemma create_lines_spec je nls (heap : Heap) db :
  heap_synced heap db → heap_no_alias heap → heap_bound heap nls →
  stays_in_range 1 (new_row je heap <$> nls) db →
  ∃ heap' db',
    create_lines je nls (heap, db) = ((heap', db'), Ok tt)
    ∧ journal_entries db' = journal_entries db
    ∧ journal_lines db' = journal_lines db ++ (new_row je heap <$> nls)
    ∧ (∀ loc, account_pk <$> heap' !! loc = account_pk <$> heap !! loc)
    ∧ (∀ pk, accounts db' !! pk
             = lines_effect 1 pk (new_row je heap <$> nls) <$> accounts db !! pk).
Proof.
  intros Hsync Hna Hbound Hr.
  destruct (create_lines_ok je nls heap db Hsync Hna Hbound Hr)
    as (heap' & db' & Hrun).
  exists heap', db'. split; [exact Hrun|].
  destruct (create_lines_inv je nls heap db heap' db' Hsync Hna Hrun)
    as (? & ? & ? & ? & _). auto.
Qed.

(** The rows created for the object [loc] are those the account of [loc]
    receives. *)
Lemma line_totals_new je (heap : Heap) loc o nls :
  heap_no_alias heap → heap_bound heap nls → heap !! loc = Some o →
  line_debits (account_pk o) (new_row je heap <$> nls) = new_debits loc nls
  ∧ line_credits (account_pk o) (new_row je heap <$> nls) = new_credits loc nls.
Proof.
  intros Hna Hbound Ho.
  induction nls as [|nl nls IH].
  - unfold line_debits, line_credits, new_debits, new_credits,
      total_debits, total_credits. by rewrite !filter_nil.
  - apply Forall_cons in Hbound as [[o' Ho'] Hbound].
    destruct (IH Hbound) as [IHd IHc].
    assert (Hrow : account (new_row je heap nl) = account_pk o')
      by (unfold new_row; by rewrite Ho').
    rewrite fmap_cons, line_debits_cons, line_credits_cons, IHd, IHc, Hrow.
    unfold new_debits, new_credits. rewrite !filter_cons.
    change (debit_amount (new_row je heap nl)) with (nl_debit_amount nl).
    change (credit_amount (new_row je heap nl)) with (nl_credit_amount nl).
    destruct (decide (nl_account nl = loc)) as [Heq|Hne].
    + subst loc. rewrite Ho in Ho'. injection Ho' as <-.
      rewrite !decide_True by done. split; reflexivity.
    + assert (Hpk : account_pk o' ≠ account_pk o).
      { intros Hpk. apply Hne. by apply (Hna _ _ Ho' _ _ Ho). }
      rewrite !decide_False by done. split; reflexivity.
Qed.

(** The tables after the lines of an entry without lines were created:
    well formed, and the lines of the entry are the new rows. *)
Lemma after_create_ready e nls (heap : Heap) db db1 :
  db_wf db → entry_saved e db → lines_all e db = [] →
  heap_synced heap db → heap_bound heap nls →
  journal_entries db1 = journal_entries db →
  journal_lines db1
    = journal_lines db ++ (new_row (entry_pk e) heap <$> nls) →
  (∀ pk, accounts db1 !! pk
         = lines_effect 1 pk (new_row (entry_pk e) heap <$> nls)
             <$> accounts db !! pk) →
  db_wf db1 ∧ entry_saved e db1
  ∧ lines_all e db1 = new_row (entry_pk e) heap <$> nls.
Proof.
  intros [Hk Hfk] Hsaved Hnone Hsync Hbound He1 Hl1 Hacc1.
  set (rows := new_row (entry_pk e) heap <$> nls) in *.
  split; [split|split].
  - intros pk b. rewrite Hacc1.
    destruct (accounts db !! pk) as [a|] eqn:Ha; [|done].
    intros [= <-].
    destruct (lines_effect_invariant 1 pk rows a) as (-> & _ & _).
    by apply (Hk pk).
  - unfold lines_fk in *. rewrite Hl1. apply Forall_app. split.
    + eapply Forall_impl; [exact Hfk|]. intros l [a Ha]. rewrite Hacc1, Ha. eauto.
    + unfold rows. apply Forall_fmap.
      eapply Forall_impl; [exact Hbound|]. intros nl [o Ho]. simpl.
      unfold new_row. rewrite Ho. simpl.
      rewrite Hacc1, (Hsync _ _ Ho). eauto.
  - destruct Hsaved as [Hn Hfree]. split; [exact Hn|]. by rewrite He1.
  - unfold lines_all in *. rewrite Hl1, filter_app, Hnone. simpl.
    unfold rows. apply filter_all, Forall_fmap, Forall_true.
    intros nl. reflexivity.
Qed.

Lemma stays_in_range_app sign ls1 ls2 db db1 :
  (∀ pk, accounts db1 !! pk = lines_effect sign pk ls1 <$> accounts db !! pk) →
  stays_in_range sign (ls1 ++ ls2) db →
  stays_in_range sign ls1 db ∧ stays_in_range sign ls2 db1.
Proof.
  intros Hacc H. split.
  - apply stays_in_range_intro. intros pk a n Ha Hn.
    pose proof (stays_in_range_at sign _ db pk a n H Ha) as Hfit.
    rewrite take_app_le in Hfit by exact Hn. apply Hfit.
    rewrite length_app. lia.
  - apply stays_in_range_intro. intros pk a1 n Ha1 Hn.
    rewrite Hacc in Ha1.
    destruct (accounts db !! pk) as [a|] eqn:Ha; [|discriminate].
    injection Ha1 as <-.
    pose proof (stays_in_range_at sign _ db pk a (length ls1 + n) H Ha) as Hfit.
    rewrite take_app_add in Hfit. unfold lines_effect in *.
    rewrite foldl_app in Hfit. apply Hfit. rewrite length_app. lia.
Qed.

(** Saving a line, whatever the status of its entry, stores the
    instance with the line amounts added when it fits its columns; the
    entry table is not read. *)
Lemma line_save_adds (l : LineObj) (db : DB) :
  account_fits (account_after_save l) = true →
  let '(db', _) := JournalEntryLine_save l db in
  journal_entries db' = journal_entries db
  ∧ ∃ a', accounts db' !! account_pk (lo_account l) = Some a'
          ∧ debit_balance a' = debit_balance (lo_account l) + lo_debit_amount l
          ∧ credit_balance a' = credit_balance (lo_account l) + lo_credit_amount l.
Proof.
  intros Hfit. rewrite JournalEntryLine_save_run. cbn zeta. rewrite Hfit.
  split; [reflexivity|]. eexists. cbn [set_accounts accounts].
  rewrite lookup_insert_eq. eauto.
Qed.

(** C3 fails on the code: saving one line of a draft entry already moves
    the balances of the line's account. The rent entry is a draft with no
    line; after the save of its debit line the entry is still a draft, and
    the rent account went from 0.00 to 450.00 in debit total and balance. *)
Theorem draft_line_save_moves_balance :
  let db := fst (JournalEntryLine_save (mkLineObj 7 rent 45000 0) books_no_lines) in
  accounts books_no_lines !! 2 = Some (mkAccount 2 "6100" EXPENSE 0 0 0)
  ∧ journal_entries db = [rent_entry]
  ∧ status rent_entry = DRAFT
  ∧ accounts db !! 2 = Some (mkAccount 2 "6100" EXPENSE 45000 45000 0).
Proof. vm_compute. auto. Qed.

(** A second object for the same row is stale once the first was saved:
    its line save writes the old totals back, plus its own amounts. *)
Example stale_instance_overwrites :
  let '(db1, _) := JournalEntryLine_save (mkLineObj 7 cash 1000 0) books_no_lines in
  let '(db2, _) := JournalEntryLine_save (mkLineObj 7 cash 0 500) db1 in
  accounts db1 !! 1 = Some (mkAccount 1 "1000" ASSET 121000 151000 30000)
  ∧ accounts db2 !! 1 = Some (mkAccount 1 "1000" ASSET 119500 150000 30500).
Proof. vm_compute. auto. Qed.

Lemma books_no_lines_wf : db_wf books_no_lines.
Proof. split; unfold accounts_keyed, lines_fk; by_compute. Qed.

Lemma rent_entry_saved_no_lines : entry_saved rent_entry books_no_lines.
Proof. split; [discriminate | reflexivity]. Qed.

Lemma rent_heap_synced : heap_synced rent_heap books_no_lines.
Proof. unfold heap_synced. by_compute. Qed.

Lemma rent_heap_no_alias : heap_no_alias rent_heap.
Proof. unfold heap_no_alias. by_compute. Qed.

Lemma rent_lines_bound : heap_bound rent_heap rent_lines.
Proof. unfold heap_bound. by_compute. Qed.

Lemma rent_lines_twice_in_range :
  stays_in_range 1
    ((new_row 7 rent_heap <$> rent_lines) ++ (new_row 7 rent_heap <$> rent_lines))
    books_no_lines.
Proof. unfold stays_in_range. by_compute. Qed.

(** C10, as amended. The lines of an entry that has none yet are created
    through the line model's [save], from instances that show their rows
    and of which no two stand for one row. Whenever the creation and the
    [post] that follows end normally, the entry was still a draft while
    each account already carried the amounts of its lines, and after the
    [post] the debit and credit totals of every such account are twice the
    line amounts above their values before the lines existed. Both calls do
    end normally when the entry is a draft, the lines balance, and the
    account rows stay within their [DecimalField(15, 2)] columns while the
    amounts are added twice. *)
Theorem lines_counted_twice (e : JournalEntry) (nls : list NewLine)
    (heap : Heap) (db : DB)
    (Hwf : db_wf db) (Hsaved : entry_saved e db)
    (Hnone : lines_all e db = [])
    (Hsync : heap_synced heap db) (Hna : heap_no_alias heap) :
  (∀ heap1 db1 e2 db2,
     create_lines (entry_pk e) nls (heap, db) = ((heap1, db1), Ok tt) →
     post (e, db1) = ((e2, db2), Ok tt) →
     status e = DRAFT ∧ journal_entries db1 = journal_entries db
     ∧ status e2 = POSTED
     ∧ ∀ loc o, heap !! loc = Some o →
         (∃ o1, accounts db1 !! account_pk o = Some o1
                ∧ debit_balance o1 = debit_balance o + new_debits loc nls
                ∧ credit_balance o1 = credit_balance o + new_credits loc nls)
         ∧ (∃ o2, accounts db2 !! account_pk o = Some o2
                  ∧ debit_balance o2 = debit_balance o + 2 * new_debits loc nls
                  ∧ credit_balance o2 = credit_balance o + 2 * new_credits loc nls))
  ∧ (status e = DRAFT → heap_bound heap nls →
     balanced (new_row (entry_pk e) heap <$> nls) →
     stays_in_range 1 ((new_row (entry_pk e) heap <$> nls)
                       ++ (new_row (entry_pk e) heap <$> nls)) db →
     ∃ heap1 db1 db2,
       create_lines (entry_pk e) nls (heap, db) = ((heap1, db1), Ok tt)
       ∧ post (e, db1) = ((with_status e POSTED, db2), Ok tt)).
Proof.
  split.
  - intros heap1 db1 e2 db2 Hrun Hpost.
    destruct (create_lines_inv (entry_pk e) nls heap db heap1 db1 Hsync Hna Hrun)
      as (He1 & Hl1 & Hpk1 & Hacc1 & Hbound & _).
    destruct (after_create_ready e nls heap db db1 Hwf Hsaved Hnone Hsync Hbound
                He1 Hl1 Hacc1) as (Hwf1 & Hsaved1 & Hlines).
    destruct (post_ok_inv e db1 e2 db2 (proj1 Hwf1) Hsaved1 Hpost)
      as (Hdraft & _ & -> & (_ & _ & _ & Hacc2) & _).
    rewrite Hlines in Hacc2.
    split; [exact Hdraft|]. split; [exact He1|]. split; [reflexivity|].
    intros loc o Ho. split.
    + exists (lines_effect 1 (account_pk o) (new_row (entry_pk e) heap <$> nls) o).
      rewrite Hacc1, (Hsync _ _ Ho). split; [done|].
      rewrite !(proj1 (lines_effect_totals _ _ _ _)), !(proj2 (lines_effect_totals _ _ _ _)).
      destruct (line_totals_new (entry_pk e) heap loc o nls Hna Hbound Ho) as [-> ->].
      lia.
    + exists (lines_effect 1 (account_pk o) (new_row (entry_pk e) heap <$> nls)
                (lines_effect 1 (account_pk o) (new_row (entry_pk e) heap <$> nls) o)).
      rewrite Hacc2, Hacc1, (Hsync _ _ Ho). split; [done|].
      rewrite !(proj1 (lines_effect_totals _ _ _ _)), !(proj2 (lines_effect_totals _ _ _ _)).
      destruct (line_totals_new (entry_pk e) heap loc o nls Hna Hbound Ho) as [-> ->].
      lia.
  - intros Hdraft Hbound Hbal Hr.
    assert (Hr1 : stays_in_range 1 (new_row (entry_pk e) heap <$> nls) db).
    { apply stays_in_range_intro. intros pk a n Ha Hn.
      pose proof (stays_in_range_at 1 _ db pk a n Hr Ha) as Hfit.
      rewrite take_app_le in Hfit by exact Hn. apply Hfit.
      rewrite length_app. lia. }
    destruct (create_lines_spec (entry_pk e) nls heap db Hsync Hna Hbound Hr1)
      as (heap1 & db1 & Hrun & He1 & Hl1 & Hpk1 & Hacc1).
    destruct (after_create_ready e nls heap db db1 Hwf Hsaved Hnone Hsync Hbound
                He1 Hl1 Hacc1) as (Hwf1 & Hsaved1 & Hlines).
    destruct (stays_in_range_app 1 _ _ db db1 Hacc1 Hr) as [_ Hr2].
    rewrite <- Hlines in Hr2, Hbal.
    destruct (post_balanced e db1 Hwf1 Hsaved1 Hdraft Hbal Hr2) as (db2 & Hpost & _).
    eauto.
Qed.

Lemma lines_counted_twice_witness :
  db_wf books_no_lines ∧ entry_saved rent_entry books_no_lines
  ∧ lines_all rent_entry books_no_lines = []
  ∧ heap_synced rent_heap books_no_lines ∧ heap_no_alias rent_heap
  ∧ ∃ heap1 db1 db2,
      create_lines 7 rent_lines (rent_heap, books_no_lines) = ((heap1, db1), Ok tt)
      ∧ post (rent_entry, db1) = ((with_status rent_entry POSTED, db2), Ok tt)
      ∧ (∃ o2, accounts db2 !! 2 = Some o2
               ∧ debit_balance o2 = debit_balance rent + 2 * 45000)
      ∧ (∃ o2, accounts db2 !! 1 = Some o2
               ∧ credit_balance o2 = credit_balance cash + 2 * 45000).
Proof.
  split; [exact books_no_lines_wf|]. split; [exact rent_entry_saved_no_lines|].
  split; [reflexivity|]. split; [exact rent_heap_synced|].
  split; [exact rent_heap_no_alias|].
  destruct (lines_counted_twice rent_entry rent_lines rent_heap books_no_lines
              books_no_lines_wf rent_entry_saved_no_lines
              eq_refl rent_heap_synced rent_heap_no_alias)
    as (Htwice & Hruns).
  destruct (Hruns eq_refl rent_lines_bound eq_refl rent_lines_twice_in_range)
    as (heap1 & db1 & db2 & Hc & Hp).
  destruct (Htwice heap1 db1 _ db2 Hc Hp) as (_ & _ & _ & Hall).
  exists heap1, db1, db2. split; [exact Hc|]. split; [exact Hp|]. split.
  - destruct (Hall 0%nat rent eq_refl) as [_ (o2 & Ho2 & Hd & _)].
    exists o2. split; [exact Ho2 | exact Hd].
  - destruct (Hall 1%nat cash eq_refl) as [_ (o2 & Ho2 & _ & Hcr)].
    exists o2. split; [exact Ho2 | exact Hcr].
Defined.

(** C10 as it was stated fails in three ways. With two instances of the
    cash row, the debit line of 10.00 created from the first is lost when
    the credit line is created from the second: after the creation the
    debit total of cash is what it was, and after [post] it is up by 10.00,
    not by 20.00. With lines whose totals differ, [post] raises and adds
    nothing a second time. At the top of the columns the creation itself
    raises: the line row is stored and the reserve account has not moved. *)
Lemma lines_counted_twice_fails :
  heap_synced cash_twice books_no_lines
  ∧ heap_synced reserve_heap books_at_limit_no_lines
  ∧ (let '((heap1, db1), r1) :=
       create_lines 7 cash_twice_lines (cash_twice, books_no_lines) in
     let '((e2, db2), r2) := post (rent_entry, db1) in
     r1 = Ok tt ∧ r2 = Ok tt
     ∧ debit_balance cash = 150000 ∧ credit_balance cash = 30000
     ∧ accounts db1 !! 1 = Some (mkAccount 1 "1000" ASSET 119000 150000 31000)
     ∧ accounts db2 !! 1 = Some (mkAccount 1 "1000" ASSET 119000 151000 32000))
  ∧ (let '((heap1, db1), r1) :=
       create_lines 7 rent_lines_short (rent_heap, books_no_lines) in
     r1 = Ok tt
     ∧ post (rent_entry, db1)
       = ((rent_entry, db1), Raise (ValueError "Debits must equal credits"))
     ∧ accounts db1 !! 2 = Some (mkAccount 2 "6100" EXPENSE 45000 45000 0))
  ∧ (let '((heap1, db1), r1) :=
       create_lines 8 [mkNewLine 0 1 0] (reserve_heap, books_at_limit_no_lines) in
     r1 = Raise DecimalException
     ∧ journal_lines db1 = [mkLine 8 4 1 0]
     ∧ accounts db1 !! 4 = Some reserve).
Proof.
  split; [unfold heap_synced; by_compute|].
  split; [unfold heap_synced; by_compute|].
  vm_compute. repeat split.
Qed.

End Ledger.

(** * Entry numbers *)

Section Numbering.

(** A year without entries starts at 000001. *)
Lemma first_number_of_year self db :
  entries_of_year (year (entry_date self)) db = [] →
  generate_entry_number self db
  = (PyStr.of_Z (year (entry_date self)) ++ "-000001")%string.
Proof. intros H. unfold generate_entry_number. by rewrite H. Qed.

Example first_two_numbers_of_2025 :
  generate_entry_number unnumbered_entry (mkDB ∅ [] []) = "2025-000001"%string
  ∧ generate_entry_number unnumbered_entry
      (mkDB ∅ [mkEntry 1 "2025-000001" (mkDate 2025 1 6) SALE POSTED "" "" 100] [])
    = "2025-000002"%string.
Proof. split; reflexivity. Qed.

(** C5 fails on the code: [save] reads the suffix of the entry whose number
    is the greatest string of the year, not the greatest suffix. With the
    depreciation entry of 31 January among the entries of 2025, the number
    after 2025-000001 and 2025-000002 is 2025-20250132, and the same
    number is the first one of a year that holds that entry only. With an
    entry numbered "ADJ-0001" in the year, the next number is 2025-000002
    once more, which the unique column refuses. *)
Theorem entry_number_follows_greatest_string :
  first_by_number_desc (entries_of_year 2025 journal_2025)
    = Some depreciation_entry_jan
  ∧ generate_entry_number unnumbered_entry journal_2025 = "2025-20250132"%string
  ∧ generate_entry_number unnumbered_entry journal_depreciation_only
    = "2025-20250132"%string
  ∧ generate_entry_number unnumbered_entry journal_with_adjustment
    = "2025-000002"%string
  ∧ snd (JournalEntry_save (unnumbered_entry, journal_with_adjustment))
    = Raise IntegrityError.
Proof. vm_compute. repeat split; reflexivity. Qed.

End Numbering.

(** * Advances against commission *)

Section Advances.

Import Sales.

Ltac munfold_s :=
  unfold request_advance, AdvancePaymentCreateSerializer_create, give_advance,
    is_valid in *;
  unfold mbind, M_bind, mret, M_ret, gets, modify, raise in *.

Lemma column_12_2_spec v : column_12_2 v = true ↔ - 10 ^ 12 < v < 10 ^ 12.
Proof. unfold column_12_2. rewrite Z.ltb_lt. lia. Qed.

(** The insert of an advance granted in full, for a positive amount within
    the balance recorded with it: it goes through exactly when that balance
    is a value of its column. *)
Lemma advance_create_run emp r av s d rb pb t :
  0 < r → r ≤ av →
  AdvancePayment_objects_create (mkAdvance emp r r av s d rb pb) t
  = if bool_decide (av < 10 ^ 12)
    then (mkTables (commissions t)
            (advance_payments t ++ [mkAdvance emp r r av s d rb pb]),
          Ok (mkAdvance emp r r av s d rb pb))
    else (t, Raise DecimalException).
Proof.
  intros Hpos Hle. unfold AdvancePayment_objects_create.
  cbn [requested_amount approved_amount available_commission].
  case_bool_decide as Hav.
  - rewrite !(proj2 (column_12_2_spec _)) by lia. reflexivity.
  - destruct (column_12_2 av) eqn:Hc.
    + apply column_12_2_spec in Hc. lia.
    + by rewrite andb_false_r.
Qed.

(** The serializer refuses every request above the available balance of
    the employee, and a refusal leaves the tables as they were. *)
Lemma request_advance_cap request_user today data t :
  available_balance (user_id (advance_employee request_user data)) t
    < data_requested_amount data →
  ∃ msg, request_advance request_user today data t = (t, Raise (ValidationError msg)).
Proof.
  intros Hlt. munfold_s. unfold advance_employee in Hlt.
  destruct (10 ^ 12 <=? Z.abs (data_requested_amount data)); [eauto|].
  destruct (data_requested_amount data <=? 0); [eauto|].
  destruct (data_employee data) as [e|]; simpl in Hlt.
  - destruct (can_record_for_others request_user); [|eauto].
    cbn [id]. destruct (existsb _ _); [eauto|].
    destruct (Z.ltb_spec (available_balance (user_id e) t)
                (data_requested_amount data)); [eauto|lia].
  - cbn [id]. destruct (existsb _ _); [eauto|].
    destruct (Z.ltb_spec (available_balance (user_id request_user) t)
                (data_requested_amount data)); [eauto|lia].
Qed.

(** A request of an employee for themselves, positive, within the
    balance, and the first of the day, is recorded as paid. *)
Lemma request_advance_within request_user today data t :
  data_employee data = None →
  0 < data_requested_amount data →
  data_requested_amount data ≤ available_balance (user_id request_user) t →
  available_balance (user_id request_user) t < 10 ^ 12 →
  Forall (λ a, ¬ (employee a = user_id request_user ∧ requested_at a = today))
         (advance_payments t) →
  ∃ t' adv, request_advance request_user today data t = (t', Ok adv)
    ∧ status adv = PAID
    ∧ approved_amount adv = data_requested_amount data
    ∧ available_commission adv = available_balance (user_id request_user) t.
Proof.
  intros Hnone Hpos Hle Hfit Hday. munfold_s. rewrite Hnone.
  destruct (Z.leb_spec (10 ^ 12) (Z.abs (data_requested_amount data))); [lia|].
  destruct (Z.leb_spec (data_requested_amount data) 0); [lia|].
  cbn [id].
  assert (Hex : existsb (λ a, bool_decide (employee a = user_id request_user)
                              && bool_decide (requested_at a = today))
                        (advance_payments t) = false).
  { induction Hday as [|a l Ha _ IH]; [reflexivity|]. cbn [existsb].
    rewrite IH, orb_false_r. apply andb_false_iff.
    destruct (decide (employee a = user_id request_user)) as [He|He].
    - right. apply bool_decide_eq_false_2. intros Hd. apply Ha. auto.
    - left. by apply bool_decide_eq_false_2. }
  rewrite Hex.
  destruct (Z.ltb_spec (available_balance (user_id request_user) t)
              (data_requested_amount data)); [lia|].
  rewrite advance_create_run by assumption.
  rewrite bool_decide_eq_true_2 by exact Hfit.
  do 2 eexists. split; [reflexivity|]. auto.
Qed.

(** [give_advance] compares with the payable commissions alone. *)
Lemma give_advance_threshold request_user today data t :
  0 < data_requested_amount data < 10 ^ 12 →
  let payable :=
    or_zero (aggregate_sum (commission_amount <$>
      filter (λ c, commission_employee c
                     = user_id (advance_employee request_user data)
                   ∧ commission_status c = PAYABLE) (commissions t))) in
  (data_requested_amount data ≤ payable → payable < 10 ^ 12 →
     ∃ t' adv, give_advance request_user today data t = (t', Ok (Created adv)))
  ∧ (payable < data_requested_amount data →
     give_advance request_user today data t = (t, Ok BadRequest)).
Proof.
  intros [Hpos Hdigits] payable. munfold_s. unfold advance_employee in payable.
  simpl in payable.
  destruct (Z.leb_spec (10 ^ 12) (Z.abs (data_requested_amount data))); [lia|].
  destruct (Z.leb_spec (data_requested_amount data) 0); [lia|].
  cbn [id]. fold payable.
  destruct (Z.ltb_spec payable (data_requested_amount data)); split;
    try (intros; lia); [eauto|].
  intros Hle Hfit. rewrite advance_create_run by assumption.
  rewrite bool_decide_eq_true_2 by exact Hfit. eauto.
Qed.

(** C8 fails on the code for the direct path. Employee 5 has payable
    commissions of 10000.00 and a paid advance of 3000.00, so the balance
    is 7000.00. Through the serializer a request of 8000.00 is refused
    and one of 7000.00 is recorded; [give_advance] records 8000.00. *)
Theorem give_advance_ignores_unrecovered_advances :
  available_balance 5 commission_tables = 700000
  ∧ (∃ msg, snd (request_advance technician (mkDate 2025 2 3)
                   (mkAdvanceData None 800000) commission_tables)
            = Raise (ValidationError msg))
  ∧ (∃ adv, snd (request_advance technician (mkDate 2025 2 3)
                   (mkAdvanceData None 700000) commission_tables) = Ok adv
            ∧ approved_amount adv = 700000)
  ∧ (∃ adv, snd (give_advance manager (mkDate 2025 2 3)
                   (mkAdvanceData (Some technician) 800000) commission_tables)
            = Ok (Created adv)
            ∧ approved_amount adv = 800000 ∧ status adv = PAID).
Proof.
  split; [reflexivity|].
  split; [eexists; vm_compute; reflexivity|].
  split; eexists; (split; [vm_compute; reflexivity | auto]).
Qed.

End Advances.

(** * Disposal *)

Section Disposal.

Import Dec Assets.

#[local] Arguments calculate_current_values : simpl never.
#[local] Arguments generate_asset_number : simpl never.

Ltac munfold_d :=
  unfold get_self, set_self, on_world, on_ledger, lift_result in *;
  unfold mbind, M_bind, result_bind, mret, M_ret, result_ret, gets, modify,
    raise in *.

(** A bind that ends normally ran both of its parts normally. *)
Lemma bind_ok_inv {S A B} (m : M S A) (f : A → M S B) s s' b :
  (m ≫= f) s = (s', Ok b) → ∃ x s1, m s = (s1, Ok x) ∧ f x s1 = (s', Ok b).
Proof.
  unfold mbind, M_bind. destruct (m s) as [s1 [x|e]]; [eauto | discriminate].
Qed.

(** Whatever runs on the tables leaves the instance alone. *)
Lemma on_world_self {A} (m : M World A) self w s' r :
  on_world m (self, w) = (s', r) → fst s' = self.
Proof.
  unfold on_world. destruct (m w) as [w' r']. by intros [= <- _].
Qed.

Lemma if_on_world_self {A} (b : bool) (m : M World A) (x : A) self w s' r :
  (if b then on_world m else mret x) (self, w) = (s', r) → fst s' = self.
Proof.
  destruct b; [apply on_world_self|]. by intros [= <- _].
Qed.

(** The journal part of a disposal that ends normally has not touched the
    instance, and reports the amounts it was given. *)
Lemma disposal_journal_ok dd amt bv gl a w a' w' res :
  disposal_journal dd amt bv gl (a, w) = ((a', w'), Ok res) →
  a' = a ∧ book_value res = bv ∧ result_disposal_amount res = amt
  ∧ gain_loss res = gl.
Proof.
  unfold disposal_journal. intros H.
  apply bind_ok_inv in H as (self & [a0 w0] & H0 & H).
  injection H0 as <- <- <-.
  apply bind_ok_inv in H as (je & [a1 w1] & H1 & H).
  apply on_world_self in H1. cbn [fst] in H1. subst a1.
  apply bind_ok_inv in H as (cash_acct & [a2 w2] & H2 & H).
  apply on_world_self in H2. cbn [fst] in H2. subst a2.
  apply bind_ok_inv in H as (asset_acct & [a3 w3] & H3 & H).
  apply on_world_self in H3. cbn [fst] in H3. subst a3.
  apply bind_ok_inv in H as (accum_acct & [a4 w4] & H4 & H).
  apply on_world_self in H4. cbn [fst] in H4. subst a4.
  apply bind_ok_inv in H as ([] & [a5 w5] & H5 & H).
  apply if_on_world_self in H5. cbn [fst] in H5. subst a5.
  apply bind_ok_inv in H as ([] & [a6 w6] & H6 & H).
  apply on_world_self in H6. cbn [fst] in H6. subst a6.
  apply bind_ok_inv in H as ([] & [a7 w7] & H7 & H).
  apply on_world_self in H7. cbn [fst] in H7. subst a7.
  apply bind_ok_inv in H as ([] & [a8 w8] & H8 & H).
  assert (a8 = a) as ->.
  { destruct (is_true gl); [|by injection H8 as <- _].
    apply bind_ok_inv in H8 as (gla & [a9 w9] & H9 & H8).
    apply on_world_self in H9. cbn [fst] in H9. subst a9.
    destruct (ltb zero gl); apply on_world_self in H8; exact H8. }
  injection H as <- _ <-. auto.
Qed.

Lemma calculate_current_values_disposed now a :
  disposed_or_sold a = true → calculate_current_values now a = Ok a.
Proof. intros H. unfold calculate_current_values. by rewrite H. Qed.

(** [save] of a disposed asset keeps what the disposal reads. *)
Lemma Asset_save_disposed now a w a1 w1 r :
  disposed_or_sold a = true →
  Asset_save now (a, w) = ((a1, w1), r) →
  status a1 = status a ∧ disposal_date a1 = disposal_date a
  ∧ disposal_amount a1 = disposal_amount a
  ∧ disposal_method a1 = disposal_method a
  ∧ current_book_value a1 = current_book_value a.
Proof.
  intros Hd. unfold Asset_save, Model_save_asset. munfold_d. simpl.
  destruct (decide (asset_number a = ""%string));
    cbn [fst snd]; destruct (depreciation_method a) eqn:Hmeth;
    cbn [depreciation_method with_asset_number fst snd];
    try rewrite Hmeth; cbn [fst snd];
    rewrite calculate_current_values_disposed by exact Hd;
    cbn [fst snd];
    match goal with |- context [bool_decide ?P] => destruct (bool_decide P) end;
    intros [= <- _ _]; auto.
Qed.

(** The successful part of C9, for every asset: when
    [create_disposal_entry] returns, the asset is [DISPOSED] with the
    disposal data it was given, and the reported gain or loss is the
    disposal amount minus the book value the asset had. *)
Lemma create_disposal_entry_ok now dd amt dm a w a' w' res :
  create_disposal_entry now dd amt dm (a, w) = ((a', w'), Ok res) →
  status a' = DISPOSED
  ∧ disposal_date a' = Some dd ∧ disposal_amount a' = Some amt
  ∧ disposal_method a' = dm
  ∧ book_value res = current_book_value a
  ∧ gain_loss res = sub amt (current_book_value a).
Proof.
  unfold create_disposal_entry. intros H.
  apply bind_ok_inv in H as ([] & [a0 w0] & H0 & H).
  injection H0 as <- <-.
  apply bind_ok_inv in H as (self & [a0 w0] & H0 & H).
  injection H0 as <- <- <-.
  apply bind_ok_inv in H as ([] & [a1 w1] & Hsave & H).
  apply Asset_save_disposed in Hsave as (Hst & Hdd & Hda & Hdm & Hbv);
    [|reflexivity].
  cbn [status disposal_date disposal_amount disposal_method current_book_value
       with_disposal] in *.
  unfold try_except, atomic in H.
  destruct (disposal_journal dd amt (current_book_value a)
              (sub amt (current_book_value a)) (a1, w1))
    as [[a2 w2] [res'|e]] eqn:Hj.
  - injection H as <- <- <-.
    apply disposal_journal_ok in Hj as (-> & Hb & _ & Hg).
    repeat split; assumption.
  - exfalso. revert H. munfold_d.
    destruct (Asset_save now _) as [[a3 w3] [[]|e']]; discriminate.
Qed.

(** [calculate_current_values] writes the two value fields only. *)
Lemma calculate_current_values_keeps now a a' :
  calculate_current_values now a = Ok a' →
  status a' = status a ∧ disposal_date a' = disposal_date a
  ∧ disposal_amount a' = disposal_amount a
  ∧ disposal_method a' = disposal_method a.
Proof.
  unfold calculate_current_values.
  destruct (disposed_or_sold a); [by intros [= <-]|].
  destruct (date_gtb _ _); [by intros [= <-]|].
  destruct (_ <=? 0); [by intros [= <-]|].
  unfold mbind, result_bind.
  destruct (total_depreciation_of _ _) as [t|]; [|discriminate].
  destruct (quantize_cents _) as [acc|]; [|discriminate].
  destruct (quantize_cents _) as [book|]; [|discriminate].
  by intros [= <-].
Qed.

(** [save] keeps the status and the disposal fields of the instance,
    whether it ends normally or not. *)
Lemma Asset_save_keeps now a w a1 w1 r :
  Asset_save now (a, w) = ((a1, w1), r) →
  status a1 = status a ∧ disposal_date a1 = disposal_date a
  ∧ disposal_amount a1 = disposal_amount a
  ∧ disposal_method a1 = disposal_method a.
Proof.
  unfold Asset_save, Model_save_asset. munfold_d. simpl.
  destruct (decide (asset_number a = ""%string));
    cbn [fst snd]; destruct (depreciation_method a) eqn:Hmeth;
    cbn [depreciation_method with_asset_number fst snd];
    try rewrite Hmeth; cbn [fst snd];
    match goal with |- context [calculate_current_values now ?x] =>
      pose proof (calculate_current_values_keeps now x) as Hk;
      destruct (calculate_current_values now x) as [a4|e4]
    end;
    try (intros [= <- _ _]; auto; fail);
    specialize (Hk a4 eq_refl);
    cbn [fst snd];
    match goal with |- context [bool_decide ?P] => destruct (bool_decide P) end;
    intros [= <- _ _]; exact Hk.
Qed.

(** What the handler leaves behind, for every asset: when
    [create_disposal_entry] raises, either the first [save] raised and the
    instance still says [DISPOSED], or the instance says [ACTIVE] and its
    disposal fields are empty, whatever they were before. *)
Lemma create_disposal_entry_raise now dd amt dm a w a' w' e :
  create_disposal_entry now dd amt dm (a, w) = ((a', w'), Raise e) →
  status a' = DISPOSED
  ∨ (status a' = ACTIVE ∧ disposal_date a' = None
     ∧ disposal_amount a' = None ∧ disposal_method a' = ""%string).
Proof.
  unfold create_disposal_entry. intros H.
  unfold mbind at 1, M_bind at 1 in H. unfold set_self at 1, modify at 1 in H.
  unfold mbind at 1, M_bind at 1 in H. unfold get_self at 1, gets at 1 in H.
  cbn [fst] in H.
  unfold mbind at 1, M_bind at 1 in H.
  destruct (Asset_save now _) as [[a1 w1] [[]|e1]] eqn:Hsave.
  - unfold try_except, atomic in H.
    destruct (disposal_journal _ _ _ _ (a1, w1)) as [[a2 w2] [res|e2]];
      [discriminate|].
    unfold mbind at 1, M_bind at 1 in H. unfold set_self at 1, modify at 1 in H.
    unfold mbind at 1, M_bind at 1 in H.
    destruct (Asset_save now (with_disposal a2 ACTIVE None None "", w1))
      as [[a3 w3] r3] eqn:Hsave2.
    apply Asset_save_keeps in Hsave2 as (Hst & Hdd & Hda & Hdm).
    right. destruct r3 as [[]|e3]; injection H as <- _ _; auto.
  - injection H as <- _ _.
    apply Asset_save_keeps in Hsave as (Hst & _). left. exact Hst.
Qed.

(** Disposal of the active lift, carried at 5000.00, for 7000.00: the
    asset ends disposed, the gain is 2000.00, and the four lines of the
    entry carry equal debits and credits. *)
Example disposal_with_gain :
  let '((a, w), r) := create_disposal_entry (mkDate 2029 3 1) (mkDate 2029 3 1)
                        (of_cents 700000) "SALE"
                        (active_lift, world_of disposal_chart active_lift) in
  status a = DISPOSED
  ∧ (∃ res, r = Ok res ∧ gain_loss res = of_cents 200000
            ∧ book_value res = of_cents 500000)
  ∧ total_debits (journal_lines (ledger w)) = 1200000
  ∧ total_credits (journal_lines (ledger w)) = 1200000.
Proof. vm_compute. split; [done|]. split; [eauto|]. split; reflexivity. Qed.

(** The same disposal without a cash account: the journal fails, the
    tables of the ledger are as before, the error comes back to the
    caller, and the asset, active before, is active again with its
    disposal fields empty. *)
Example disposal_failure_active :
  let w0 := world_of chart_without_cash active_lift in
  let '((a, w), r) := create_disposal_entry (mkDate 2029 3 1) (mkDate 2029 3 1)
                        (of_cents 700000) "SALE" (active_lift, w0) in
  r = Raise DoesNotExist
  ∧ ledger w = chart_without_cash
  ∧ status a = ACTIVE ∧ disposal_date a = None
  ∧ disposal_amount a = None ∧ disposal_method a = ""%string.
Proof. vm_compute. repeat split; reflexivity. Qed.

(** C9 fails on the code: the handler writes fixed values, not the values
    the asset had. The lift is [INACTIVE] and has no disposal data; the
    chart lacks the cash account, so the journal fails with
    [DoesNotExist], which is raised again; but the asset comes back
    [ACTIVE], in memory and in its row. *)
Theorem disposal_failure_sets_active :
  let w0 := world_of chart_without_cash idle_lift in
  let '((a, w), r) := create_disposal_entry (mkDate 2029 3 1) (mkDate 2029 3 1)
                        (of_cents 700000) "SALE" (idle_lift, w0) in
  status idle_lift = INACTIVE
  ∧ r = Raise DoesNotExist
  ∧ status a = ACTIVE
  ∧ status <$> assets w !! 1 = Some ACTIVE
  ∧ disposal_date a = None ∧ disposal_amount a = None
  ∧ disposal_method a = ""%string.
Proof. vm_compute. repeat split; reflexivity. Qed.

End Disposal.

(** * Facts about the decimal arithmetic *)

Section DecimalFacts.

Import Dec.

Lemma ndigits_fuel_upper fuel : ∀ m k,
  0 ≤ m < 10 ^ k → 1 ≤ k → ndigits_fuel fuel m ≤ k.
Proof.
  induction fuel as [|fuel IH]; intros m k Hm Hk; simpl; [lia|].
  destruct (Z.ltb_spec m 10); [lia|].
  assert (Hk2 : 2 ≤ k).
  { destruct (decide (k = 1)) as [->|]; [|lia]. simpl in Hm. lia. }
  assert (m / 10 < 10 ^ (k - 1)).
  { apply Z.div_lt_upper_bound; [lia|].
    replace (10 * 10 ^ (k - 1)) with (10 ^ k); [lia|].
    replace k with (1 + (k - 1)) at 1 by lia.
    rewrite Z.pow_add_r by lia. reflexivity. }
  assert (0 ≤ m / 10) by (apply Z.div_pos; lia).
  specialize (IH (m / 10) (k - 1)). lia.
Qed.

Lemma ndigits_fuel_lower fuel : ∀ m,
  1 ≤ m → 10 ^ (ndigits_fuel fuel m - 1) ≤ m ∧ 1 ≤ ndigits_fuel fuel m.
Proof.
  induction fuel as [|fuel IH]; intros m Hm; simpl; [lia|].
  destruct (Z.ltb_spec m 10); [simpl; lia|].
  assert (1 ≤ m / 10) by (apply Z.div_le_lower_bound; lia).
  destruct (IH (m / 10)) as [Hlow Hpos]; [lia|].
  split; [|lia].
  replace (1 + ndigits_fuel fuel (m / 10) - 1)
    with (1 + (ndigits_fuel fuel (m / 10) - 1)) by lia.
  rewrite Z.pow_add_r by lia.
  pose proof (Z.mul_div_le m 10). lia.
Qed.

Lemma ndigits_small n : Z.abs n < 10 ^ prec → ndigits n ≤ prec.
Proof.
  intros H. unfold ndigits. apply ndigits_fuel_upper; [lia | unfold prec; lia].
Qed.

(** A coefficient within the precision is left alone. *)
Lemma fix_ctx_small d : Z.abs (coef d) < 10 ^ prec → fix_ctx d = d.
Proof.
  intros H. unfold fix_ctx.
  pose proof (ndigits_small (Z.abs (coef d))) as Hn.
  rewrite Z.abs_idemp in Hn. specialize (Hn H).
  destruct (Z.leb_spec (ndigits (Z.abs (coef d)) - prec) 0); [done|lia].
Qed.

Lemma div_half_even_nonneg m p : 0 ≤ m → 0 < p → 0 ≤ div_half_even m p.
Proof.
  intros Hm Hp. unfold div_half_even.
  assert (0 ≤ m / p) by (apply Z.div_pos; lia).
  repeat match goal with |- context [if ?b then _ else _] => destruct b end; lia.
Qed.

Lemma div_half_even_pos m p : 0 < p → p ≤ m → 0 < div_half_even m p.
Proof.
  intros Hp Hm. unfold div_half_even.
  assert (1 ≤ m / p) by (apply Z.div_le_lower_bound; lia).
  repeat match goal with |- context [if ?b then _ else _] => destruct b end; lia.
Qed.

Lemma sgn_mul_nonneg c m : 0 ≤ c → sgn_mul c m = m.
Proof. intros H. unfold sgn_mul. destruct (Z.ltb_spec c 0); [lia|done]. Qed.

(** Rounding to the context keeps the sign of a non-negative value. *)
Lemma fix_ctx_nonneg d : 0 ≤ coef d → 0 ≤ coef (fix_ctx d).
Proof.
  intros H. unfold fix_ctx.
  destruct (Z.leb_spec (ndigits (Z.abs (coef d)) - prec) 0); [done|].
  rewrite !sgn_mul_nonneg by done.
  destruct (Z.eqb_spec (div_half_even (Z.abs (coef d))
              (10 ^ (ndigits (Z.abs (coef d)) - prec))) (10 ^ prec)); simpl.
  - apply Z.pow_nonneg. lia.
  - apply div_half_even_nonneg; [lia|]. apply Z.pow_pos_nonneg; lia.
Qed.

Lemma fix_ctx_pos d : 0 < coef d → 0 < coef (fix_ctx d).
Proof.
  intros H. unfold fix_ctx.
  destruct (Z.leb_spec (ndigits (Z.abs (coef d)) - prec) 0); [done|].
  rewrite !sgn_mul_nonneg by lia.
  destruct (Z.eqb_spec (div_half_even (Z.abs (coef d))
              (10 ^ (ndigits (Z.abs (coef d)) - prec))) (10 ^ prec)); simpl.
  - apply Z.pow_pos_nonneg; unfold prec; lia.
  - apply div_half_even_pos; [apply Z.pow_pos_nonneg; lia|].
    unfold ndigits in *. rewrite Z.abs_idemp in *.
    set (f := S (Z.to_nat (Z.log2 (Z.abs (coef d))))) in *.
    destruct (ndigits_fuel_lower f (Z.abs (coef d))) as [Hlow _]; [lia|].
    etransitivity; [|exact Hlow].
    apply Z.pow_le_mono_r; unfold prec in *; lia.
Qed.

Lemma mul_nonneg a b : 0 ≤ coef a → 0 ≤ coef b → 0 ≤ coef (mul a b).
Proof. intros Ha Hb. apply fix_ctx_nonneg. simpl. lia. Qed.

Lemma mul_pos a b : 0 < coef a → 0 < coef b → 0 < coef (mul a b).
Proof. intros Ha Hb. apply fix_ctx_pos. simpl. lia. Qed.

Lemma scaled_nonneg d e : 0 ≤ coef d → 0 ≤ scaled d e.
Proof.
  intros H. unfold scaled. apply Z.mul_nonneg_nonneg; [done|].
  apply Z.pow_nonneg. lia.
Qed.

Lemma add_nonneg a b : 0 ≤ coef a → 0 ≤ coef b → 0 ≤ coef (add a b).
Proof.
  intros Ha Hb. apply fix_ctx_nonneg. simpl.
  pose proof (scaled_nonneg a (Z.min (dexp a) (dexp b)) Ha).
  pose proof (scaled_nonneg b (Z.min (dexp a) (dexp b)) Hb). lia.
Qed.

Lemma scaled_neg b e : scaled (neg b) e = - scaled b e.
Proof. unfold scaled, neg. simpl. lia. Qed.

(** A difference whose subtrahend is not greater is non-negative. *)
Lemma sub_nonneg a b : leb b a = true → 0 ≤ coef (sub a b).
Proof.
  unfold leb, compare, sub, add. intros H. apply fix_ctx_nonneg.
  cbn [coef dexp neg]. rewrite scaled_neg.
  rewrite (Z.min_comm (dexp a) (dexp b)).
  destruct (Z.compare_spec (scaled b (Z.min (dexp b) (dexp a)))
                           (scaled a (Z.min (dexp b) (dexp a)))); [lia|lia|done].
Qed.

Lemma leb_false_ltb a b : leb a b = false → leb b a = true.
Proof.
  unfold leb, compare. rewrite (Z.min_comm (dexp b) (dexp a)).
  destruct (Z.compare_spec (scaled a (Z.min (dexp a) (dexp b)))
                           (scaled b (Z.min (dexp a) (dexp b))));
    destruct (Z.compare_spec (scaled b (Z.min (dexp a) (dexp b)))
                             (scaled a (Z.min (dexp a) (dexp b))));
    try done; lia.
Qed.

Lemma scaled_pos_inv d e : e ≤ dexp d → 0 < scaled d e → 0 < coef d.
Proof.
  unfold scaled. intros He H.
  assert (0 < 10 ^ (dexp d - e)) by (apply Z.pow_pos_nonneg; lia). nia.
Qed.

(** Above a non-negative value lies a positive one. *)
Lemma leb_false_pos a b : 0 ≤ coef b → leb a b = false → 0 < coef a.
Proof.
  unfold leb, compare. intros Hb H.
  pose proof (scaled_nonneg b (Z.min (dexp a) (dexp b)) Hb).
  apply (scaled_pos_inv a (Z.min (dexp a) (dexp b))); [lia|].
  destruct (Z.compare_spec (scaled a (Z.min (dexp a) (dexp b)))
                           (scaled b (Z.min (dexp a) (dexp b)))); [done|done|lia].
Qed.

Lemma strip_zeros_nonneg fuel : ∀ c e, 0 ≤ c → 0 ≤ fst (strip_zeros fuel c e).
Proof.
  induction fuel as [|fuel IH]; intros c e Hc; simpl; [done|].
  destruct (c mod 10 =? 0); [|done].
  apply IH. apply Z.div_pos; lia.
Qed.

(** Division by a non-zero value ends normally, and a non-negative
    dividend over a positive divisor gives a non-negative quotient. *)
Lemma div_ok a b : coef b ≠ 0 → ∃ q, div a b = Ok q.
Proof.
  intros Hb. unfold div.
  destruct (Z.eqb_spec (coef b) 0); [done|].
  destruct (coef a =? 0); [eauto|].
  repeat match goal with
         | |- context [let '(_, _) := ?x in _] => destruct x
         end; eauto.
Qed.

Lemma div_nonneg a b q :
  0 ≤ coef a → 0 < coef b → div a b = Ok q → 0 ≤ coef q.
Proof.
  intros Ha Hb. unfold div.
  destruct (Z.eqb_spec (coef b) 0); [lia|].
  destruct (Z.eqb_spec (coef a) 0).
  { intros [= <-]. by apply fix_ctx_nonneg. }
  set (ma := Z.abs (coef a)). set (mb := Z.abs (coef b)).
  set (shift := ndigits mb - ndigits ma + prec + 1).
  set (num := if 0 <=? shift then ma * 10 ^ shift else ma).
  set (den := if 0 <=? shift then mb else mb * 10 ^ (- shift)).
  assert (Hnum : 0 ≤ num).
  { unfold num. destruct (0 <=? shift); [|lia].
    apply Z.mul_nonneg_nonneg; [lia|]. apply Z.pow_nonneg. lia. }
  assert (Hden : 0 < den).
  { unfold den. destruct (Z.leb_spec 0 shift); [lia|].
    apply Z.mul_pos_pos; [lia|]. apply Z.pow_pos_nonneg; lia. }
  assert (Hq : 0 ≤ num / den) by (apply Z.div_pos; lia).
  destruct (num mod den =? 0).
  - pose proof (strip_zeros_nonneg
      (Z.to_nat (dexp a - dexp b - (dexp a - dexp b - shift))) (num / den)
      (dexp a - dexp b - shift) Hq) as Hs.
    destruct (strip_zeros _ _ _) as [c e']. simpl in Hs.
    intros [= <-]. apply fix_ctx_nonneg. simpl.
    rewrite sgn_mul_nonneg by nia. done.
  - intros [= <-]. apply fix_ctx_nonneg. simpl.
    rewrite sgn_mul_nonneg by nia.
    destruct (num / den mod 5 =? 0); lia.
Qed.

Lemma min_nonneg a b : 0 ≤ coef a → 0 ≤ coef b → 0 ≤ coef (min a b).
Proof. intros Ha Hb. unfold min. by destruct (ltb b a). Qed.

Lemma min_le_r a b : leb (min a b) b = true.
Proof.
  unfold min, ltb, leb.
  destruct (compare b a) eqn:Hc.
  - unfold compare in *. rewrite (Z.min_comm (dexp a) (dexp b)).
    apply Z.compare_eq_iff in Hc. rewrite <- Hc.
    by rewrite Z.compare_refl.
  - unfold compare. by rewrite Z.compare_refl.
  - unfold compare in *. rewrite (Z.min_comm (dexp a) (dexp b)).
    rewrite Z.compare_antisym, Hc. done.
Qed.

Lemma leb_cents x y : leb (of_cents x) (of_cents y) = true ↔ x ≤ y.
Proof.
  unfold leb, compare, scaled, of_cents. simpl. rewrite !Z.mul_1_r.
  destruct (Z.compare_spec x y); split; intros; try done; lia.
Qed.

Lemma leb_zero_cents m : 0 ≤ m → leb zero (of_cents m) = true.
Proof.
  intros H. unfold leb, compare, scaled, zero, of_int, of_cents.
  cbn [coef dexp]. change (Z.min 0 (-2)) with (-2).
  change (10 ^ (0 - -2)) with 100. change (10 ^ (-2 - -2)) with 1.
  rewrite Z.mul_1_r. change (0 * 100) with 0.
  destruct (Z.compare_spec 0 m); [reflexivity | reflexivity | lia].
Qed.

Lemma sub_cents x y :
  Z.abs (x - y) < 10 ^ prec → sub (of_cents x) (of_cents y) = of_cents (x - y).
Proof.
  intros H. unfold sub, add, neg, scaled, of_cents. simpl.
  rewrite !Z.mul_1_r. rewrite fix_ctx_small; [f_equal; lia|].
  simpl. replace (x + - y) with (x - y) by lia. done.
Qed.

Lemma quantize_cents_of_cents x :
  Z.abs x < 10 ^ prec → quantize_cents (of_cents x) = Ok (of_cents x).
Proof.
  intros H. unfold quantize_cents, of_cents. simpl. rewrite Z.mul_1_r.
  destruct (Z.ltb_spec (Z.abs x) (10 ^ prec)); [done|lia].
Qed.

(** Rounding a non-negative value that does not exceed a whole number of
    hundredths gives hundredths within the same bounds. *)
Lemma quantize_cents_bounded d m :
  0 ≤ coef d → leb d (of_cents m) = true → m < 10 ^ prec →
  ∃ q, quantize_cents d = Ok (of_cents q) ∧ 0 ≤ q ≤ m.
Proof.
  intros Hd Hle Hm. unfold quantize_cents.
  assert (Hc : ∃ q, (if -2 <=? dexp d then coef d * 10 ^ (dexp d + 2)
                     else sgn_mul (coef d)
                            (div_half_up (Z.abs (coef d)) (10 ^ (-2 - dexp d)))) = q
                    ∧ 0 ≤ q ≤ m).
  { unfold leb, compare, scaled, of_cents in Hle. cbn [coef dexp] in Hle.
    destruct (Z.leb_spec (-2) (dexp d)) as [He|He].
    - eexists. split; [reflexivity|].
      rewrite Z.min_r in Hle by lia.
      replace (-2 - -2) with 0 in Hle by lia. rewrite Z.pow_0_r, Z.mul_1_r in Hle.
      replace (dexp d - -2) with (dexp d + 2) in Hle by lia.
      assert (0 ≤ 10 ^ (dexp d + 2)) by (apply Z.pow_nonneg; lia).
      destruct (Z.compare_spec (coef d * 10 ^ (dexp d + 2)) m); [nia|nia|done].
    - eexists. split; [reflexivity|].
      rewrite Z.min_l in Hle by lia.
      replace (dexp d - dexp d) with 0 in Hle by lia.
      rewrite Z.pow_0_r, Z.mul_1_r in Hle.
      set (p := 10 ^ (-2 - dexp d)) in *.
      assert (Hp : 0 < p) by (apply Z.pow_pos_nonneg; lia).
      assert (Hcm : coef d ≤ m * p)
        by (destruct (Z.compare_spec (coef d) (m * p)); [lia|lia|done]).
      rewrite sgn_mul_nonneg by done. rewrite Z.abs_eq by done.
      unfold div_half_up.
      pose proof (Z.div_mod (coef d) p ltac:(lia)) as Hdm.
      pose proof (Z.mod_pos_bound (coef d) p Hp) as Hr.
      assert (0 ≤ coef d / p) by (apply Z.div_pos; lia).
      assert (coef d / p ≤ m) by (apply Z.div_le_upper_bound; lia).
      destruct (Z.ltb_spec (2 * (coef d mod p)) p); [lia|].
      split; [lia|].
      destruct (decide (coef d / p = m)) as [Heq|]; [|lia].
      rewrite Heq in Hdm. nia. }
  destruct Hc as (q & -> & Hq).
  exists q. split; [|done].
  destruct (Z.ltb_spec (Z.abs q) (10 ^ prec)); [done|lia].
Qed.

End DecimalFacts.

(** * Depreciation *)

Section Depreciation.

Import Dec Assets.

#[local] Arguments fix_ctx : simpl never.
#[local] Arguments add : simpl never.
#[local] Arguments sub : simpl never.
#[local] Arguments mul : simpl never.
#[local] Arguments div : simpl never.
#[local] Arguments quantize_cents : simpl never.
#[local] Arguments leb : simpl never.
#[local] Arguments ltb : simpl never.
#[local] Arguments min : simpl never.
#[local] Arguments max : simpl never.
#[local] Arguments Z.pow : simpl never.
#[local] Arguments calculate_current_values : simpl never.
#[local] Arguments calculate_current_depreciation : simpl never.

Ltac munfold_w :=
  unfold get_self, set_self, on_world, lift_result in *;
  unfold mbind, M_bind, result_bind, mret, M_ret, result_ret, gets, modify,
    raise in *; simpl in *.

Lemma money_of_cents d : is_money d → d = of_cents (coef d).
Proof. destruct d as [c e]. intros [He _]. simpl in *. by subst. Qed.

Lemma pow15_lt_prec : 10 ^ 15 < 10 ^ prec.
Proof. reflexivity. Qed.

(** The loop of the double-declining branch ends normally with a
    non-negative total. *)
Lemma declining_loop_nonneg n : ∀ yr months rate salvage remaining total,
  0 ≤ months → 0 ≤ coef rate → 0 ≤ coef salvage → 0 ≤ coef total →
  ∃ t, declining_loop n yr months rate salvage remaining total = Ok t
       ∧ 0 ≤ coef t.
Proof.
  induction n as [|n IH]; intros yr months rate salvage remaining total
    Hm Hrate Hsalv Htot; cbn [declining_loop]; [eauto|].
  destruct (leb remaining salvage) eqn:Hle; [eauto|].
  pose proof (leb_false_pos _ _ Hsalv Hle) as Hrem.
  set (yd := if ltb (sub remaining (mul remaining rate)) salvage
             then sub remaining salvage else mul remaining rate).
  assert (Hyd : 0 ≤ coef yd).
  { unfold yd. destruct (ltb _ salvage).
    - apply sub_nonneg. apply leb_false_ltb. exact Hle.
    - apply mul_nonneg; [lia | exact Hrate]. }
  destruct (yr =? months / 12).
  - destruct (div_ok (of_int (months mod 12)) (of_int 12)) as [share Hshare];
      [unfold of_int; cbn [coef]; lia|].
    rewrite Hshare. unfold mbind, result_bind.
    assert (Hshare0 : 0 ≤ coef share).
    { apply (div_nonneg (of_int (months mod 12)) (of_int 12) share);
        [ unfold of_int; cbn [coef]; apply Z.mod_pos_bound; lia
        | unfold of_int; cbn [coef]; lia
        | exact Hshare ]. }
    apply IH; [exact Hm | exact Hrate | exact Hsalv |].
    apply add_nonneg; [exact Htot|]. apply mul_nonneg; assumption.
  - unfold mbind, result_bind.
    apply IH; [exact Hm | exact Hrate | exact Hsalv |].
    apply add_nonneg; assumption.
Qed.

Lemma depreciation_rate_ok a :
  0 < useful_life_years a →
  ∃ r, depreciation_rate a = Ok r ∧ 0 ≤ coef r.
Proof.
  intros Hlife. unfold depreciation_rate.
  destruct (Z.leb_spec (useful_life_years a) 0); [lia|].
  destruct (method_of a);
    match goal with |- ∃ r, div ?x ?y = _ ∧ _ =>
      destruct (div_ok x y) as [r Hr]; [simpl; lia|];
      exists r; split; [exact Hr|];
      apply (div_nonneg x y r); [simpl; lia | simpl; lia | exact Hr]
    end.
Qed.

Lemma straight_line_total_nonneg a months :
  is_money (purchase_cost a) → is_money (salvage_value a) →
  coef (salvage_value a) ≤ coef (purchase_cost a) →
  0 < useful_life_years a → 0 ≤ months →
  ∃ t, straight_line_total a months = Ok t ∧ 0 ≤ coef t.
Proof.
  intros Hc Hs Hle Hlife Hm. unfold straight_line_total.
  rewrite (money_of_cents _ Hc), (money_of_cents _ Hs).
  destruct Hc as [_ Hc], Hs as [_ Hs]. pose proof pow15_lt_prec.
  rewrite sub_cents by lia.
  set (x := mul (of_cents (coef (purchase_cost a) - coef (salvage_value a)))
                (of_int months)).
  set (y := mul (of_int (useful_life_years a)) (of_int 12)).
  assert (Hx : 0 ≤ coef x) by (apply mul_nonneg; simpl; lia).
  assert (Hy : 0 < coef y) by (apply mul_pos; simpl; lia).
  destruct (div_ok x y) as [t Ht]; [lia|].
  exists t. split; [exact Ht|]. by apply (div_nonneg x y).
Qed.

Lemma total_depreciation_of_nonneg a months :
  is_money (purchase_cost a) → is_money (salvage_value a) →
  coef (salvage_value a) ≤ coef (purchase_cost a) →
  0 < useful_life_years a → 0 ≤ months →
  ∃ t, total_depreciation_of a months = Ok t ∧ 0 ≤ coef t.
Proof.
  intros Hc Hs Hle Hlife Hm. unfold total_depreciation_of.
  destruct (method_of a) eqn:Hmethod;
    try by apply straight_line_total_nonneg.
  destruct (depreciation_rate_ok a Hlife) as (r & Hr & Hr0).
  rewrite Hr. unfold mbind, result_bind.
  apply declining_loop_nonneg; try done; try (simpl; lia);
    destruct Hs as [_ Hs]; lia.
Qed.

Lemma leb_money a b :
  is_money a → is_money b → leb a b = true → coef a ≤ coef b.
Proof.
  intros Ha Hb. rewrite (money_of_cents _ Ha), (money_of_cents _ Hb).
  simpl. apply leb_cents.
Qed.

(** [calculate_current_values] on an asset that is neither disposed nor
    sold, at a date not before the purchase. *)
Lemma calculate_current_values_floor a today :
  is_money (purchase_cost a) → is_money (salvage_value a) →
  leb (salvage_value a) (purchase_cost a) = true →
  0 < useful_life_years a →
  disposed_or_sold a = false →
  date_gtb (purchase_date a) today = false →
  ∃ a', calculate_current_values today a = Ok a' ∧ within_floor a a'.
Proof.
  intros Hc Hs Hle Hlife Hst Hdate.
  pose proof (leb_money _ _ Hs Hc Hle) as Hle'.
  unfold calculate_current_values. rewrite Hst, Hdate.
  pose proof pow15_lt_prec as Hp.
  assert (Hsub : sub (purchase_cost a) (salvage_value a)
                 = of_cents (coef (purchase_cost a) - coef (salvage_value a))).
  { rewrite (money_of_cents _ Hc) at 1. rewrite (money_of_cents _ Hs) at 1.
    destruct Hc as [_ Hc], Hs as [_ Hs]. apply sub_cents. lia. }
  destruct (Z.leb_spec (months_between today (purchase_date a)) 0) as [Hm|Hm].
  - eexists. split; [reflexivity|]. unfold within_floor.
    cbn [accumulated_depreciation current_book_value with_values].
    split; [|exact Hle].
    rewrite Hsub. apply leb_zero_cents. lia.
  - destruct (total_depreciation_of_nonneg a (months_between today (purchase_date a))
                Hc Hs Hle' Hlife ltac:(lia)) as (t & Ht & Ht0).
    rewrite Ht. unfold mbind, result_bind. rewrite Hsub.
    set (m := coef (purchase_cost a) - coef (salvage_value a)).
    assert (Hm0 : 0 ≤ m) by (unfold m; lia).
    assert (Hm1 : m < 10 ^ prec)
      by (unfold m; destruct Hc as [_ Hc], Hs as [_ Hs]; lia).
    destruct (quantize_cents_bounded (min t (of_cents m)) m) as (q & Hq & Hq0);
      [apply min_nonneg; [exact Ht0 | exact Hm0] | apply min_le_r | exact Hm1 |].
    rewrite Hq. cbv beta iota.
    assert (Hsub2 : sub (purchase_cost a) (of_cents q)
                    = of_cents (coef (purchase_cost a) - q)).
    { rewrite (money_of_cents _ Hc) at 1.
      destruct Hc as [_ Hc]. apply sub_cents. lia. }
    rewrite Hsub2.
    rewrite quantize_cents_of_cents by (destruct Hc as [_ Hc]; lia).
    eexists. split; [reflexivity|]. unfold within_floor.
    cbn [accumulated_depreciation current_book_value with_values].
    rewrite Hsub. fold m. split.
    + apply leb_cents. lia.
    + rewrite (money_of_cents _ Hs). apply leb_cents. unfold m in *. lia.
Qed.

Lemma annual_depreciation_ok a :
  0 < useful_life_years a → ∃ x, annual_depreciation a = Ok x.
Proof.
  intros Hlife. unfold annual_depreciation.
  destruct (disposed_or_sold a); [eauto|].
  destruct (method_of a) eqn:Hmeth;
    try (apply div_ok; simpl; lia).
  - destruct (leb _ zero); [eauto|].
    destruct (depreciation_rate_ok a Hlife) as (r & -> & _).
    unfold mbind, result_bind. eauto.
  - destruct (leb _ zero); [eauto|].
    destruct (depreciation_rate_ok a Hlife) as (r & -> & _).
    unfold mbind, result_bind. eauto.
Qed.

Lemma monthly_depreciation_ok a :
  0 < useful_life_years a → ∃ x, monthly_depreciation a = Ok x.
Proof.
  intros Hlife. unfold monthly_depreciation.
  destruct (annual_depreciation_ok a Hlife) as [x ->].
  unfold mbind, result_bind. apply div_ok. simpl. lia.
Qed.

Lemma calculate_current_depreciation_ok now a w :
  0 < useful_life_years a → ∃ x, calculate_current_depreciation now a w = Ok x.
Proof.
  intros Hlife. unfold calculate_current_depreciation.
  destruct (disposed_or_sold a); [eauto|].
  destruct (filter _ _); [by apply monthly_depreciation_ok | eauto].
Qed.

(** [Asset.save] recomputes the values; only the row write may fail. *)
Lemma Asset_save_floor now a w :
  is_money (purchase_cost a) → is_money (salvage_value a) →
  leb (salvage_value a) (purchase_cost a) = true →
  0 < useful_life_years a →
  disposed_or_sold a = false →
  date_gtb (purchase_date a) now = false →
  ∃ a' w' r, Asset_save now (a, w) = ((a', w'), r)
    ∧ (r = Ok tt ∨ r = Raise IntegrityError)
    ∧ within_floor a a'.
Proof.
  intros Hc Hs Hle Hlife Hst Hdate.
  unfold Asset_save, Model_save_asset. munfold_w.
  destruct (decide (asset_number a = ""%string));
    cbn [fst snd]; destruct (depreciation_method a) eqn:Hmeth;
    cbn [depreciation_method with_asset_number fst snd]; try rewrite Hmeth;
    cbn [fst snd];
    match goal with |- context [calculate_current_values now ?x] =>
      destruct (calculate_current_values_floor x now Hc Hs Hle Hlife Hst Hdate)
        as (a4 & Hcalc & Hfl);
      rewrite Hcalc
    end;
    match goal with |- context [bool_decide ?P] => destruct (bool_decide P) end;
    do 3 eexists; (split; [reflexivity|]); (split; [auto|exact Hfl]).
Qed.

(** After the monthly step either nothing was booked and the instance is
    untouched, or the instance carries the values [save] recomputed. *)
Lemma depreciation_step_floor now a w :
  is_money (purchase_cost a) → is_money (salvage_value a) →
  leb (salvage_value a) (purchase_cost a) = true →
  0 < useful_life_years a →
  disposed_or_sold a = false →
  date_gtb (purchase_date a) now = false →
  ∃ a' w' r, depreciation_step now (a, w) = ((a', w'), r)
    ∧ ((r = Ok false ∧ a' = a)
       ∨ ((r = Ok true ∨ r = Raise IntegrityError) ∧ within_floor a a')).
Proof.
  intros Hc Hs Hle Hlife Hst Hdate.
  unfold depreciation_step. munfold_w.
  destruct (calculate_current_depreciation_ok now a w Hlife) as [amt ->].
  destruct (ltb zero amt); [|do 3 eexists; split; [reflexivity|left; auto]].
  match goal with |- context [Asset_save now (?x, ?y)] =>
    destruct (Asset_save_floor now x y Hc Hs Hle Hlife Hst Hdate)
      as (a' & w' & r & Hsave & Hr & Hfl);
    rewrite Hsave
  end.
  destruct Hr as [-> | ->]; do 3 eexists; (split; [reflexivity|]);
    right; (split; [auto|exact Hfl]).
Qed.

(** C6. An asset has amounts as its columns hold them, with
    purchase_cost ≥ salvage_value ≥ 0, a positive useful life and any
    depreciation method; it is neither disposed nor sold, and the date is
    not before the purchase, however far after it. Then
    [calculate_current_values] ends normally with accumulated depreciation
    at most purchase_cost − salvage_value and a book value of at least
    the salvage value. The monthly task either books nothing and leaves
    the instance alone, or leaves it with values within the same bounds. *)
Theorem depreciation_floor (a : Asset) (today : date)
    (Hcost : is_money (purchase_cost a))
    (Hsalvage : is_money (salvage_value a))
    (Hle : leb (salvage_value a) (purchase_cost a) = true)
    (Hlife : 0 < useful_life_years a)
    (Hstatus : disposed_or_sold a = false)
    (Hdate : date_gtb (purchase_date a) today = false) :
  (∃ a', calculate_current_values today a = Ok a'
         ∧ leb (accumulated_depreciation a')
               (sub (purchase_cost a) (salvage_value a)) = true
         ∧ leb (salvage_value a) (current_book_value a') = true)
  ∧ (∀ w, ∃ a' w' r,
       depreciation_step today (a, w) = ((a', w'), r)
       ∧ ((r = Ok false ∧ a' = a)
          ∨ ((r = Ok true ∨ r = Raise IntegrityError)
             ∧ leb (accumulated_depreciation a')
                   (sub (purchase_cost a) (salvage_value a)) = true
             ∧ leb (salvage_value a) (current_book_value a') = true))).
Proof.
  split.
  - destruct (calculate_current_values_floor a today Hcost Hsalvage Hle Hlife
                Hstatus Hdate) as (a' & Hcalc & Hacc & Hbook).
    exists a'. auto.
  - intros w.
    destruct (depreciation_step_floor today a w Hcost Hsalvage Hle Hlife
                Hstatus Hdate) as (a' & w' & r & Hstep & Hres).
    exists a', w', r. split; [exact Hstep|].
    destruct Hres as [Hno | [Hr [Hacc Hbook]]]; [left; exact Hno | right; auto].
Qed.

Lemma lift_money :
  is_money (purchase_cost (lift DOUBLE_DECLINING))
  ∧ is_money (salvage_value (lift DOUBLE_DECLINING)).
Proof. split; (split; [reflexivity | cbn; lia]). Qed.

Lemma depreciation_floor_witness :
  ∃ a', calculate_current_values (mkDate 2096 7 20) (lift DOUBLE_DECLINING) = Ok a'
        ∧ leb (accumulated_depreciation a') (of_cents 900000) = true
        ∧ leb (of_cents 100000) (current_book_value a') = true.
Proof.
  exact (proj1 (depreciation_floor (lift DOUBLE_DECLINING) (mkDate 2096 7 20)
                  (proj1 lift_money) (proj2 lift_money)
                  eq_refl ltac:(cbn; lia) eq_refl eq_refl)).
Defined.

Example lift_double_declining_2096 :
  ∃ a', calculate_current_values (mkDate 2096 7 20) (lift DOUBLE_DECLINING) = Ok a'
        ∧ accumulated_depreciation a' = of_cents 900000
        ∧ current_book_value a' = of_cents 100000.
Proof. eexists. split; [vm_compute; reflexivity | split; reflexivity]. Qed.

(** Whatever the date, [DECLINING_BALANCE] takes the straight-line
    branch of [calculate_current_values]. *)
Lemma declining_balance_is_straight_line a months :
  method_of a = DECLINING_BALANCE →
  total_depreciation_of a months = straight_line_total a months.
Proof. intros H. unfold total_depreciation_of. by rewrite H. Qed.

(** C7 fails on the code: for the lift with method [DECLINING_BALANCE],
    twelve months after the purchase, [calculate_current_values] books the
    straight-line 1800.00 (9000.00 over 60 months, 12 of them elapsed);
    the declining loop with the rate 1.5 / 5 would book
    10000.00 × 0.3 = 3000.00. *)
Theorem declining_balance_not_declining :
  depreciation_rate (lift DECLINING_BALANCE) = Ok (mkDec 3 (-1))
  ∧ months_between (mkDate 2025 1 20) (purchase_date (lift DECLINING_BALANCE)) = 12
  ∧ (∃ a', calculate_current_values (mkDate 2025 1 20) (lift DECLINING_BALANCE)
           = Ok a'
           ∧ accumulated_depreciation a' = of_cents 180000)
  ∧ total_depreciation_of (lift DECLINING_BALANCE) 12
    = straight_line_total (lift DECLINING_BALANCE) 12
  ∧ spec_accumulated_depreciation (lift DECLINING_BALANCE) 12
    = Ok (of_cents 300000).
Proof.
  split; [vm_compute; reflexivity|]. split; [reflexivity|].
  split; [eexists; split; [vm_compute; reflexivity | reflexivity]|].
  split; [reflexivity | vm_compute; reflexivity].
Qed.

End Depreciation.

(** * Further properties of the ledger *)

(** Decidable side conditions on closed data. *)
Ltac decide_closed := apply (bool_decide_unpack _); vm_compute; exact I.

Section LedgerLifecycle.

Lemma upsert_entry_elem e rows : e ∈ upsert_entry e rows.
Proof.
  induction rows as [|r rows IH]; simpl.
  - apply list_elem_of_here.
  - case_decide.
    + apply list_elem_of_here.
    + apply list_elem_of_further, IH.
Qed.

Lemma upsert_entry_other e r rows :
  entry_pk r ≠ entry_pk e → r ∈ upsert_entry e rows ↔ r ∈ rows.
Proof.
  intros Hne. induction rows as [|r' rows IH]; simpl.
  - rewrite list_elem_of_singleton. split.
    + intros ->. congruence.
    + intros H. inversion H.
  - case_decide as Hpk.
    + rewrite !elem_of_cons. split.
      * intros [-> | H]; [congruence | by right].
      * intros [-> | H]; [congruence | by right].
    + rewrite !elem_of_cons, IH. tauto.
Qed.

Lemma after_lines_wf sign e s db db' :
  db_wf db → after_lines sign e s db db' → db_wf db'.
Proof.
  intros [Hk Hfk] (He & Hl & Hk' & Hacc). split; [exact Hk'|].
  unfold lines_fk in *. rewrite Hl.
  eapply Forall_impl; [exact Hfk|]. intros l [a Ha]. rewrite Hacc, Ha. eauto.
Qed.

Lemma after_lines_saved sign e s db db' :
  entry_saved e db → after_lines sign e s db db' →
  entry_saved (with_status e s) db'.
Proof.
  intros [Hn Hfree] (He & _). split; [exact Hn|].
  rewrite He, number_taken_with_status. by apply number_taken_upsert.
Qed.

Lemma after_lines_lines sign e s db db' :
  after_lines sign e s db db' → lines_all (with_status e s) db' = lines_all e db.
Proof. intros (_ & Hl & _). unfold lines_all. simpl. by rewrite Hl. Qed.

(** X1. The life of an entry runs one way for the instance the calls are
    made on. Whenever [post] succeeds, the instance was a draft and comes
    back [POSTED], its row is stored, and posting it again raises and
    changes nothing, whatever the tables hold by then. Whenever [reverse]
    then succeeds, the instance comes back [REVERSED], its row is stored,
    and both [post] and [reverse] on it raise and change nothing. *)
Theorem entry_lifecycle_one_way (e : JournalEntry) (db : DB)
    (e1 : JournalEntry) (db1 : DB)
    (Hwf : db_wf db) (Hsaved : entry_saved e db)
    (Hpost : post (e, db) = ((e1, db1), Ok tt)) :
  status e = DRAFT
  ∧ status e1 = POSTED ∧ e1 ∈ journal_entries db1
  ∧ (∀ db', ∃ msg, post (e1, db') = ((e1, db'), Raise (ValueError msg)))
  ∧ ∀ e2 db2, reverse (e1, db1) = ((e2, db2), Ok tt) →
      status e2 = REVERSED ∧ e2 ∈ journal_entries db2
      ∧ (∀ db', ∃ msg, post (e2, db') = ((e2, db'), Raise (ValueError msg)))
      ∧ (∀ db', ∃ msg, reverse (e2, db') = ((e2, db'), Raise (ValueError msg))).
Proof.
  destruct (post_ok_inv e db e1 db1 (proj1 Hwf) Hsaved Hpost)
    as (Hdraft & _ & -> & Hafter1 & _).
  pose proof (after_lines_wf _ _ _ _ _ Hwf Hafter1) as Hwf1.
  pose proof (after_lines_saved _ _ _ _ _ Hsaved Hafter1) as Hsaved1.
  split; [exact Hdraft|]. split; [reflexivity|]. split.
  { destruct Hafter1 as (-> & _). apply upsert_entry_elem. }
  split.
  { intros db'. eexists. apply post_not_draft. discriminate. }
  intros e2 db2 Hrev.
  destruct (reverse_ok_inv _ db1 e2 db2 (proj1 Hwf1) Hsaved1 Hrev)
    as (_ & -> & Hafter2 & _).
  split; [reflexivity|]. split.
  { destruct Hafter2 as (-> & _). apply upsert_entry_elem. }
  split.
  - intros db'. eexists. apply post_not_draft. discriminate.
  - intros db'. eexists. apply reverse_not_posted. discriminate.
Qed.

Lemma entry_lifecycle_one_way_witness :
  db_wf books ∧ entry_saved rent_entry books
  ∧ post (rent_entry, books) = ((with_status rent_entry POSTED, books_posted), Ok tt)
  ∧ (∃ msg, post (with_status rent_entry POSTED, books_posted)
            = ((with_status rent_entry POSTED, books_posted),
               Raise (ValueError msg)))
  ∧ reverse (with_status rent_entry POSTED, books_posted)
    = ((with_status (with_status rent_entry POSTED) REVERSED, books_reversed), Ok tt)
  ∧ (∃ msg, reverse (with_status (with_status rent_entry POSTED) REVERSED,
                     books_reversed)
            = ((with_status (with_status rent_entry POSTED) REVERSED,
                books_reversed), Raise (ValueError msg))).
Proof.
  destruct (entry_lifecycle_one_way rent_entry books _ _ books_wf rent_entry_saved
              post_books_ok)
    as (_ & _ & _ & Hpp & Hrev).
  destruct (Hrev _ _ reverse_books_ok) as (_ & _ & _ & Hrr).
  split; [exact books_wf|]. split; [exact rent_entry_saved|].
  split; [exact post_books_ok|]. split; [exact (Hpp books_posted)|].
  split; [exact reverse_books_ok | exact (Hrr books_reversed)].
Defined.

(** X2. A successful [post] writes nothing but the rows it names: the line
    table is the same, no account row appears or disappears, an account no
    line of the entry refers to keeps every column, and every row of another
    entry stays as it was. *)
Theorem post_touches_only_its_accounts (e : JournalEntry) (db : DB)
    (e' : JournalEntry) (db' : DB)
    (Hwf : db_wf db) (Hsaved : entry_saved e db)
    (Hpost : post (e, db) = ((e', db'), Ok tt)) :
  journal_lines db' = journal_lines db
  ∧ (∀ pk, is_Some (accounts db' !! pk) ↔ is_Some (accounts db !! pk))
  ∧ (∀ pk, (∀ l, l ∈ lines_all e db → account l ≠ pk) →
       accounts db' !! pk = accounts db !! pk)
  ∧ (∀ r, entry_pk r ≠ entry_pk e →
       r ∈ journal_entries db' ↔ r ∈ journal_entries db).
Proof.
  destruct (post_ok_inv e db e' db' (proj1 Hwf) Hsaved Hpost)
    as (_ & _ & _ & (He & Hl & Hk & Hacc) & _).
  split; [exact Hl|]. split; [|split].
  - intros pk. rewrite Hacc. apply fmap_is_Some.
  - intros pk Hno. rewrite Hacc.
    destruct (accounts db !! pk) as [a|]; [|reflexivity].
    cbn [fmap option_fmap option_map]. f_equal.
    by apply lines_effect_untouched.
  - intros r Hne. rewrite He. by apply upsert_entry_other.
Qed.

Lemma post_touches_only_its_accounts_witness :
  db_wf books ∧ entry_saved rent_entry books
  ∧ post (rent_entry, books) = ((with_status rent_entry POSTED, books_posted), Ok tt)
  ∧ accounts books_posted !! 3 = Some sales.
Proof.
  destruct (post_touches_only_its_accounts rent_entry books _ _ books_wf
              rent_entry_saved post_books_ok)
    as (_ & _ & Hframe & _).
  split; [exact books_wf|]. split; [exact rent_entry_saved|].
  split; [exact post_books_ok|].
  rewrite (Hframe 3); [reflexivity|].
  intros l Hl. vm_compute in Hl.
  apply elem_of_cons in Hl as [-> | Hl]; [discriminate|].
  apply elem_of_cons in Hl as [-> | Hl]; [discriminate|].
  inversion Hl.
Defined.

End LedgerLifecycle.

Section LedgerTables.

Lemma upsert_entry_pks e rows :
  NoDup (entry_pk <$> rows) → NoDup (entry_pk <$> upsert_entry e rows).
Proof.
  induction rows as [|r rows IH]; simpl; intros Hnd.
  - apply NoDup_singleton.
  - apply NoDup_cons in Hnd as [Hr Hnd]. case_decide as Hpk; simpl.
    + apply NoDup_cons. split; [by rewrite <- Hpk | exact Hnd].
    + apply NoDup_cons. split; [|by apply IH].
      rewrite list_elem_of_fmap. intros (r' & Heq & Hin).
      destruct (decide (entry_pk r' = entry_pk e)) as [He|He].
      * congruence.
      * apply upsert_entry_other in Hin; [|exact He].
        apply Hr, list_elem_of_fmap. by exists r'.
Qed.

Lemma upsert_entry_inv e r rows :
  NoDup (entry_pk <$> rows) → r ∈ upsert_entry e rows →
  r = e ∨ (r ∈ rows ∧ entry_pk r ≠ entry_pk e).
Proof.
  induction rows as [|r' rows IH]; simpl; intros Hnd Hin.
  - left. by apply list_elem_of_singleton in Hin.
  - apply NoDup_cons in Hnd as [Hr Hnd]. case_decide as Hpk.
    + apply elem_of_cons in Hin as [-> | Hin]; [by left|]. right.
      split; [by apply list_elem_of_further|].
      intros Heq. apply Hr, list_elem_of_fmap. exists r. split; [congruence | exact Hin].
    + apply elem_of_cons in Hin as [-> | Hin].
      * right. split; [apply list_elem_of_here | exact Hpk].
      * destruct (IH Hnd Hin) as [-> | [Hin' Hne]]; [by left|].
        right. split; [by apply list_elem_of_further | exact Hne].
Qed.

Lemma number_taken_false e rows :
  number_taken e rows = false ↔
  ∀ r, r ∈ rows → entry_number r = entry_number e → entry_pk r = entry_pk e.
Proof.
  unfold number_taken. induction rows as [|r rows IH]; simpl.
  - split; [|reflexivity]. intros _ r Hr. inversion Hr.
  - rewrite orb_false_iff, IH, andb_false_iff, !bool_decide_eq_false. split.
    + intros [Hr Hrows] r' Hin Hnum.
      apply elem_of_cons in Hin as [-> | Hin]; [|by apply Hrows].
      destruct Hr as [Hr|Hr]; [|congruence].
      by destruct (decide (entry_pk r = entry_pk e)).
    + intros Hall. split.
      * destruct (decide (entry_number r = entry_number e)) as [Hn|Hn]; [|by right].
        left. intros Hne. apply Hne, Hall; [apply list_elem_of_here | exact Hn].
      * intros r' Hin. apply Hall. by apply list_elem_of_further.
Qed.

Lemma number_taken_true e rows :
  number_taken e rows = true →
  ∃ r, r ∈ rows ∧ entry_pk r ≠ entry_pk e ∧ entry_number r = entry_number e.
Proof.
  unfold number_taken. rewrite existsb_exists.
  intros (r & Hin & Hb). apply andb_true_iff in Hb as [H1 H2].
  apply bool_decide_eq_true in H1, H2.
  exists r. split; [by apply list_elem_of_In | by split].
Qed.

Lemma generate_entry_number_not_blank e db :
  generate_entry_number e db ≠ ""%string.
Proof.
  assert (Happ : ∀ s t : string, t ≠ ""%string → (s ++ t)%string ≠ ""%string).
  { intros s t Ht. destruct s; [exact Ht | discriminate]. }
  unfold generate_entry_number.
  repeat first [ case_match | case_decide ]; apply Happ; discriminate.
Qed.

(** X3. [JournalEntry.save] keeps both uniqueness constraints of the entry
    table. When it ends normally the instance carries a number that is not
    blank (its own when it had one), its row is stored, and no other row has
    that number; when it does not, the error is [IntegrityError], another
    row holds the number, and the tables are as before. *)
Theorem save_keeps_entries_unique (e : JournalEntry) (db : DB)
    (Hpks : entry_pks_unique db) (Hnums : numbers_unique db) :
  (∃ e' db', JournalEntry_save (e, db) = ((e', db'), Ok tt)
      ∧ entry_pks_unique db' ∧ numbers_unique db'
      ∧ e' ∈ journal_entries db' ∧ entry_saved e' db'
      ∧ (entry_number e ≠ ""%string → e' = e)
      ∧ accounts db' = accounts db ∧ journal_lines db' = journal_lines db)
  ∨ (∃ e' r, JournalEntry_save (e, db) = ((e', db), Raise IntegrityError)
      ∧ r ∈ journal_entries db
      ∧ entry_pk r ≠ entry_pk e ∧ entry_number r = entry_number e').
Proof.
  set (e' := if decide (entry_number e = ""%string)
             then with_entry_number e (generate_entry_number e db) else e).
  assert (Hpk : entry_pk e' = entry_pk e).
  { unfold e'. by case_decide. }
  assert (Hnum : entry_number e' ≠ ""%string).
  { unfold e'. case_decide; [apply generate_entry_number_not_blank | assumption]. }
  assert (Hsave : JournalEntry_save (e, db)
                  = (let '(db', r) := Model_save_entry e' db in ((e', db'), r))).
  { unfold JournalEntry_save, e'. munfold. by case_decide. }
  rewrite Hsave. unfold Model_save_entry.
  destruct (number_taken e' (journal_entries db)) eqn:Htaken.
  - right. destruct (number_taken_true _ _ Htaken) as (r & Hin & Hne & Heq).
    exists e', r. split; [reflexivity|]. split; [exact Hin|].
    split; [by rewrite <- Hpk | exact Heq].
  - left. exists e', (set_journal_entries (upsert_entry e') db).
    split; [reflexivity|]. split; [by apply upsert_entry_pks|]. split; [|split].
    + intros r1 r2 H1 H2 Heq. simpl in H1, H2.
      pose proof (proj1 (number_taken_false _ _) Htaken) as Hfree.
      destruct (upsert_entry_inv _ _ _ Hpks H1) as [-> | [H1' Hne1]];
        destruct (upsert_entry_inv _ _ _ Hpks H2) as [-> | [H2' Hne2]].
      * reflexivity.
      * symmetry. by apply Hfree.
      * by apply Hfree.
      * by apply Hnums.
    + apply upsert_entry_elem.
    + split; [|split; [|split; reflexivity]].
      * split; [exact Hnum|]. simpl. by apply number_taken_upsert.
      * intros Hn. unfold e'. by rewrite decide_False.
Qed.

Lemma save_keeps_entries_unique_witness :
  ∃ e' db', JournalEntry_save (unnumbered_entry, books)
            = ((e', db'), Ok tt)
    ∧ entry_pks_unique db' ∧ numbers_unique db'.
Proof.
  assert (Hpks : entry_pks_unique books).
  { unfold entry_pks_unique. apply (bool_decide_unpack _). vm_compute. exact I. }
  assert (Hnums : numbers_unique books).
  { intros r1 r2 H1 H2. vm_compute in H1, H2.
    repeat (apply elem_of_cons in H1 as [-> | H1]);
      repeat (apply elem_of_cons in H2 as [-> | H2]);
      try (inversion H1; fail); try (inversion H2; fail);
      intros Heq; first [reflexivity | discriminate Heq]. }
  destruct (save_keeps_entries_unique unnumbered_entry books
              Hpks Hnums)
    as [(e' & db' & Hs & H1 & H2 & _) | (e' & r & Hs & _)].
  - exists e', db'. repeat split; assumption.
  - vm_compute in Hs. discriminate Hs.
Defined.

End LedgerTables.

Section TrialBalance.

Lemma column_sum_insert f (m : gmap Z Account) i a a' :
  m !! i = Some a → column_sum f (<[i:=a']> m) = column_sum f m + f a' - f a.
Proof.
  intros Hi. unfold column_sum.
  rewrite (map_fold_delete_L _ _ i a m); [|intros; lia|exact Hi].
  rewrite <- (insert_delete_eq m i a').
  rewrite map_fold_insert_L; [lia|intros; lia|apply lookup_delete_eq].
Qed.

Lemma column_sum_lines_effect (f : Account → Z) (g : JournalEntryLine → Z) sign ls :
  (∀ pk a l, f (line_effect sign pk a l)
             = f a + (if decide (account l = pk) then sign * g l else 0)) →
  ∀ m m' : gmap Z Account,
    Forall (λ l, is_Some (m !! account l)) ls →
    (∀ pk, m' !! pk = lines_effect sign pk ls <$> m !! pk) →
    column_sum f m' = column_sum f m + sign * foldr Z.add 0 (g <$> ls).
Proof.
  intros Hf. induction ls as [|l ls IH]; intros m m' Hfk Hacc.
  - assert (m' = m) as ->; [|simpl; lia].
    apply map_eq. intros pk. rewrite Hacc.
    destruct (m !! pk); reflexivity.
  - apply Forall_cons in Hfk as [[a Ha] Hfk].
    set (m1 := <[account l := line_effect sign (account l) a l]> m).
    assert (Hacc1 : ∀ pk, m' !! pk = lines_effect sign pk ls <$> m1 !! pk).
    { intros pk. rewrite Hacc. unfold m1.
      destruct (decide (account l = pk)) as [<-|Hne].
      - rewrite lookup_insert_eq, Ha. reflexivity.
      - rewrite lookup_insert_ne by exact Hne.
        destruct (m !! pk) as [b|]; [|reflexivity].
        cbn [fmap option_fmap option_map]. rewrite lines_effect_cons.
        unfold line_effect. by rewrite decide_False. }
    assert (Hfk1 : Forall (λ l, is_Some (m1 !! account l)) ls).
    { eapply Forall_impl; [exact Hfk|]. intros l' Hl'. unfold m1.
      destruct (decide (account l = account l')) as [<-|Hne].
      - rewrite lookup_insert_eq. eauto.
      - by rewrite lookup_insert_ne. }
    rewrite (IH m1 m' Hfk1 Hacc1). unfold m1.
    rewrite (column_sum_insert f m _ a) by exact Ha.
    rewrite Hf, decide_True by reflexivity.
    rewrite fmap_cons. cbn [foldr]. lia.
Qed.

Lemma line_effect_debit sign pk a l :
  debit_balance (line_effect sign pk a l)
  = debit_balance a + (if decide (account l = pk) then sign * debit_amount l else 0).
Proof. unfold line_effect. case_decide; simpl; lia. Qed.

Lemma line_effect_credit sign pk a l :
  credit_balance (line_effect sign pk a l)
  = credit_balance a + (if decide (account l = pk) then sign * credit_amount l else 0).
Proof. unfold line_effect. case_decide; simpl; lia. Qed.

Lemma after_lines_sums sign e s db db' :
  db_wf db → after_lines sign e s db db' →
  sum_debit_balances db' = sum_debit_balances db + sign * total_debits (lines_all e db)
  ∧ sum_credit_balances db'
    = sum_credit_balances db + sign * total_credits (lines_all e db).
Proof.
  intros [_ Hfk] (_ & _ & _ & Hacc).
  pose proof (lines_all_fk e db Hfk) as Hfk'. split.
  - apply (column_sum_lines_effect debit_balance debit_amount sign _
             (line_effect_debit sign) _ _ Hfk' Hacc).
  - apply (column_sum_lines_effect credit_balance credit_amount sign _
             (line_effect_credit sign) _ _ Hfk' Hacc).
Qed.

(** X4. Posting keeps the books in balance. A successful [post] raises the
    sum of the debit totals of all accounts by the debits of the entry and
    the sum of the credit totals by its credits, which are equal, so the
    difference of the two sums stays; a successful [reverse] of the posted
    entry brings both sums back to what they were. *)
Theorem post_keeps_books_in_balance (e : JournalEntry) (db : DB)
    (e1 : JournalEntry) (db1 : DB)
    (Hwf : db_wf db) (Hsaved : entry_saved e db)
    (Hpost : post (e, db) = ((e1, db1), Ok tt)) :
  sum_debit_balances db1
  = sum_debit_balances db + total_debits (lines_all e db)
  ∧ sum_credit_balances db1
    = sum_credit_balances db + total_credits (lines_all e db)
  ∧ sum_debit_balances db1 - sum_credit_balances db1
    = sum_debit_balances db - sum_credit_balances db
  ∧ ∀ e2 db2, reverse (e1, db1) = ((e2, db2), Ok tt) →
      sum_debit_balances db2 = sum_debit_balances db
      ∧ sum_credit_balances db2 = sum_credit_balances db.
Proof.
  destruct (post_ok_inv e db e1 db1 (proj1 Hwf) Hsaved Hpost)
    as (_ & Hbal & -> & Hafter1 & _).
  pose proof (after_lines_wf _ _ _ _ _ Hwf Hafter1) as Hwf1.
  pose proof (after_lines_saved _ _ _ _ _ Hsaved Hafter1) as Hsaved1.
  destruct (after_lines_sums _ _ _ _ _ Hwf Hafter1) as [Hd1 Hc1].
  unfold balanced in Hbal.
  split; [lia|]. split; [lia|]. split; [lia|].
  intros e2 db2 Hrev.
  destruct (reverse_ok_inv _ db1 e2 db2 (proj1 Hwf1) Hsaved1 Hrev)
    as (_ & _ & Hafter2 & _).
  destruct (after_lines_sums _ _ _ _ _ Hwf1 Hafter2) as [Hd2 Hc2].
  rewrite (after_lines_lines _ _ _ _ _ Hafter1) in Hd2, Hc2.
  split; lia.
Qed.

Lemma post_keeps_books_in_balance_witness :
  db_wf books ∧ entry_saved rent_entry books
  ∧ post (rent_entry, books) = ((with_status rent_entry POSTED, books_posted), Ok tt)
  ∧ sum_debit_balances books_posted - sum_credit_balances books_posted
    = sum_debit_balances books - sum_credit_balances books.
Proof.
  destruct (post_keeps_books_in_balance rent_entry books _ _ books_wf
              rent_entry_saved post_books_ok)
    as (_ & _ & Hd & _).
  split; [exact books_wf|]. split; [exact rent_entry_saved|].
  split; [exact post_books_ok | exact Hd].
Defined.

End TrialBalance.

Section LineCreation.

(** X5. Reversing does not take back what creating the lines added. The
    lines of an entry that has none yet are created from the caller's
    instances, each showing its stored row and no two standing for one
    row; the entry is then posted and reversed. Whenever the three calls
    end normally, every account of those instances is left with its debit
    and credit totals raised by the amounts of its lines, once. *)
Theorem reverse_leaves_line_amounts (e : JournalEntry) (nls : list NewLine)
    (heap : Heap) (db : DB)
    (heap1 : Heap) (db1 : DB) (e2 : JournalEntry) (db2 : DB)
    (e3 : JournalEntry) (db3 : DB)
    (Hwf : db_wf db) (Hsaved : entry_saved e db)
    (Hnone : lines_all e db = [])
    (Hsync : heap_synced heap db) (Hna : heap_no_alias heap)
    (Hrun : create_lines (entry_pk e) nls (heap, db) = ((heap1, db1), Ok tt))
    (Hpost : post (e, db1) = ((e2, db2), Ok tt))
    (Hrev : reverse (e2, db2) = ((e3, db3), Ok tt)) :
  status e3 = REVERSED
  ∧ ∀ loc o, heap !! loc = Some o →
      ∃ o3, accounts db3 !! account_pk o = Some o3
            ∧ debit_balance o3 = debit_balance o + new_debits loc nls
            ∧ credit_balance o3 = credit_balance o + new_credits loc nls.
Proof.
  destruct (create_lines_inv (entry_pk e) nls heap db heap1 db1 Hsync Hna Hrun)
    as (He1 & Hl1 & Hpk1 & Hacc1 & Hbound & _).
  destruct (after_create_ready e nls heap db db1 Hwf Hsaved Hnone Hsync Hbound
              He1 Hl1 Hacc1) as (Hwf1 & Hsaved1 & Hlines).
  destruct (post_ok_inv e db1 e2 db2 (proj1 Hwf1) Hsaved1 Hpost)
    as (_ & _ & -> & Hafter2 & _).
  pose proof (after_lines_wf _ _ _ _ _ Hwf1 Hafter2) as Hwf2.
  pose proof (after_lines_saved _ _ _ _ _ Hsaved1 Hafter2) as Hsaved2.
  destruct (reverse_ok_inv _ db2 e3 db3 (proj1 Hwf2) Hsaved2 Hrev)
    as (_ & -> & Hafter3 & _).
  split; [reflexivity|].
  intros loc o Ho.
  destruct Hafter3 as (_ & _ & _ & Hacc3). destruct Hafter2 as (_ & Hl2 & _ & Hacc2).
  assert (Hlines2 : lines_all (with_status e POSTED) db2 = lines_all e db1).
  { unfold lines_all. simpl. by rewrite Hl2. }
  rewrite Hlines2, Hlines in Hacc3. rewrite Hlines in Hacc2.
  eexists. split.
  { rewrite Hacc3, Hacc2, Hacc1, (Hsync _ _ Ho). reflexivity. }
  rewrite !(proj1 (lines_effect_totals _ _ _ _)), !(proj2 (lines_effect_totals _ _ _ _)).
  destruct (line_totals_new (entry_pk e) heap loc o nls Hna Hbound Ho) as [-> ->].
  lia.
Qed.

Lemma reverse_leaves_line_amounts_witness :
  let s1 := create_lines 7 rent_lines (rent_heap, books_no_lines) in
  let s2 := post (rent_entry, snd (fst s1)) in
  let s3 := reverse (fst s2) in
  db_wf books_no_lines ∧ entry_saved rent_entry books_no_lines
  ∧ lines_all rent_entry books_no_lines = []
  ∧ heap_synced rent_heap books_no_lines ∧ heap_no_alias rent_heap
  ∧ snd s1 = Ok tt ∧ snd s2 = Ok tt ∧ snd s3 = Ok tt
  ∧ ∃ o3, accounts (snd (fst s3)) !! 2 = Some o3
          ∧ debit_balance o3 = debit_balance rent + 45000.
Proof.
  intros s1 s2 s3.
  assert (H1 : s1 = ((fst (fst s1), snd (fst s1)), Ok tt)) by (by vm_compute).
  assert (H2 : s2 = ((fst (fst s2), snd (fst s2)), Ok tt)) by (by vm_compute).
  assert (H3 : reverse (fst (fst s2), snd (fst s2))
               = ((fst (fst s3), snd (fst s3)), Ok tt)) by (by vm_compute).
  destruct (reverse_leaves_line_amounts rent_entry rent_lines rent_heap
              books_no_lines _ _ _ _ _ _ books_no_lines_wf
              rent_entry_saved_no_lines eq_refl rent_heap_synced
              rent_heap_no_alias H1 H2 H3) as [_ Hall].
  split; [exact books_no_lines_wf|]. split; [exact rent_entry_saved_no_lines|].
  split; [reflexivity|]. split; [exact rent_heap_synced|].
  split; [exact rent_heap_no_alias|].
  split; [by vm_compute|]. split; [by vm_compute|]. split; [by vm_compute|].
  destruct (Hall 0%nat rent eq_refl) as (o3 & Ho3 & Hd & _).
  exists o3. split; [exact Ho3 | exact Hd].
Defined.

(** X6. Two lines on one account, both saved normally. Created from two
    instances that show the same row, the second [save] writes its instance
    over the first: both rows are in the line table, but the account
    carries only the amounts of the second line. Created from one
    instance, the account carries both. *)
Theorem second_instance_loses_first_line (a : Account) (je d1 c1 d2 c2 : Z)
    (db db1 db2 : DB) (a1 a2 : Account) (heap3 : Heap) (db3 : DB)
    (Hfirst : JournalEntryLine_save (mkLineObj je a d1 c1) db = (db1, Ok a1))
    (Hsecond : JournalEntryLine_save (mkLineObj je a d2 c2) db1 = (db2, Ok a2))
    (Hshared : create_lines je [mkNewLine 0 d1 c1; mkNewLine 0 d2 c2]
                 ({[ 0%nat := a ]}, db) = ((heap3, db3), Ok tt)) :
  (journal_lines db2
   = journal_lines db
     ++ [mkLine je (account_pk a) d1 c1; mkLine je (account_pk a) d2 c2]
   ∧ ∃ r, accounts db2 !! account_pk a = Some r
          ∧ debit_balance r = debit_balance a + d2
          ∧ credit_balance r = credit_balance a + c2)
  ∧ (journal_lines db3
     = journal_lines db
       ++ [mkLine je (account_pk a) d1 c1; mkLine je (account_pk a) d2 c2]
     ∧ ∃ r, accounts db3 !! account_pk a = Some r
            ∧ debit_balance r = debit_balance a + d1 + d2
            ∧ credit_balance r = credit_balance a + c1 + c2).
Proof.
  split.
  - rewrite JournalEntryLine_save_run in Hfirst. cbn zeta in Hfirst.
    destruct (account_fits _); [|discriminate]. injection Hfirst as <- _.
    rewrite JournalEntryLine_save_run in Hsecond. cbn zeta in Hsecond.
    destruct (account_fits _); [|discriminate]. injection Hsecond as <- _.
    cbn. split; [by rewrite <- app_assoc|].
    eexists. rewrite lookup_insert_eq. split; [reflexivity|]. cbn. split; reflexivity.
  - cbn [create_lines] in Hshared. unfold mbind, M_bind in Hshared.
    rewrite (create_line_run je _ _ db a) in Hshared by apply lookup_insert_eq.
    cbn zeta in Hshared.
    destruct (account_fits _); [|discriminate].
    erewrite create_line_run in Hshared by apply lookup_insert_eq.
    cbn zeta in Hshared.
    destruct (account_fits _); [|discriminate].
    unfold mret, M_ret in Hshared. injection Hshared as _ <-.
    cbn. split; [by rewrite <- app_assoc|].
    eexists. rewrite lookup_insert_eq. split; [reflexivity|]. cbn. split; lia.
Qed.

Lemma second_instance_loses_first_line_witness :
  let db1 := fst (JournalEntryLine_save (mkLineObj 7 cash 1000 0) books_no_lines) in
  let db2 := fst (JournalEntryLine_save (mkLineObj 7 cash 0 500) db1) in
  let db3 := snd (fst (create_lines 7 [mkNewLine 0 1000 0; mkNewLine 0 0 500]
                         ({[ 0%nat := cash ]}, books_no_lines))) in
  is_ok (snd (JournalEntryLine_save (mkLineObj 7 cash 1000 0) books_no_lines)) = true
  ∧ is_ok (snd (JournalEntryLine_save (mkLineObj 7 cash 0 500) db1)) = true
  ∧ is_ok (snd (create_lines 7 [mkNewLine 0 1000 0; mkNewLine 0 0 500]
                  ({[ 0%nat := cash ]}, books_no_lines))) = true
  ∧ (∃ r, accounts db2 !! 1 = Some r
          ∧ debit_balance r = 150000 + 0 ∧ credit_balance r = 30000 + 500)
  ∧ (∃ r, accounts db3 !! 1 = Some r
          ∧ debit_balance r = 150000 + 1000 + 0
          ∧ credit_balance r = 30000 + 0 + 500).
Proof.
  intros db1 db2 db3.
  split; [reflexivity|]. split; [reflexivity|]. split; [reflexivity|].
  destruct (second_instance_loses_first_line cash 7 1000 0 0 500
              books_no_lines db1 db2
              (account_after_save (mkLineObj 7 cash 1000 0))
              (account_after_save (mkLineObj 7 cash 0 500))
              (fst (fst (create_lines 7 [mkNewLine 0 1000 0; mkNewLine 0 0 500]
                           ({[ 0%nat := cash ]}, books_no_lines))))
              db3)
    as [[_ H2] [_ H3]]; [by vm_compute | by vm_compute | by vm_compute |].
  split; [exact H2 | exact H3].
Defined.

End LineCreation.

(** * The journal entry of an expense *)

Section ExpenseJournal.

Import Expenses.

Lemma JournalEntry_save_eq e db :
  JournalEntry_save (e, db)
  = (let e' := if decide (entry_number e = ""%string)
               then with_entry_number e (generate_entry_number e db) else e in
     let '(db', r) := Model_save_entry e' db in ((e', db'), r)).
Proof. unfold JournalEntry_save. munfold. by case_decide. Qed.

Lemma filter_none {A} (P : A → Prop) `{∀ x, Decision (P x)} (l : list A) :
  Forall (λ x, ¬ P x) l → filter P l = [].
Proof.
  induction 1 as [|x l Hx Hl IH]; [reflexivity|].
  by rewrite filter_cons_False.
Qed.

Lemma foldr_max_ge (l : list Z) x : x ∈ l → x ≤ foldr Z.max 0 l.
Proof.
  induction l as [|y l IH]; intros Hx; [inversion Hx|].
  apply elem_of_cons in Hx as [-> | Hx]; simpl; [lia|].
  specialize (IH Hx). lia.
Qed.

Lemma next_entry_pk_fresh db r :
  r ∈ journal_entries db → entry_pk r ≠ Assets.next_entry_pk db.
Proof.
  intros Hr. unfold Assets.next_entry_pk.
  assert (entry_pk r ≤ foldr Z.max 0 (entry_pk <$> journal_entries db)); [|lia].
  apply foldr_max_ge, list_elem_of_fmap. by exists r.
Qed.

Lemma next_account_pk_fresh db : accounts db !! next_account_pk db = None.
Proof.
  destruct (accounts db !! next_account_pk db) as [a|] eqn:Ha; [|reflexivity].
  exfalso. unfold next_account_pk in Ha.
  set (ks := fst <$> map_to_list (accounts db)) in *.
  assert (1 + foldr Z.max 0 ks ≤ foldr Z.max 0 ks); [|lia].
  apply foldr_max_ge. unfold ks. apply list_elem_of_fmap.
  exists (1 + foldr Z.max 0 ks, a). split; [reflexivity|].
  by apply elem_of_map_to_list.
Qed.

Lemma get_account_by_code_inv c db db' a :
  Assets.get_account_by_code c db = (db', Ok a) →
  db' = db ∧ code a = c ∧ ∃ pk, accounts db !! pk = Some a.
Proof.
  unfold Assets.get_account_by_code.
  destruct (filter _ _) as [|kv rest] eqn:Hf; [discriminate|].
  intros [= <- <-].
  assert (Hin : kv ∈ filter (λ kv, code (snd kv) = c) (map_to_list (accounts db))).
  { rewrite Hf. apply list_elem_of_here. }
  apply list_elem_of_filter in Hin as [Hc Hin].
  split; [reflexivity|]. split; [exact Hc|].
  exists (fst kv). apply elem_of_map_to_list. by destruct kv.
Qed.

(** What [get_or_create] returns and leaves. *)
Lemma Account_get_or_create_spec c t db :
  accounts_keyed db →
  ∃ a db1, Account_get_or_create c t db = (db1, Ok a)
    ∧ code a = c
    ∧ accounts db1 !! account_pk a = Some a
    ∧ (accounts db !! account_pk a = Some a
       ∨ (accounts db !! account_pk a = None
          ∧ debit_balance a = 0 ∧ credit_balance a = 0))
    ∧ (∀ pk, pk ≠ account_pk a → accounts db1 !! pk = accounts db !! pk)
    ∧ accounts_keyed db1
    ∧ journal_entries db1 = journal_entries db
    ∧ journal_lines db1 = journal_lines db.
Proof.
  intros Hk. unfold Account_get_or_create.
  destruct (Assets.get_account_by_code c db) as [db0 [a|x]] eqn:Hget.
  - destruct (get_account_by_code_inv _ _ _ _ Hget) as (-> & Hc & pk & Hpk).
    pose proof (Hk _ _ Hpk) as Hpk'. simpl in Hpk'. subst pk.
    exists a, db. repeat split; auto.
  - set (a := mkAccount (next_account_pk db) c t 0 0 0).
    exists a, (set_accounts (<[account_pk a := a]>) db).
    split; [reflexivity|]. split; [reflexivity|].
    split; [apply lookup_insert_eq|].
    split; [right; split; [apply next_account_pk_fresh | split; reflexivity]|].
    split; [intros pk Hne; simpl; by rewrite lookup_insert_ne|].
    split; [|split; reflexivity].
    intros pk b. simpl. destruct (decide (next_account_pk db = pk)) as [<-|Hne].
    + rewrite lookup_insert_eq. by intros [= <-].
    + rewrite lookup_insert_ne by exact Hne. apply Hk.
Qed.

Lemma objects_create_inv number d t s sm sid total db db' je :
  Assets.JournalEntry_objects_create number d t s sm sid total db = (db', Ok je) →
  entry_pk je = Assets.next_entry_pk db
  ∧ status je = s
  ∧ entry_saved je db'
  ∧ je ∈ journal_entries db'
  ∧ (∀ r, r ∈ journal_entries db → r ∈ journal_entries db')
  ∧ accounts db' = accounts db
  ∧ journal_lines db' = journal_lines db.
Proof.
  unfold Assets.JournalEntry_objects_create. rewrite JournalEntry_save_eq.
  set (e := mkEntry _ _ _ _ _ _ _ _).
  set (e' := if decide (entry_number e = ""%string)
             then with_entry_number e (generate_entry_number e db) else e).
  assert (Hpk : entry_pk e' = Assets.next_entry_pk db).
  { unfold e'. by case_decide. }
  assert (Hst : status e' = s).
  { unfold e'. by case_decide. }
  assert (Hnum : entry_number e' ≠ ""%string).
  { unfold e'. case_decide; [apply generate_entry_number_not_blank | assumption]. }
  cbv zeta. unfold Model_save_entry.
  destruct (number_taken e' (journal_entries db)) eqn:Htaken; [discriminate|].
  intros [= <- <-]. split; [exact Hpk|]. split; [exact Hst|].
  split; [split; [exact Hnum|]; simpl; by apply number_taken_upsert|].
  split; [apply upsert_entry_elem|].
  split; [|split; reflexivity].
  intros r Hr. simpl. apply upsert_entry_other; [|exact Hr].
  rewrite Hpk. by apply next_entry_pk_fresh.
Qed.

Lemma objects_create_raise number d t s sm sid total db db' x :
  Assets.JournalEntry_objects_create number d t s sm sid total db = (db', Raise x) →
  db' = db.
Proof.
  unfold Assets.JournalEntry_objects_create. rewrite JournalEntry_save_eq.
  cbv zeta. unfold Model_save_entry.
  destruct (number_taken _ _); [|discriminate]. by intros [= <-].
Qed.

Lemma line_create_eq je acct d c db :
  Assets.JournalEntryLine_objects_create je acct d c db
  = (let acct' := with_balances acct
                    (derived_balance (account_type acct)
                       (debit_balance acct + d) (credit_balance acct + c))
                    (debit_balance acct + d) (credit_balance acct + c) in
     let rows := journal_lines db ++ [mkLine (entry_pk je) (account_pk acct) d c] in
     if account_fits acct'
     then (mkDB (<[account_pk acct := acct']> (accounts db))
                (journal_entries db) rows, Ok tt)
     else (mkDB (accounts db) (journal_entries db) rows, Raise DecimalException)).
Proof.
  unfold Assets.JournalEntryLine_objects_create.
  unfold mbind, M_bind. rewrite JournalEntryLine_save_run. cbn zeta.
  unfold account_after_save. cbn [lo_account lo_debit_amount lo_credit_amount].
  by destruct (account_fits _).
Qed.

(** The run of the [try] block when it returns an entry: the accounts are
    found or made, the entry and its two lines are stored, and [post]
    went through. *)
Lemma expense_journal_run cats x db db' je' :
  db_wf db → lines_entry_fk db →
  expense_journal cats x db = (db', Ok je') →
  ∃ ea pa je,
    je' = with_status je POSTED
    ∧ code ea = "5100"%string
    ∧ code pa = payment_account_code (payment_method x)
    ∧ status je = DRAFT
    ∧ with_status je POSTED ∈ journal_entries db'
    ∧ (∀ r, r ∈ journal_entries db → r ∈ journal_entries db')
    ∧ journal_lines db'
      = journal_lines db
        ++ [mkLine (entry_pk je) (account_pk ea) (amount x) 0;
            mkLine (entry_pk je) (account_pk pa) 0 (amount x)]
    ∧ account_pk ea ≠ account_pk pa
    ∧ (∃ ea', accounts db' !! account_pk ea = Some ea'
         ∧ code ea' = "5100"%string
         ∧ debit_balance ea'
           = from_option debit_balance 0 (accounts db !! account_pk ea)
             + 2 * amount x
         ∧ credit_balance ea'
           = from_option credit_balance 0 (accounts db !! account_pk ea))
    ∧ (∃ pa', accounts db' !! account_pk pa = Some pa'
         ∧ code pa' = payment_account_code (payment_method x)
         ∧ credit_balance pa'
           = from_option credit_balance 0 (accounts db !! account_pk pa)
             + 2 * amount x
         ∧ debit_balance pa'
           = from_option debit_balance 0 (accounts db !! account_pk pa)).
Proof.
  intros [Hk Hfk] Hefk Hrun.
  assert (H5 : "5000"%string ∈ cats).
  { destruct (decide ("5000"%string ∈ cats)) as [H5|H5]; [exact H5|].
    exfalso. unfold expense_journal, get_category, mbind, M_bind in Hrun.
    rewrite (bool_decide_eq_false_2 _ H5) in Hrun. discriminate Hrun. }
  assert (H1 : "1000"%string ∈ cats).
  { destruct (decide ("1000"%string ∈ cats)) as [H1|H1]; [exact H1|].
    exfalso. unfold expense_journal, get_category, mbind, M_bind in Hrun.
    rewrite (bool_decide_eq_true_2 _ H5), (bool_decide_eq_false_2 _ H1) in Hrun.
    discriminate Hrun. }
  destruct (Account_get_or_create_spec "5100" EXPENSE db Hk)
    as (ea & db1 & Hgoc1 & Hce & Hea1 & Hea0 & Hoth1 & Hk1 & He1 & Hl1).
  destruct (Account_get_or_create_spec
              (payment_account_code (payment_method x)) ASSET db1 Hk1)
    as (pa & db2 & Hgoc2 & Hcp & Hpa2 & Hpa1 & Hoth2 & Hk2 & He2 & Hl2).
  assert (Hne : account_pk ea ≠ account_pk pa).
  { intros Heq. rewrite <- Heq, Hea1 in Hpa1.
    destruct Hpa1 as [[= Hsame] | [[=] _]].
    rewrite <- Hsame, Hce in Hcp. by destruct (payment_method x). }
  assert (Hea2 : accounts db2 !! account_pk ea = Some ea).
  { by rewrite Hoth2. }
  assert (Hgrow : ∀ pk a, accounts db !! pk = Some a → accounts db2 !! pk = Some a).
  { intros pk a Ha.
    assert (accounts db1 !! pk = Some a) as Ha1.
    { destruct (decide (pk = account_pk ea)) as [->|Hn]; [|by rewrite Hoth1].
      destruct Hea0 as [H0 | [H0 _]]; congruence. }
    destruct (decide (pk = account_pk pa)) as [->|Hn]; [|by rewrite Hoth2].
    destruct Hpa1 as [H0 | [H0 _]]; congruence. }
  assert (Hrun0 : expense_journal cats x db
    = (journal_entry ← Assets.JournalEntry_objects_create "" (expense_date x)
                         AUTO DRAFT "expenses.Expense" (expense_id x) (amount x);
       _ ← Assets.JournalEntryLine_objects_create journal_entry ea (amount x) 0;
       _ ← Assets.JournalEntryLine_objects_create journal_entry pa 0 (amount x);
       post_instance journal_entry) db2).
  { unfold expense_journal, get_category.
    rewrite !bool_decide_eq_true_2 by assumption.
    unfold mbind at 1 2 3 4. unfold M_bind at 1 2 3 4.
    unfold mret at 1 2. unfold M_ret at 1 2.
    rewrite Hgoc1, Hgoc2. reflexivity. }
  rewrite Hrun0 in Hrun. clear Hrun0.
  unfold mbind at 1 in Hrun. unfold M_bind at 1 in Hrun.
  destruct (Assets.JournalEntry_objects_create "" (expense_date x) AUTO DRAFT
              "expenses.Expense" (expense_id x) (amount x) db2)
    as [db3 [je|e]] eqn:Hcreate; [|discriminate].
  destruct (objects_create_inv _ _ _ _ _ _ _ _ _ _ Hcreate)
    as (Hjpk & Hjst & Hjsaved & Hjin & Hkeep3 & Hacc3 & Hl3).
  set (ea' := with_balances ea
                 (derived_balance (account_type ea)
                    (debit_balance ea + amount x) (credit_balance ea + 0))
                 (debit_balance ea + amount x) (credit_balance ea + 0)) in *.
  set (pa' := with_balances pa
               (derived_balance (account_type pa)
                  (debit_balance pa + 0) (credit_balance pa + amount x))
               (debit_balance pa + 0) (credit_balance pa + amount x)) in *.
  set (l1 := mkLine (entry_pk je) (account_pk ea) (amount x) 0).
  set (l2 := mkLine (entry_pk je) (account_pk pa) 0 (amount x)).
  unfold mbind at 1 in Hrun. unfold M_bind at 1 in Hrun.
  rewrite line_create_eq in Hrun. cbn zeta in Hrun. fold ea' l1 in Hrun.
  destruct (account_fits ea'); [|discriminate].
  unfold mbind at 1 in Hrun. unfold M_bind at 1 in Hrun.
  rewrite line_create_eq in Hrun. cbn zeta in Hrun.
  cbn [accounts journal_entries journal_lines] in Hrun. fold pa' l2 in Hrun.
  destruct (account_fits pa'); [|discriminate].
  match type of Hrun with post_instance je ?d = _ => set (db5 := d) in * end.
  assert (Hd5 : db5 = mkDB (<[account_pk pa := pa']> (<[account_pk ea := ea']> (accounts db3)))
                       (journal_entries db3) ((journal_lines db3 ++ [l1]) ++ [l2]))
    by reflexivity.
  clearbody db5.
  assert (Hold : lines_all je db2 = []).
  { unfold lines_all. rewrite Hl2, Hl1.
    apply filter_none. unfold lines_entry_fk in Hefk.
    eapply Forall_impl; [exact Hefk|]. intros l (r & Hr & Hrl) Hl.
    apply (next_entry_pk_fresh db2 r); [by rewrite He2, He1|].
    rewrite <- Hjpk. congruence. }
  assert (Hlines : lines_all je db5 = [l1; l2]).
  { unfold lines_all in *. rewrite Hd5. cbn [journal_lines].
    rewrite Hl3, <- app_assoc, filter_app, Hold. cbn [app].
    rewrite !filter_cons_True by reflexivity. by rewrite filter_nil. }
  assert (H5e : accounts db5 !! account_pk ea = Some ea').
  { rewrite Hd5. cbn [accounts].
    rewrite lookup_insert_ne by (intros ?; by apply Hne).
    apply lookup_insert_eq. }
  assert (H5p : accounts db5 !! account_pk pa = Some pa').
  { rewrite Hd5. cbn [accounts]. apply lookup_insert_eq. }
  assert (H5o : ∀ pk, pk ≠ account_pk ea → pk ≠ account_pk pa →
                 accounts db5 !! pk = accounts db2 !! pk).
  { intros pk Hn1 Hn2. rewrite Hd5. cbn [accounts].
    rewrite !lookup_insert_ne by congruence. by rewrite Hacc3. }
  assert (Hk5 : accounts_keyed db5).
  { intros pk b Hb.
    destruct (decide (pk = account_pk ea)) as [->|Hn1].
    { rewrite H5e in Hb. by injection Hb as <-. }
    destruct (decide (pk = account_pk pa)) as [->|Hn2].
    { rewrite H5p in Hb. by injection Hb as <-. }
    rewrite H5o in Hb by assumption. by apply (Hk2 pk). }
  assert (Hsaved5 : entry_saved je db5).
  { rewrite Hd5. exact Hjsaved. }
  unfold post_instance in Hrun.
  destruct (post (je, db5)) as [[je6 db6] [[]|err]] eqn:Hpost; [|discriminate].
  cbn in Hrun. injection Hrun as <- <-.
  destruct (post_ok_inv je db5 je6 db6 Hk5 Hsaved5 Hpost)
    as (_ & _ & -> & (He6 & Hl6 & Hk6 & Hacc6) & _).
  exists ea, pa, je.
  split; [reflexivity|]. split; [exact Hce|]. split; [exact Hcp|].
  split; [exact Hjst|].
  split; [rewrite He6; apply upsert_entry_elem|].
  split.
  { intros r Hr. rewrite He6. apply upsert_entry_other.
    - change (entry_pk r ≠ entry_pk je).
      rewrite Hjpk. apply next_entry_pk_fresh. by rewrite He2, He1.
    - rewrite Hd5. cbn [journal_entries]. apply Hkeep3. by rewrite He2, He1. }
  split.
  { rewrite Hl6, Hd5. cbn [journal_lines].
    by rewrite Hl3, Hl2, Hl1, <- app_assoc. }
  split; [exact Hne|].
  rewrite Hlines in Hacc6. split.
  - eexists. split; [rewrite Hacc6, H5e; reflexivity|].
    destruct (lines_effect_invariant 1 (account_pk ea) [l1; l2] ea') as (_ & -> & _).
    rewrite (proj1 (lines_effect_totals _ _ _ _)), (proj2 (lines_effect_totals _ _ _ _)).
    unfold line_debits, line_credits, l1, l2.
    rewrite !filter_cons_True by reflexivity.
    rewrite !filter_cons_False by (simpl; congruence).
    rewrite !filter_nil. unfold total_debits, total_credits, ea'. simpl.
    split; [exact Hce|].
    destruct Hea0 as [-> | (-> & -> & ->)]; simpl; split; lia.
  - eexists. split; [rewrite Hacc6, H5p; reflexivity|].
    destruct (lines_effect_invariant 1 (account_pk pa) [l1; l2] pa') as (_ & -> & _).
    rewrite (proj1 (lines_effect_totals _ _ _ _)), (proj2 (lines_effect_totals _ _ _ _)).
    unfold line_debits, line_credits, l1, l2.
    rewrite filter_cons_False by (simpl; congruence).
    rewrite !filter_cons_True by reflexivity.
    rewrite !filter_nil. unfold total_debits, total_credits, pa'. simpl.
    split; [exact Hcp|].
    assert (Hpa0 : accounts db !! account_pk pa = accounts db1 !! account_pk pa).
    { symmetry. apply Hoth1. congruence. }
    rewrite Hpa0.
    destruct Hpa1 as [-> | (-> & -> & ->)]; simpl; split; lia.
Qed.

Lemma expense_chart_wf : db_wf expense_chart.
Proof. split; unfold accounts_keyed, lines_fk; decide_closed. Qed.

Lemma expense_chart_entry_fk : lines_entry_fk expense_chart.
Proof. apply Forall_nil_2. Qed.

(** X7. An expense is booked twice. Whenever the expense code returns a
    journal entry, that entry is stored as [POSTED] with one debit line on
    the operating-expense account "5100" and one credit line on the account
    of the payment method, both of the expense amount; and the debit total
    of the first and the credit total of the second have gone up by twice
    the amount (counted from zero for an account the call created). *)
Theorem expense_counted_twice (cats : list string) (x : Expense)
    (db db' : DB) (je : JournalEntry)
    (Hwf : db_wf db) (Hefk : lines_entry_fk db)
    (Hrun : _create_expense_journal_entry cats x db = (db', Ok (Some je))) :
  status je = POSTED ∧ je ∈ journal_entries db'
  ∧ ∃ pe pp ea pa,
      pe ≠ pp
      ∧ journal_lines db'
        = journal_lines db
          ++ [mkLine (entry_pk je) pe (amount x) 0;
              mkLine (entry_pk je) pp 0 (amount x)]
      ∧ accounts db' !! pe = Some ea ∧ code ea = "5100"%string
      ∧ accounts db' !! pp = Some pa
      ∧ code pa = payment_account_code (payment_method x)
      ∧ debit_balance ea
        = from_option debit_balance 0 (accounts db !! pe) + 2 * amount x
      ∧ credit_balance ea = from_option credit_balance 0 (accounts db !! pe)
      ∧ credit_balance pa
        = from_option credit_balance 0 (accounts db !! pp) + 2 * amount x
      ∧ debit_balance pa = from_option debit_balance 0 (accounts db !! pp).
Proof.
  unfold _create_expense_journal_entry, try_except in Hrun.
  unfold mbind, M_bind in Hrun.
  destruct (expense_journal cats x db) as [db0 [je0|e]] eqn:Heq.
  2:{ discriminate Hrun. }
  injection Hrun as <- <-.
  destruct (expense_journal_run cats x db db0 je0 Hwf Hefk Heq)
    as (ea & pa & je & -> & _ & _ & _ & Hin & _ & Hlines & Hne & Hea & Hpa).
  split; [reflexivity|]. split; [exact Hin|].
  destruct Hea as (ea' & Hea & Hce & Hd & Hc).
  destruct Hpa as (pa' & Hpa & Hcp & Hc' & Hd').
  exists (account_pk ea), (account_pk pa), ea', pa'.
  repeat split; assumption.
Qed.

Lemma expense_counted_twice_witness :
  let run := _create_expense_journal_entry expense_categories fuel_expense
               expense_chart in
  ∃ je, snd run = Ok (Some je) ∧ status je = POSTED
    ∧ ∃ pe ea, accounts (fst run) !! pe = Some ea ∧ code ea = "5100"%string
        ∧ debit_balance ea
          = from_option debit_balance 0 (accounts expense_chart !! pe)
            + 2 * 12000.
Proof.
  intros run.
  set (je := mkEntry 1 "2025-000001" (mkDate 2025 4 2) AUTO POSTED
               "expenses.Expense" "e7" 12000).
  assert (Hrun : run = (fst run, Ok (Some je))) by (vm_compute; reflexivity).
  destruct (expense_counted_twice expense_categories fuel_expense expense_chart
              (fst run) je expense_chart_wf expense_chart_entry_fk Hrun)
    as (Hst & _ & pe & pp & ea & pa & _ & _ & Hea & Hce & _ & _ & Hd & _).
  exists je. split; [by rewrite Hrun|]. split; [exact Hst|].
  exists pe, ea. split; [exact Hea|]. split; [exact Hce | exact Hd].
Defined.

(** X8. A failure of the expense journal is silent, and nothing is rolled
    back. The call never raises. When one of the two account categories is
    missing it returns [None] and writes nothing at all. A [None] does not
    mean that nothing was booked: for an expense of 0.01 against an
    operating-expense account at the top of its columns the call returns
    [None] and leaves a draft entry and its debit line stored. *)
Theorem expense_failure_is_silent (cats : list string) (x : Expense) (db : DB) :
  (∃ db' r, _create_expense_journal_entry cats x db = (db', Ok r))
  ∧ ("5000"%string ∉ cats ∨ "1000"%string ∉ cats →
       _create_expense_journal_entry cats x db = (db, Ok None))
  ∧ (let '(db', r) := _create_expense_journal_entry expense_categories
                        small_expense expense_chart_at_limit in
     r = Ok None
     ∧ journal_entries expense_chart_at_limit = []
     ∧ journal_lines expense_chart_at_limit = []
     ∧ journal_entries db'
       = [mkEntry 1 "2025-000001" (mkDate 2025 4 2) AUTO DRAFT
            "expenses.Expense" "e8" 1]
     ∧ journal_lines db' = [mkLine 1 2 1 0]
     ∧ accounts db' = accounts expense_chart_at_limit).
Proof.
  split; [|split].
  - unfold _create_expense_journal_entry, try_except, mbind, M_bind.
    destruct (expense_journal cats x db) as [db' [je|e]]; eauto.
  - intros Hmiss.
    unfold _create_expense_journal_entry, try_except, mbind, M_bind.
    unfold expense_journal, get_category, mbind, M_bind.
    destruct (decide ("5000"%string ∈ cats)) as [H5|H5].
    + destruct Hmiss as [H|H1]; [contradiction|].
      by rewrite (bool_decide_eq_true_2 _ H5), (bool_decide_eq_false_2 _ H1).
    + by rewrite (bool_decide_eq_false_2 _ H5).
  - vm_compute. repeat split.
Qed.

End ExpenseJournal.

(** * Advances and commissions: further properties *)

Ltac munfold_t :=
  unfold mbind, M_bind, mret, M_ret, gets, modify, raise in *.

Section AdvanceRequests.

Import Sales.

Lemma or_zero_sum xs : or_zero (aggregate_sum xs) = foldr Z.add 0 xs.
Proof.
  destruct xs as [|x xs]; [reflexivity|].
  unfold aggregate_sum, or_zero. destruct (Z.eqb_spec (foldr Z.add 0 (x :: xs)) 0); lia.
Qed.

Lemma foldr_add_app (xs ys : list Z) :
  foldr Z.add 0 (xs ++ ys) = foldr Z.add 0 xs + foldr Z.add 0 ys.
Proof. induction xs as [|x xs IH]; simpl; lia. Qed.

(** What a recorded request ran through. *)
Lemma request_advance_inv request_user today data t t' adv :
  request_advance request_user today data t = (t', Ok adv) →
  let emp := user_id (advance_employee request_user data) in
  0 < data_requested_amount data
  ∧ data_requested_amount data ≤ available_balance emp t
  ∧ adv = mkAdvance emp (data_requested_amount data) (data_requested_amount data)
            (available_balance emp t) PAID today
            (Some (user_id request_user)) (Some (user_id request_user))
  ∧ t' = mkTables (commissions t) (advance_payments t ++ [adv]).
Proof.
  unfold request_advance, AdvancePaymentCreateSerializer_create, is_valid,
    advance_employee.
  munfold_t.
  destruct (10 ^ 12 <=? Z.abs (data_requested_amount data)); [discriminate|].
  destruct (Z.leb_spec (data_requested_amount data) 0) as [|Hpos]; [discriminate|].
  destruct (data_employee data) as [e|]; cbn [default].
  - destruct (can_record_for_others request_user); [|discriminate].
    cbn [id]. destruct (existsb _ _); [discriminate|].
    destruct (Z.ltb_spec (available_balance (user_id e) t)
                (data_requested_amount data)); [discriminate|].
    rewrite advance_create_run by assumption.
    case_bool_decide; [|discriminate]. intros [= <- <-]. auto.
  - cbn [id]. destruct (existsb _ _); [discriminate|].
    destruct (Z.ltb_spec (available_balance (user_id request_user) t)
                (data_requested_amount data)); [discriminate|].
    rewrite advance_create_run by assumption.
    case_bool_decide; [|discriminate]. intros [= <- <-]. auto.
Qed.

Lemma unrecovered_advances_snoc emp cs advs a :
  unrecovered_advances emp (mkTables cs (advs ++ [a]))
  = unrecovered_advances emp (mkTables cs advs)
    + (if decide (employee a = emp ∧ (status a = APPROVED ∨ status a = PAID))
       then approved_amount a else 0).
Proof.
  unfold unrecovered_advances. rewrite !or_zero_sum. cbn [advance_payments].
  rewrite filter_app, fmap_app, foldr_add_app. f_equal.
  rewrite filter_cons, filter_nil.
  destruct (decide _); simpl; lia.
Qed.

(** X9. A recorded request draws the balance down. When the serializer
    records an advance, the amount is positive and within the balance of
    the employee, the advance is stored as paid in full, and the balance of
    that employee afterwards is the old balance less the amount; no other
    employee's balance moves and no commission changes. *)
Theorem advance_draws_down_balance (request_user : User) (today : date)
    (data : AdvanceData) (t t' : Tables) (adv : AdvancePayment)
    (Hrun : request_advance request_user today data t = (t', Ok adv)) :
  0 < approved_amount adv
  ∧ approved_amount adv = data_requested_amount data
  ∧ status adv = PAID
  ∧ advance_payments t' = advance_payments t ++ [adv]
  ∧ commissions t' = commissions t
  ∧ available_balance (employee adv) t'
    = available_balance (employee adv) t - approved_amount adv
  ∧ ∀ other, other ≠ employee adv →
      available_balance other t' = available_balance other t.
Proof.
  destruct (request_advance_inv _ _ _ _ _ _ Hrun) as (Hpos & Hle & Hadv & ->).
  set (emp := user_id (advance_employee request_user data)) in *.
  assert (He : employee adv = emp) by (by rewrite Hadv).
  assert (Ha : approved_amount adv = data_requested_amount data) by (by rewrite Hadv).
  assert (Hs : status adv = PAID) by (by rewrite Hadv).
  rewrite He, Ha. split; [exact Hpos|]. split; [reflexivity|].
  split; [exact Hs|]. split; [reflexivity|]. split; [reflexivity|].
  assert (Hp : ∀ e, pending_commission e
                      (mkTables (commissions t) (advance_payments t ++ [adv]))
                    = pending_commission e t) by reflexivity.
  assert (Hu : ∀ e, unrecovered_advances e t
                    = unrecovered_advances e
                        (mkTables (commissions t) (advance_payments t)))
    by reflexivity.
  split.
  - unfold available_balance in *. rewrite Hp, unrecovered_advances_snoc, <- Hu.
    rewrite decide_True by (rewrite He, Hs; auto). rewrite Ha. lia.
  - intros other Hne. unfold available_balance.
    rewrite Hp, unrecovered_advances_snoc, <- Hu.
    rewrite decide_False by (rewrite He; intros [? _]; congruence). lia.
Qed.

Lemma advance_draws_down_balance_witness :
  ∃ t' adv,
    request_advance technician (mkDate 2025 2 3) (mkAdvanceData None 700000)
      commission_tables = (t', Ok adv)
    ∧ available_balance 5 t' = available_balance 5 commission_tables - 700000.
Proof.
  destruct (request_advance technician (mkDate 2025 2 3) (mkAdvanceData None 700000)
              commission_tables) as [t' [adv|e]] eqn:Hrun;
    [|vm_compute in Hrun; discriminate Hrun].
  pose proof (advance_draws_down_balance _ _ _ _ _ _ Hrun)
    as (_ & Ha & _ & _ & _ & Hb & _).
  assert (He : employee adv = 5) by (vm_compute in Hrun; by injection Hrun as <- <-).
  rewrite He, Ha in Hb. exists t', adv. split; [reflexivity | exact Hb].
Defined.

(** X10. One advance a day through the serializer. Once a request has
    been recorded, every further request for the same employee on the same
    day is refused with a validation error, whoever sends it and whatever
    the amount, and the tables stay as they are. *)
Theorem one_advance_per_day (request_user : User) (today : date)
    (data : AdvanceData) (t t' : Tables) (adv : AdvancePayment)
    (Hrun : request_advance request_user today data t = (t', Ok adv)) :
  ∀ user2 data2,
    user_id (advance_employee user2 data2) = employee adv →
    ∃ msg, request_advance user2 today data2 t' = (t', Raise (ValidationError msg)).
Proof.
  destruct (request_advance_inv _ _ _ _ _ _ Hrun) as (Hpos & Hle & Hadv & ->).
  set (emp := user_id (advance_employee request_user data)) in *.
  intros user2 data2 Hsame.
  assert (He : employee adv = emp) by (by rewrite Hadv).
  assert (Hd : requested_at adv = today) by (by rewrite Hadv).
  assert (Hex : ∀ e, user_id e = employee adv →
            existsb (λ a, bool_decide (employee a = user_id e)
                          && bool_decide (requested_at a = today))
                    (advance_payments t ++ [adv]) = true).
  { intros e Heq. rewrite existsb_app. apply orb_true_iff. right.
    cbn [existsb]. rewrite orb_false_r.
    rewrite !bool_decide_eq_true_2; [reflexivity | exact Hd | by symmetry]. }
  unfold request_advance, AdvancePaymentCreateSerializer_create, is_valid.
  unfold advance_employee in Hsame. munfold_t.
  destruct (10 ^ 12 <=? Z.abs (data_requested_amount data2)); [eauto|].
  destruct (data_requested_amount data2 <=? 0); [eauto|].
  destruct (data_employee data2) as [e|]; cbn [default] in Hsame.
  - destruct (can_record_for_others user2); [|eauto].
    cbn [id advance_payments]. rewrite (Hex e Hsame). eauto.
  - cbn [id advance_payments]. rewrite (Hex user2 Hsame). eauto.
Qed.

Lemma one_advance_per_day_witness :
  ∃ t' adv,
    request_advance technician (mkDate 2025 2 3) (mkAdvanceData None 100000)
      commission_tables = (t', Ok adv)
    ∧ ∃ msg, request_advance manager (mkDate 2025 2 3)
               (mkAdvanceData (Some technician) 100) t'
             = (t', Raise (ValidationError msg)).
Proof.
  destruct (request_advance technician (mkDate 2025 2 3) (mkAdvanceData None 100000)
              commission_tables) as [t' [adv|e]] eqn:Hrun;
    [|vm_compute in Hrun; discriminate Hrun].
  exists t', adv. split; [reflexivity|].
  apply (one_advance_per_day _ _ _ _ _ _ Hrun).
  vm_compute in Hrun. by injection Hrun as <- <-.
Defined.

(** What a granted [give_advance] ran through. *)
Lemma give_advance_inv request_user today data t t' adv :
  give_advance request_user today data t = (t', Ok (Created adv)) →
  let emp := user_id (advance_employee request_user data) in
  0 < data_requested_amount data
  ∧ data_requested_amount data ≤ payable_commission emp t
  ∧ payable_commission emp t < 10 ^ 12
  ∧ adv = mkAdvance emp (data_requested_amount data) (data_requested_amount data)
            (payable_commission emp t) PAID today
            (Some (user_id request_user)) (Some (user_id request_user))
  ∧ t' = mkTables (commissions t) (advance_payments t ++ [adv]).
Proof.
  unfold give_advance, is_valid, advance_employee, payable_commission. munfold_t.
  destruct (10 ^ 12 <=? Z.abs (data_requested_amount data)); [discriminate|].
  destruct (Z.leb_spec (data_requested_amount data) 0) as [|Hpos]; [discriminate|].
  cbn [id].
  match goal with
  | |- context [?a <? ?b] => destruct (Z.ltb_spec a b); [discriminate|]
  end.
  rewrite advance_create_run by assumption.
  case_bool_decide; [|discriminate]. intros [= <- <-]. auto.
Qed.

(** X11. The direct path has no memory. When [give_advance] grants an
    advance, the payable commissions it compared with are unchanged
    afterwards, so the same request is granted again on any day, for the
    same amount, while the unrecovered advances of the employee have grown
    by the amount. *)
Theorem give_advance_repeatable (request_user : User) (today : date)
    (data : AdvanceData) (t t' : Tables) (adv : AdvancePayment)
    (Hrun : give_advance request_user today data t = (t', Ok (Created adv))) :
  payable_commission (employee adv) t' = payable_commission (employee adv) t
  ∧ unrecovered_advances (employee adv) t'
    = unrecovered_advances (employee adv) t + approved_amount adv
  ∧ ∀ day2, ∃ t'' adv2,
      give_advance request_user day2 data t' = (t'', Ok (Created adv2))
      ∧ approved_amount adv2 = approved_amount adv
      ∧ unrecovered_advances (employee adv) t''
        = unrecovered_advances (employee adv) t + 2 * approved_amount adv.
Proof.
  destruct (give_advance_inv _ _ _ _ _ _ Hrun) as (Hpos & Hle & Hfit & Hadv & ->).
  set (emp := user_id (advance_employee request_user data)) in *.
  assert (He : employee adv = emp) by (by rewrite Hadv).
  assert (Ha : approved_amount adv = data_requested_amount data) by (by rewrite Hadv).
  assert (Hs : status adv = PAID) by (by rewrite Hadv).
  assert (Hu : ∀ e, unrecovered_advances e t
                    = unrecovered_advances e
                        (mkTables (commissions t) (advance_payments t)))
    by reflexivity.
  rewrite He. split; [reflexivity|]. split.
  { rewrite unrecovered_advances_snoc, <- Hu.
    rewrite decide_True by (rewrite He, Hs; auto). reflexivity. }
  intros day2.
  set (adv2 := mkAdvance emp (data_requested_amount data) (data_requested_amount data)
                 (payable_commission emp t) PAID day2
                 (Some (user_id request_user)) (Some (user_id request_user))).
  exists (mkTables (commissions t) ((advance_payments t ++ [adv]) ++ [adv2])), adv2.
  split.
  - unfold give_advance, is_valid. munfold_t.
    destruct (Z.leb_spec (10 ^ 12) (Z.abs (data_requested_amount data))); [lia|].
    destruct (Z.leb_spec (data_requested_amount data) 0); [lia|].
    cbn [id commissions].
    fold (advance_employee request_user data). fold emp.
    fold (payable_commission emp t).
    destruct (Z.ltb_spec (payable_commission emp t) (data_requested_amount data));
      [lia|].
    rewrite advance_create_run by assumption.
    by rewrite bool_decide_eq_true_2 by exact Hfit.
  - split; [by rewrite Ha|].
    rewrite !unrecovered_advances_snoc, <- Hu.
    rewrite !decide_True by (try rewrite He, Hs; simpl; auto). simpl. lia.
Qed.

Lemma give_advance_repeatable_witness :
  ∃ t' adv t'' adv2,
    give_advance manager (mkDate 2025 2 3) (mkAdvanceData (Some technician) 800000)
      commission_tables = (t', Ok (Created adv))
    ∧ give_advance manager (mkDate 2025 2 3) (mkAdvanceData (Some technician) 800000)
        t' = (t'', Ok (Created adv2))
    ∧ approved_amount adv2 = approved_amount adv.
Proof.
  destruct (give_advance manager (mkDate 2025 2 3)
              (mkAdvanceData (Some technician) 800000) commission_tables)
    as [t' [[adv|]|e]] eqn:Hrun;
    [|vm_compute in Hrun; discriminate Hrun ..].
  destruct (give_advance_repeatable _ _ _ _ _ _ Hrun) as (_ & _ & Hagain).
  destruct (Hagain (mkDate 2025 2 3)) as (t'' & adv2 & Hrun2 & Ha & _).
  exists t', adv, t'', adv2. split; [reflexivity|]. split; [exact Hrun2 | exact Ha].
Defined.

End AdvanceRequests.

Section CommissionActions.

Import Sales SalesActions.

Lemma sum_filter_imap (P : Commission → Prop) `{∀ c, Decision (P c)} l :
  ∀ g : nat → Commission → Commission,
    (∀ i c, P (g i c) ↔ P c) →
    (∀ i c, commission_amount (g i c) = commission_amount c) →
    foldr Z.add 0 (commission_amount <$> filter P (imap g l))
    = foldr Z.add 0 (commission_amount <$> filter P l).
Proof.
  induction l as [|c l IH]; intros g HP Hamt; [reflexivity|].
  rewrite imap_cons, !filter_cons.
  specialize (IH (g ∘ S) (λ i, HP (S i)) (λ i, Hamt (S i))).
  destruct (decide (P (g 0%nat c))) as [Hg|Hg]; destruct (decide (P c)) as [Hc|Hc].
  - rewrite !fmap_cons. cbn [foldr]. rewrite IH, Hamt. reflexivity.
  - exfalso. by apply Hc, (HP 0%nat).
  - exfalso. by apply Hg, (HP 0%nat).
  - exact IH.
Qed.

Lemma sum_filter_imap_le (P : Commission → Prop) `{∀ c, Decision (P c)} l :
  ∀ g : nat → Commission → Commission,
    (∀ i c, P c → P (g i c)) →
    (∀ i c, commission_amount (g i c) = commission_amount c) →
    Forall (λ c, 0 ≤ commission_amount c) l →
    foldr Z.add 0 (commission_amount <$> filter P l)
    ≤ foldr Z.add 0 (commission_amount <$> filter P (imap g l)).
Proof.
  induction l as [|c l IH]; intros g HP Hamt Hnn; [reflexivity|].
  apply Forall_cons in Hnn as [Hc0 Hnn].
  rewrite imap_cons, !filter_cons.
  specialize (IH (g ∘ S) (λ i, HP (S i)) (λ i, Hamt (S i)) Hnn).
  destruct (decide (P (g 0%nat c))) as [Hg|Hg]; destruct (decide (P c)) as [Hc|Hc].
  - rewrite !fmap_cons. cbn [foldr]. rewrite Hamt. lia.
  - rewrite fmap_cons. cbn [foldr]. rewrite Hamt. lia.
  - exfalso. by apply Hg, (HP 0%nat).
  - exact IH.
Qed.

Lemma update_selected_lookup ids s s' rows i :
  update_selected ids s s' rows !! i
  = (λ c, if selected ids s i c then with_commission_status c s' else c)
      <$> rows !! i.
Proof. unfold update_selected. apply list_lookup_imap. Qed.

Lemma elem_of_selected_rows ids s rows c :
  c ∈ selected_rows ids s rows
  ↔ ∃ i, rows !! i = Some c ∧ i ∈ ids ∧ commission_status c = s.
Proof.
  unfold selected_rows. rewrite list_elem_of_fmap. split.
  - intros ([i c'] & -> & Hin). apply list_elem_of_filter in Hin as [Hsel Hin].
    apply elem_of_lookup_imap in Hin as (j & y & [= -> ->] & Hj).
    simpl in Hsel. unfold selected in Hsel. apply andb_true_iff in Hsel as [H1 H2].
    apply bool_decide_eq_true in H1, H2. exists j. auto.
  - intros (i & Hi & Hids & Hs). exists (i, c). split; [reflexivity|].
    apply list_elem_of_filter. split.
    + simpl. unfold selected. by rewrite !bool_decide_eq_true_2.
    + apply elem_of_lookup_imap. exists i, c. auto.
Qed.

Lemma none_selected ids s s' rows :
  (∀ i c, rows !! i = Some c → selected ids s i c = false) →
  update_selected ids s s' rows = rows ∧ selected_rows ids s rows = [].
Proof.
  intros Hno. split.
  - apply list_eq. intros i. rewrite update_selected_lookup.
    destruct (rows !! i) as [c|] eqn:Hc; [|reflexivity].
    simpl. by rewrite (Hno i c Hc).
  - unfold selected_rows.
    rewrite (filter_none _ (imap pair rows)); [reflexivity|].
    apply Forall_forall. intros [i c] Hin.
    apply elem_of_lookup_imap in Hin as (j & y & [= -> ->] & Hj).
    simpl. rewrite (Hno j y Hj). discriminate.
Qed.

(** X12. Marking commissions payable moves no balance. For a manager and
    a list of keys that is not empty, the call answers with a count and
    changes no advance; every employee's pending commission and available
    balance are what they were; the payable sum that [give_advance]
    compares with does not fall (commission amounts being non-negative);
    and a second call with the same keys updates nothing. *)
Theorem mark_payable_keeps_balance (request_user : User) (ids : list nat)
    (t : Tables)
    (Hrole : can_record_for_others request_user = true)
    (Hids : ids ≠ [])
    (Hnonneg : Forall (λ c, 0 ≤ commission_amount c) (commissions t)) :
  ∃ t' n,
    CommissionViewSet_mark_payable request_user ids t = (t', Ok (Done n))
    ∧ advance_payments t' = advance_payments t
    ∧ (∀ emp, pending_commission emp t' = pending_commission emp t
              ∧ available_balance emp t' = available_balance emp t
              ∧ payable_commission emp t ≤ payable_commission emp t')
    ∧ CommissionViewSet_mark_payable request_user ids t' = (t', Ok (Done 0%nat)).
Proof.
  set (g := λ (i : nat) c, if selected ids AVAILABLE i c
                           then with_commission_status c PAYABLE else c).
  set (t' := mkTables (update_selected ids AVAILABLE PAYABLE (commissions t))
                      (advance_payments t)).
  assert (Hrun : ∀ t0, CommissionViewSet_mark_payable request_user ids t0
            = (mkTables (update_selected ids AVAILABLE PAYABLE (commissions t0))
                        (advance_payments t0),
               Ok (Done (length (selected_rows ids AVAILABLE (commissions t0)))))).
  { intros t0. unfold CommissionViewSet_mark_payable.
    destruct ids; [congruence|]. reflexivity. }
  assert (Hamt : ∀ i c, commission_amount (g i c) = commission_amount c).
  { intros i c. unfold g. by destruct (selected _ _ _ _). }
  assert (Hemp : ∀ i c, commission_employee (g i c) = commission_employee c).
  { intros i c. unfold g. by destruct (selected _ _ _ _). }
  assert (Hst : ∀ i c, commission_status (g i c)
                       = if selected ids AVAILABLE i c then PAYABLE
                         else commission_status c).
  { intros i c. unfold g. by destruct (selected _ _ _ _). }
  assert (Hsel : ∀ i c, selected ids AVAILABLE i c = true →
                        commission_status c = AVAILABLE).
  { intros i c H. unfold selected in H. apply andb_true_iff in H as [_ H].
    by apply bool_decide_eq_true in H. }
  exists t', (length (selected_rows ids AVAILABLE (commissions t))).
  split; [apply Hrun|]. split; [reflexivity|]. split.
  - intros emp.
    assert (Hp : pending_commission emp t' = pending_commission emp t).
    { unfold pending_commission. rewrite !or_zero_sum. unfold t'.
      cbn [commissions]. unfold update_selected. fold g.
      apply sum_filter_imap; [|exact Hamt].
      intros i c. rewrite Hemp, Hst.
      destruct (selected ids AVAILABLE i c) eqn:Hs; [|tauto].
      rewrite (Hsel _ _ Hs). tauto. }
    split; [exact Hp|]. split.
    + unfold available_balance. rewrite Hp. reflexivity.
    + unfold payable_commission. rewrite !or_zero_sum. unfold t'.
      cbn [commissions]. unfold update_selected. fold g.
      apply sum_filter_imap_le; [|exact Hamt|exact Hnonneg].
      intros i c [He Hs]. rewrite Hemp, Hst. split; [exact He|].
      by destruct (selected ids AVAILABLE i c).
  - rewrite Hrun. unfold t' at 1 2 3. cbn [commissions advance_payments].
    destruct (none_selected ids AVAILABLE PAYABLE
                (update_selected ids AVAILABLE PAYABLE (commissions t)))
      as [-> ->]; [|reflexivity].
    intros i c. rewrite update_selected_lookup.
    destruct (commissions t !! i) as [c0|]; [|discriminate].
    simpl. intros [= <-].
    destruct (selected ids AVAILABLE i c0) eqn:Hs.
    + unfold selected. cbn [commission_status with_commission_status].
      rewrite (bool_decide_eq_false_2 (PAYABLE = AVAILABLE)) by discriminate.
      apply andb_false_r.
    + exact Hs.
Qed.

Lemma mark_payable_keeps_balance_witness :
  ∃ t' n,
    CommissionViewSet_mark_payable manager [3%nat] commission_tables
    = (t', Ok (Done n))
    ∧ available_balance 6 t' = available_balance 6 commission_tables
    ∧ payable_commission 6 commission_tables ≤ payable_commission 6 t'.
Proof.
  assert (Hnn : Forall (λ c, 0 ≤ commission_amount c) (commissions commission_tables)).
  { repeat constructor; simpl; lia. }
  destruct (mark_payable_keeps_balance manager [3%nat] commission_tables
              eq_refl ltac:(discriminate) Hnn)
    as (t' & n & Hrun & _ & Hall & _).
  exists t', n. split; [exact Hrun|].
  destruct (Hall 6) as (_ & Hb & Hp). split; [exact Hb | exact Hp].
Defined.

(** X13. A payout writes off every advance of the employees paid. For a
    list of keys that is not empty, whoever sends it, [mark_paid] leaves
    every employee who has a payable commission among the keys without an
    unrecovered advance, whatever the amounts paid and advanced were: each
    of their advances that was approved or paid is now recovered. The
    advances of all other employees are untouched. *)
Theorem mark_paid_writes_off_advances (request_user : User) (ids : list nat)
    (t : Tables)
    (Hids : ids ≠ []) :
  ∃ t' r,
    CommissionViewSet_mark_paid request_user ids t = (t', Ok (Done r))
    ∧ (∀ emp, paid_employee ids t emp →
         unrecovered_advances emp t' = 0
         ∧ ∀ a, a ∈ advance_payments t' → employee a = emp →
                status a ≠ APPROVED ∧ status a ≠ PAID)
    ∧ (∀ i a, advance_payments t !! i = Some a →
         ¬ paid_employee ids t (employee a) →
         advance_payments t' !! i = Some a)
    ∧ (∀ i a, advance_payments t !! i = Some a →
         paid_employee ids t (employee a) →
         status a = APPROVED ∨ status a = PAID →
         advance_payments t' !! i = Some (with_advance_status a RECOVERED)).
Proof.
  set (eids := commission_employee <$> selected_rows ids PAYABLE (commissions t)).
  set (f := λ a, if to_recover eids a then with_advance_status a RECOVERED else a).
  set (t' := mkTables (update_selected ids PAYABLE PAID (commissions t))
                      (f <$> advance_payments t)).
  exists t', (mkPaidResult
                (length (selected_rows ids PAYABLE (commissions t)))
                (length (filter (λ a, to_recover eids a = true) (advance_payments t)))).
  split.
  { unfold CommissionViewSet_mark_paid.
    destruct ids; [congruence|]. reflexivity. }
  assert (Hwho : ∀ emp, emp ∈ eids ↔ paid_employee ids t emp).
  { intros emp. unfold eids, paid_employee. rewrite list_elem_of_fmap. split.
    - intros (c & -> & Hc). apply elem_of_selected_rows in Hc as (i & Hi & Hin & Hs).
      exists i, c. auto.
    - intros (i & c & Hi & Hin & Hs & He). exists c. split; [by symmetry|].
      apply elem_of_selected_rows. exists i. auto. }
  assert (Hrec : ∀ a, to_recover eids a = true
                      ↔ employee a ∈ eids ∧ (status a = APPROVED ∨ status a = PAID)).
  { intros a. unfold to_recover.
    rewrite andb_true_iff, orb_true_iff, !bool_decide_eq_true. tauto. }
  assert (Hleft : ∀ a, a ∈ f <$> advance_payments t → employee a ∈ eids →
                       status a ≠ APPROVED ∧ status a ≠ PAID).
  { intros a Hin He. apply list_elem_of_fmap in Hin as (a0 & -> & _).
    unfold f in *. destruct (to_recover eids a0) eqn:Hr.
    - simpl. split; discriminate.
    - cbn [employee] in He.
      destruct (decide (status a0 = APPROVED ∨ status a0 = PAID)) as [Hs|Hs]; [|tauto].
      assert (to_recover eids a0 = true) by (apply Hrec; auto). congruence. }
  split; [|split].
  - intros emp Hemp. apply Hwho in Hemp. split.
    + unfold unrecovered_advances. rewrite or_zero_sum. unfold t'.
      cbn [advance_payments].
      rewrite (filter_none _ (f <$> advance_payments t)); [reflexivity|].
      apply Forall_forall. intros a Hin [He Hs]. subst emp.
      destruct (Hleft a Hin Hemp). tauto.
    + intros a Hin He. subst emp. by apply Hleft.
  - intros i a Hi Hno. unfold t'. cbn [advance_payments].
    rewrite list_lookup_fmap, Hi. simpl. unfold f.
    destruct (to_recover eids a) eqn:Hr; [|reflexivity].
    apply Hrec in Hr as [He _]. apply Hwho in He. contradiction.
  - intros i a Hi He Hs. unfold t'. cbn [advance_payments].
    rewrite list_lookup_fmap, Hi. simpl. unfold f.
    apply Hwho in He. by rewrite (proj2 (Hrec a) (conj He Hs)).
Qed.

Lemma mark_paid_writes_off_advances_witness :
  ∃ t' r,
    CommissionViewSet_mark_paid technician [0%nat] commission_tables
    = (t', Ok (Done r))
    ∧ unrecovered_advances 5 commission_tables = 300000
    ∧ unrecovered_advances 5 t' = 0.
Proof.
  destruct (mark_paid_writes_off_advances technician [0%nat] commission_tables
              ltac:(discriminate))
    as (t' & r & Hrun & Hoff & _).
  exists t', r. split; [exact Hrun|]. split; [reflexivity|].
  apply Hoff. exists 0%nat, (mkCommission 5 PAYABLE 400000).
  split; [reflexivity|]. split; [apply list_elem_of_here|]. split; reflexivity.
Defined.

(** X14. The bulk updates stay inside the transition table of the
    serializer. Row by row, [mark_payable] and [mark_paid], whoever sends
    them and with whatever keys, keep the employee and the amount of every
    commission, and the status they leave is one that [validate_status]
    accepts as an update of the status they found. *)
Theorem bulk_updates_follow_transitions (request_user : User)
    (ids : list nat) (t : Tables) (i : nat) (c : Commission)
    (Hrow : commissions t !! i = Some c) :
  (∃ c', commissions (fst (CommissionViewSet_mark_payable request_user ids t)) !! i
         = Some c'
     ∧ commission_employee c' = commission_employee c
     ∧ commission_amount c' = commission_amount c
     ∧ validate_status (Some (commission_status c)) (commission_status c')
       = Ok (commission_status c'))
  ∧ (∃ c', commissions (fst (CommissionViewSet_mark_paid request_user ids t)) !! i
           = Some c'
       ∧ commission_employee c' = commission_employee c
       ∧ commission_amount c' = commission_amount c
       ∧ validate_status (Some (commission_status c)) (commission_status c')
         = Ok (commission_status c')).
Proof.
  assert (Hsame : ∀ s, validate_status (Some s) s = Ok s).
  { intros s. unfold validate_status. destruct (valid_transitions s); [|reflexivity].
    rewrite (bool_decide_eq_false_2 (s ≠ s)) by tauto. reflexivity. }
  split.
  - unfold CommissionViewSet_mark_payable.
    destruct ids as [|i0 ids]; [exists c; rewrite Hsame; auto|].
    munfold_t. cbn [fst commissions id].
    rewrite update_selected_lookup, Hrow. cbn [fmap option_fmap option_map].
    destruct (selected (i0 :: ids) AVAILABLE i c) eqn:Hs.
    + eexists. split; [reflexivity|]. split; [reflexivity|]. split; [reflexivity|].
      unfold selected in Hs. apply andb_true_iff in Hs as [_ Hs].
      apply bool_decide_eq_true in Hs. rewrite Hs. reflexivity.
    + exists c. rewrite Hsame. auto.
  - unfold CommissionViewSet_mark_paid.
    destruct ids as [|i0 ids]; [exists c; rewrite Hsame; auto|].
    munfold_t. cbn [fst commissions id].
    rewrite update_selected_lookup, Hrow. cbn [fmap option_fmap option_map].
    destruct (selected (i0 :: ids) PAYABLE i c) eqn:Hs.
    + eexists. split; [reflexivity|]. split; [reflexivity|]. split; [reflexivity|].
      unfold selected in Hs. apply andb_true_iff in Hs as [_ Hs].
      apply bool_decide_eq_true in Hs. rewrite Hs. reflexivity.
    + exists c. rewrite Hsame. auto.
Qed.

Lemma bulk_updates_follow_transitions_witness :
  ∃ c', commissions (fst (CommissionViewSet_mark_paid technician [0%nat]
                            commission_tables)) !! 0%nat = Some c'
    ∧ validate_status (Some PAYABLE) (commission_status c')
      = Ok (commission_status c').
Proof.
  destruct (bulk_updates_follow_transitions technician [0%nat] commission_tables
              0%nat (mkCommission 5 PAYABLE 400000) eq_refl)
    as [_ (c' & Hc & _ & _ & Hv)].
  exists c'. split; [exact Hc | exact Hv].
Defined.

End CommissionActions.

Section AdvanceActions.

Import Sales SalesActions.

(** An action either leaves the tables or stores one advance under the
    key of a row that was not [PAID], within the snapshot if the row was. *)
Lemma run_action_step act t :
  run_action act t = t
  ∨ ∃ pk old new,
      advance_payments t !! pk = Some old
      ∧ status old ≠ PAID
      ∧ (within_snapshot old → within_snapshot new)
      ∧ run_action act t
        = mkTables (commissions t) (<[pk := new]> (advance_payments t)).
Proof.
  destruct act as [u pk data | u pk m | u pk]; cbn [run_action].
  - unfold AdvancePaymentViewSet_review.
    destruct (can_record_for_others u); cbn [negb]; [|by left].
    munfold_t. cbn [id].
    destruct (advance_payments t !! pk) as [a|] eqn:Ha; [|by left].
    case_decide as Hs; [by left|].
    assert (Hst : status a = PENDING) by (by destruct (decide (status a = PENDING)); [|tauto]).
    unfold review_is_valid. munfold_t.
    destruct (review_approved_amount data) as [v|] eqn:Hv.
    + destruct (v <? 1); [by left|].
      destruct (review_action data); cbn [default from_option id].
      * destruct (Z.ltb_spec (available_commission a) v); [by left|].
        right. unfold save_advance. munfold_t. eexists pk, a, _.
        split; [exact Ha|]. split; [rewrite Hst; discriminate|].
        split; [|reflexivity]. intros _. unfold within_snapshot. simpl. lia.
      * right. unfold save_advance. munfold_t. eexists pk, a, _.
        split; [exact Ha|]. split; [rewrite Hst; discriminate|].
        split; [|reflexivity]. intros H. exact H.
    + destruct (review_action data); [by left|].
      right. unfold save_advance. munfold_t. eexists pk, a, _.
      split; [exact Ha|]. split; [rewrite Hst; discriminate|].
      split; [|reflexivity]. intros H. exact H.
  - unfold AdvancePaymentViewSet_mark_paid.
    destruct (can_record_for_others u); cbn [negb]; [|by left].
    munfold_t. cbn [id].
    destruct (advance_payments t !! pk) as [a|] eqn:Ha; [|by left].
    case_decide as Hs; [by left|].
    assert (Hst : status a = APPROVED) by (by destruct (decide (status a = APPROVED)); [|tauto]).
    destruct (bool_decide _); [|by left].
    right. unfold save_advance. munfold_t. eexists pk, a, _.
    split; [exact Ha|]. split; [rewrite Hst; discriminate|].
    split; [|reflexivity]. intros H. exact H.
  - unfold AdvancePaymentViewSet_cancel.
    destruct (can_record_for_others u); cbn [negb]; [|by left].
    munfold_t. cbn [id].
    destruct (advance_payments t !! pk) as [a|] eqn:Ha; [|by left].
    case_decide as Hs; [by left|].
    right. unfold save_advance. munfold_t. eexists pk, a, _.
    split; [exact Ha|]. split; [exact Hs|].
    split; [|reflexivity]. intros H. exact H.
Qed.

(** X15. A paid advance is out of reach of the per-advance actions. Over
    any sequence of [review], [mark_paid] and [cancel] calls, by any users
    on any keys and with any data, an advance that is [PAID] keeps every
    column; no commission changes, no advance row appears or disappears,
    and if every approved amount was within the balance recorded with its
    request, that still holds at the end. *)
Theorem paid_advance_outlives_actions (acts : list advance_action) (t : Tables)
    (Hinv : Forall within_snapshot (advance_payments t)) :
  commissions (run_actions acts t) = commissions t
  ∧ length (advance_payments (run_actions acts t)) = length (advance_payments t)
  ∧ Forall within_snapshot (advance_payments (run_actions acts t))
  ∧ ∀ i a, advance_payments t !! i = Some a → status a = PAID →
      advance_payments (run_actions acts t) !! i = Some a.
Proof.
  revert t Hinv. induction acts as [|act acts IH]; intros t Hinv.
  - by repeat split.
  - cbn [run_actions foldl]. fold (run_actions acts (run_action act t)).
    destruct (run_action_step act t) as [-> | (pk & old & new & Hold & Hnp & Hw & ->)];
      [by apply IH|].
    set (t1 := mkTables (commissions t) (<[pk := new]> (advance_payments t))).
    assert (Hinv1 : Forall within_snapshot (advance_payments t1)).
    { unfold t1. cbn [advance_payments]. apply Forall_insert; [exact Hinv|].
      apply Hw. eapply Forall_lookup_1; [exact Hinv | exact Hold]. }
    destruct (IH t1 Hinv1) as (Hc & Hlen & Hf & Hpaid).
    split; [by rewrite Hc|]. split.
    { rewrite Hlen. unfold t1. cbn [advance_payments]. apply length_insert. }
    split; [exact Hf|].
    intros i a Hi Hs. apply Hpaid; [|exact Hs].
    unfold t1. cbn [advance_payments].
    rewrite list_lookup_insert_ne; [exact Hi|].
    intros ->. rewrite Hold in Hi. injection Hi as ->. contradiction.
Qed.

Lemma paid_advance_outlives_actions_witness :
  let acts := [ActCancel manager 0; ActReview manager 1 (mkReviewData approve (Some 40000));
               ActMarkPaid manager 0 "CASH"; ActCancel manager 1] in
  advance_payments (run_actions acts advance_tables) !! 0%nat
  = advance_payments advance_tables !! 0%nat
  ∧ Forall within_snapshot (advance_payments (run_actions acts advance_tables)).
Proof.
  intros acts.
  assert (Hinv : Forall within_snapshot (advance_payments advance_tables)).
  { repeat constructor; unfold within_snapshot; simpl; lia. }
  destruct (paid_advance_outlives_actions acts advance_tables Hinv)
    as (_ & _ & Hf & Hpaid).
  split; [|exact Hf].
  rewrite (Hpaid 0%nat _ eq_refl eq_refl). reflexivity.
Defined.

End AdvanceActions.

(** * Disposal and depreciation runs: further properties *)

Ltac munfold_a :=
  unfold get_self, set_self, Assets.on_world, Assets.on_ledger,
    Assets.lift_result in *;
  unfold mbind, M_bind, result_bind, mret, M_ret, result_ret, gets, modify,
    raise in *.

Section DisposalLedger.

Import Dec Assets.

#[local] Arguments calculate_current_values : simpl never.
#[local] Arguments generate_asset_number : simpl never.

(** [save] of an asset writes the asset table only, and keeps the key. *)
Lemma Asset_save_frame now a w a1 w1 r :
  Asset_save now (a, w) = ((a1, w1), r) →
  ledger w1 = ledger w ∧ depreciation_entries w1 = depreciation_entries w.
Proof.
  unfold Asset_save, Model_save_asset. munfold_a. simpl.
  destruct (decide (asset_number a = ""%string));
    cbn [fst snd]; destruct (depreciation_method a) eqn:Hmeth;
    cbn [depreciation_method with_asset_number fst snd];
    try rewrite Hmeth; cbn [fst snd];
    match goal with |- context [calculate_current_values now ?x] =>
      destruct (calculate_current_values now x) as [a4|e4]
    end;
    try (intros [= _ <- _]; auto; fail);
    cbn [fst snd];
    match goal with |- context [bool_decide ?P] => destruct (bool_decide P) end;
    intros [= _ <- _]; auto.
Qed.

(** X16. A disposal that fails leaves the ledger as it was. Whenever
    [create_disposal_entry] raises, no journal entry, no line and no account
    balance has changed, nor any depreciation record; and the instance is
    either still marked [DISPOSED] (the first [save] failed) or marked
    [ACTIVE] with empty disposal fields. *)
Theorem failed_disposal_leaves_ledger (now dd : date) (amt : Decimal)
    (dm : string) (a a' : Asset) (w w' : World) (e : exn)
    (Hrun : create_disposal_entry now dd amt dm (a, w) = ((a', w'), Raise e)) :
  ledger w' = ledger w
  ∧ depreciation_entries w' = depreciation_entries w
  ∧ (status a' = DISPOSED
     ∨ (status a' = ACTIVE ∧ disposal_date a' = None
        ∧ disposal_amount a' = None ∧ disposal_method a' = ""%string)).
Proof.
  split; [|split; [|exact (create_disposal_entry_raise _ _ _ _ _ _ _ _ _ Hrun)]];
    revert Hrun; unfold create_disposal_entry; intros H;
    unfold mbind at 1, M_bind at 1 in H; unfold set_self at 1, modify at 1 in H;
    unfold mbind at 1, M_bind at 1 in H; unfold get_self at 1, gets at 1 in H;
    cbn [fst] in H;
    unfold mbind at 1, M_bind at 1 in H;
    destruct (Asset_save now _) as [[a1 w1] [[]|e1]] eqn:Hsave;
    apply Asset_save_frame in Hsave as [Hl1 Hd1];
    try (injection H as _ <- _; assumption);
    unfold try_except, atomic in H;
    destruct (disposal_journal _ _ _ _ (a1, w1)) as [[a2 w2] [res|e2]];
    try discriminate H;
    unfold mbind at 1, M_bind at 1 in H; unfold set_self at 1, modify at 1 in H;
    unfold mbind at 1, M_bind at 1 in H;
    destruct (Asset_save now (with_disposal a2 ACTIVE None None "", w1))
      as [[a3 w3] r3] eqn:Hsave2;
    apply Asset_save_frame in Hsave2 as [Hl2 Hd2];
    destruct r3 as [[]|e3]; injection H as _ <- _; congruence.
Qed.

Lemma failed_disposal_leaves_ledger_witness :
  let run := create_disposal_entry (mkDate 2029 3 1) (mkDate 2029 3 1)
               (of_cents 700000) "SALE"
               (active_lift, world_of chart_without_cash active_lift) in
  snd run = Raise DoesNotExist
  ∧ ledger (snd (fst run)) = chart_without_cash.
Proof.
  intros run.
  assert (Hrun : run = ((fst (fst run), snd (fst run)), Raise DoesNotExist))
    by (vm_compute; reflexivity).
  split; [by rewrite Hrun|].
  exact (proj1 (failed_disposal_leaves_ledger _ _ _ _ _ _ _ _ _ Hrun)).
Defined.

End DisposalLedger.

Section DepreciationRuns.

Import Dec Assets.

#[local] Arguments fix_ctx : simpl never.
#[local] Arguments add : simpl never.
#[local] Arguments sub : simpl never.
#[local] Arguments mul : simpl never.
#[local] Arguments div : simpl never.
#[local] Arguments quantize_cents : simpl never.
#[local] Arguments leb : simpl never.
#[local] Arguments ltb : simpl never.
#[local] Arguments min : simpl never.
#[local] Arguments max : simpl never.
#[local] Arguments Z.pow : simpl never.
#[local] Arguments calculate_current_values : simpl never.
#[local] Arguments calculate_current_depreciation : simpl never.
#[local] Arguments generate_asset_number : simpl never.

Lemma Asset_save_eq now a w :
  Asset_save now (a, w)
  = match calculate_current_values now (save_prepared now a w) with
    | Ok a2 => let '(w', r) := Model_save_asset a2 w in ((a2, w'), r)
    | Raise e => ((save_prepared now a w, w), Raise e)
    end.
Proof.
  unfold Asset_save, save_prepared. munfold_a. cbn [fst snd].
  destruct (decide (asset_number a = ""%string)); cbn [fst snd];
    destruct (depreciation_method a) eqn:Hmeth;
    cbn [depreciation_method with_asset_number category fst snd];
    try rewrite Hmeth; cbn [fst snd];
    match goal with |- context [calculate_current_values now ?x] =>
      destruct (calculate_current_values now x) as [a4|e4]
    end; cbn [fst snd]; try reflexivity;
    destruct (Model_save_asset a4 w) as [w4 [[]|e4]]; reflexivity.
Qed.

Lemma save_prepared_same_inputs now a w : same_schedule_inputs (save_prepared now a w) a.
Proof.
  unfold save_prepared, same_schedule_inputs, method_of.
  destruct (decide (asset_number a = ""%string));
    destruct (depreciation_method a) eqn:Hm;
    cbn [depreciation_method with_asset_number category];
    try rewrite Hm;
    cbn [asset_pk status purchase_date purchase_cost salvage_value
         useful_life_years depreciation_method category
         with_depreciation_method with_asset_number default from_option id];
    try rewrite Hm; repeat split; reflexivity.
Qed.

Lemma total_depreciation_same x y months :
  same_schedule_inputs x y → total_depreciation_of x months = total_depreciation_of y months.
Proof.
  intros (_ & _ & _ & Hc & Hs & Hl & Hm).
  unfold total_depreciation_of, straight_line_total, depreciation_rate.
  by rewrite Hc, Hs, Hl, Hm.
Qed.

(** The schedule does not read the stored values: on instances with the
    same inputs, neither disposed nor sold and bought by [now], it gives
    the same two values. *)
Lemma calculate_current_values_same now x y x' :
  same_schedule_inputs x y →
  disposed_or_sold y = false → date_gtb (purchase_date y) now = false →
  calculate_current_values now x = Ok x' →
  ∃ y', calculate_current_values now y = Ok y'
        ∧ accumulated_depreciation x' = accumulated_depreciation y'
        ∧ current_book_value x' = current_book_value y'
        ∧ asset_pk x' = asset_pk x
        ∧ last_depreciation_date x' = last_depreciation_date x.
Proof.
  intros Hsame Hd Hdate.
  pose proof (total_depreciation_same x y) as Htot.
  destruct Hsame as (Hpk & Hst & Hpd & Hc & Hs & Hl & Hm).
  unfold calculate_current_values, disposed_or_sold in *.
  rewrite Hst, Hpd, Hc, Hs, Hd, Hdate.
  destruct (months_between now (purchase_date y) <=? 0).
  - intros [= <-]. eexists. split; [reflexivity|]. by repeat split.
  - rewrite Htot by (by repeat split).
    destruct (total_depreciation_of y _) as [t|]; [|discriminate].
    unfold mbind, result_bind.
    destruct (quantize_cents (min t _)) as [acc|]; [|discriminate].
    destruct (quantize_cents (sub _ acc)) as [book|]; [|discriminate].
    intros [= <-]. eexists. split; [reflexivity|]. by repeat split.
Qed.

Lemma calculate_current_depreciation_positive now a w amt :
  calculate_current_depreciation now a w = Ok amt → ltb zero amt = true →
  disposed_or_sold a = false ∧ monthly_depreciation a = Ok amt.
Proof.
  unfold calculate_current_depreciation.
  destruct (disposed_or_sold a).
  { intros [= <-]. discriminate. }
  destruct (filter _ _).
  - auto.
  - intros [= <-]. discriminate.
Qed.

(** What a booking step ran through. *)
Lemma depreciation_step_booked now a w a' w' :
  depreciation_step now (a, w) = ((a', w'), Ok true) →
  ∃ amt a2,
    disposed_or_sold a = false
    ∧ monthly_depreciation a = Ok amt ∧ ltb zero amt = true
    ∧ same_schedule_inputs a2 a
    ∧ last_depreciation_date a2 = Some now
    ∧ calculate_current_values now a2 = Ok a'
    ∧ depreciation_entries w'
      = depreciation_entries w
        ++ [mkDepreciation (asset_pk a) now (month now) (year now)]
    ∧ assets w' !! asset_pk a' = Some a'.
Proof.
  intros H. unfold depreciation_step in H.
  unfold mbind at 1, M_bind at 1 in H. unfold get_self at 1, gets at 1 in H.
  unfold mbind at 1, M_bind at 1 in H. unfold gets at 1 in H. cbn [fst snd] in H.
  unfold mbind at 1, M_bind at 1 in H. unfold lift_result at 1 in H.
  destruct (calculate_current_depreciation now a w) as [amt|e] eqn:Hamt; [|discriminate].
  destruct (ltb zero amt) eqn:Hpos; [|discriminate].
  destruct (calculate_current_depreciation_positive _ _ _ _ Hamt Hpos) as [Hd Hmon].
  unfold mbind at 1, M_bind at 1 in H. unfold on_world at 1, modify at 1 in H.
  unfold mbind at 1, M_bind at 1 in H. unfold set_self at 1, modify at 1 in H.
  unfold mbind at 1, M_bind at 1 in H.
  rewrite Asset_save_eq in H.
  match type of H with context [save_prepared now ?x ?y] =>
    set (a1 := x) in *; set (w1 := y) in *;
    pose proof (save_prepared_same_inputs now a1 w1) as Hprep
  end.
  assert (Ha1 : same_schedule_inputs a1 a) by (by repeat split).
  assert (Hlast : last_depreciation_date (save_prepared now a1 w1) = Some now).
  { unfold save_prepared.
    destruct (decide (asset_number a1 = ""%string));
      destruct (depreciation_method a1) eqn:Hm;
      cbn [depreciation_method with_asset_number category]; try rewrite Hm;
      reflexivity. }
  destruct (calculate_current_values now (save_prepared now a1 w1)) as [a4|e4] eqn:Hcalc;
    [|discriminate].
  unfold Model_save_asset in H.
  destruct (bool_decide _) in H; [|discriminate].
  injection H as <- <-.
  exists amt, (save_prepared now a1 w1).
  split; [exact Hd|]. split; [exact Hmon|]. split; [exact Hpos|].
  split.
  { destruct Hprep as (H1 & H2 & H3 & H4 & H5 & H6 & H7).
    destruct Ha1 as (G1 & G2 & G3 & G4 & G5 & G6 & G7).
    repeat split; congruence. }
  split; [exact Hlast|]. split; [exact Hcalc|]. split; [reflexivity|].
  cbn [assets set_assets]. apply lookup_insert_eq.
Qed.

(** X17. The monthly run books the schedule, not its own sum. When the
    depreciation step books an amount for an asset bought by that day, the
    amount it computed is the asset's monthly depreciation and one record
    for the asset and the month is added; but the accumulated depreciation
    and the book value the asset is saved with are those
    [calculate_current_values] gives for the asset as it was before,
    whatever amount the step added to the stored total. *)
Theorem depreciation_step_books_schedule (now : date) (a a' : Asset)
    (w w' : World)
    (Hdate : date_gtb (purchase_date a) now = false)
    (Hrun : depreciation_step now (a, w) = ((a', w'), Ok true)) :
  ∃ amt v,
    monthly_depreciation a = Ok amt ∧ ltb zero amt = true
    ∧ depreciation_entries w'
      = depreciation_entries w
        ++ [mkDepreciation (asset_pk a) now (month now) (year now)]
    ∧ calculate_current_values now a = Ok v
    ∧ accumulated_depreciation a' = accumulated_depreciation v
    ∧ current_book_value a' = current_book_value v
    ∧ last_depreciation_date a' = Some now.
Proof.
  destruct (depreciation_step_booked _ _ _ _ _ Hrun)
    as (amt & a2 & Hd & Hmon & Hpos & Hsame & Hlast & Hcalc & Hrows & _).
  destruct (calculate_current_values_same now a2 a a' Hsame Hd Hdate Hcalc)
    as (v & Hv & Hacc & Hbook & _ & Hl).
  exists amt, v. split; [exact Hmon|]. split; [exact Hpos|]. split; [exact Hrows|].
  split; [exact Hv|]. split; [exact Hacc|]. split; [exact Hbook|].
  by rewrite Hl.
Qed.

Lemma lift_step_books :
  let run := depreciation_step (mkDate 2025 3 10) (lift_in_service, lift_world) in
  run = ((fst (fst run), snd (fst run)), Ok true).
Proof. vm_compute. reflexivity. Qed.

Lemma depreciation_step_books_schedule_witness :
  let run := depreciation_step (mkDate 2025 3 10) (lift_in_service, lift_world) in
  snd run = Ok true
  ∧ ∃ v, calculate_current_values (mkDate 2025 3 10) lift_in_service = Ok v
         ∧ accumulated_depreciation (fst (fst run)) = accumulated_depreciation v
         ∧ current_book_value (fst (fst run)) = current_book_value v.
Proof.
  intros run. pose proof lift_step_books as Hrun. cbv zeta in Hrun. fold run in Hrun.
  split; [by rewrite Hrun|].
  destruct (depreciation_step_books_schedule (mkDate 2025 3 10) lift_in_service
              (fst (fst run)) lift_world (snd (fst run)) eq_refl Hrun)
    as (amt & v & _ & _ & _ & Hv & Hacc & Hbook & _).
  exists v. split; [exact Hv|]. split; [exact Hacc | exact Hbook].
Defined.

(** X18. One booking a month for each asset. After the depreciation step
    has booked an amount for an asset, the step run again on the result,
    on any day of the same month, books nothing and changes neither the
    instance nor the tables. *)
Theorem depreciation_once_per_month (now : date) (a a' : Asset) (w w' : World)
    (Hrun : depreciation_step now (a, w) = ((a', w'), Ok true)) :
  ∀ day2, month day2 = month now → year day2 = year now →
    depreciation_step day2 (a', w') = ((a', w'), Ok false).
Proof.
  destruct (depreciation_step_booked _ _ _ _ _ Hrun)
    as (amt & a2 & Hd & Hmon & Hpos & Hsame & Hlast & Hcalc & Hrows & _).
  intros day2 Hm Hy.
  assert (Hpk : asset_pk a' = asset_pk a).
  { destruct Hsame as (Hpk & _).
    revert Hcalc. unfold calculate_current_values.
    destruct (disposed_or_sold a2); [by intros [= <-]|].
    destruct (date_gtb _ _); [by intros [= <-]|].
    destruct (_ <=? 0); [by intros [= <-]|].
    unfold mbind, result_bind.
    destruct (total_depreciation_of _ _) as [t|]; [|discriminate].
    destruct (quantize_cents _) as [acc|]; [|discriminate].
    destruct (quantize_cents _) as [book|]; [|discriminate].
    by intros [= <-]. }
  assert (Hzero : calculate_current_depreciation day2 a' w' = Ok zero).
  { unfold calculate_current_depreciation.
    destruct (disposed_or_sold a'); [reflexivity|].
    rewrite Hrows, filter_app, filter_cons_True.
    - by destruct (filter _ (depreciation_entries w)).
    - cbn [dep_asset period_month period_year]. by rewrite Hpk, Hm, Hy. }
  unfold depreciation_step.
  unfold mbind at 1, M_bind at 1. unfold get_self at 1, gets at 1.
  unfold mbind at 1, M_bind at 1. unfold gets at 1. cbn [fst snd].
  unfold mbind at 1, M_bind at 1. unfold lift_result at 1.
  rewrite Hzero. reflexivity.
Qed.

Lemma depreciation_once_per_month_witness :
  let run := depreciation_step (mkDate 2025 3 10) (lift_in_service, lift_world) in
  snd run = Ok true
  ∧ depreciation_step (mkDate 2025 3 28) (fst run) = (fst run, Ok false).
Proof.
  intros run. pose proof lift_step_books as Hrun. cbv zeta in Hrun. fold run in Hrun.
  split; [by rewrite Hrun|].
  rewrite (surjective_pairing (fst run)).
  exact (depreciation_once_per_month (mkDate 2025 3 10) lift_in_service
           (fst (fst run)) lift_world (snd (fst run)) Hrun
           (mkDate 2025 3 28) eq_refl eq_refl).
Defined.

End DepreciationRuns.

Section DisposalEntry.

Import Dec Assets.

#[local] Arguments calculate_current_values : simpl never.
#[local] Arguments generate_asset_number : simpl never.
#[local] Arguments sub : simpl never.
#[local] Arguments ltb : simpl never.

Lemma ltb_zero_cents m : ltb zero (of_cents m) = bool_decide (0 < m).
Proof.
  unfold ltb, compare, scaled, zero, of_int, of_cents.
  cbn [coef dexp]. change (Z.min 0 (-2)) with (-2).
  change (10 ^ (0 - -2)) with 100. change (10 ^ (-2 - -2)) with 1.
  rewrite Z.mul_1_r. change (0 * 100) with 0.
  destruct (Z.compare_spec 0 m); case_bool_decide; try reflexivity; lia.
Qed.

Lemma column_cents_of_cents m : column_cents (of_cents m) = m.
Proof.
  unfold column_cents, of_cents. cbn [dexp coef].
  change (-2 <=? -2) with true. cbv iota. change (10 ^ (-2 + 2)) with 1. lia.
Qed.

Lemma total_debits_app l1 l2 :
  total_debits (l1 ++ l2) = total_debits l1 + total_debits l2.
Proof. unfold total_debits. by rewrite fmap_app, foldr_add_app. Qed.

Lemma total_credits_app l1 l2 :
  total_credits (l1 ++ l2) = total_credits l1 + total_credits l2.
Proof. unfold total_credits. by rewrite fmap_app, foldr_add_app. Qed.

(** A ledger call that keeps the line table, run from a method. *)
Lemma on_ledger_keeps_lines {A} (m : M DB A) a w a' w' r :
  (∀ db db' r, m db = (db', r) → journal_lines db' = journal_lines db) →
  on_world (on_ledger m) (a, w) = ((a', w'), r) →
  a' = a ∧ journal_lines (ledger w') = journal_lines (ledger w).
Proof.
  intros Hm. unfold on_world, on_ledger.
  destruct (m (ledger w)) as [db' r'] eqn:Hrun.
  intros [= <- <- _]. split; [reflexivity|]. simpl. by apply (Hm _ _ _ Hrun).
Qed.

Lemma get_account_by_code_lines c db db' r :
  get_account_by_code c db = (db', r) → journal_lines db' = journal_lines db.
Proof.
  unfold get_account_by_code. destruct (filter _ _); by intros [= <- _].
Qed.

Lemma gain_loss_account_lines db db' r :
  get_or_create_gain_loss_account db = (db', r) →
  journal_lines db' = journal_lines db.
Proof.
  unfold get_or_create_gain_loss_account.
  destruct (get_account_by_code _ _) as [? [?|?]]; by intros [= <- _].
Qed.

Lemma objects_create_lines number d t s sm sid total db db' r :
  JournalEntry_objects_create number d t s sm sid total db = (db', r) →
  journal_lines db' = journal_lines db.
Proof.
  unfold JournalEntry_objects_create. rewrite JournalEntry_save_eq.
  cbv zeta. unfold Model_save_entry.
  destruct (number_taken _ _); by intros [= <- _].
Qed.

(** Creating a line from a method appends its row. *)
Lemma line_step je acct d c a w a' w' r :
  on_world (on_ledger (JournalEntryLine_objects_create je acct d c)) (a, w)
  = ((a', w'), r) →
  a' = a
  ∧ journal_lines (ledger w')
    = journal_lines (ledger w) ++ [mkLine (entry_pk je) (account_pk acct) d c].
Proof.
  unfold on_world, on_ledger. rewrite line_create_eq. cbn zeta.
  destruct (account_fits _); by intros [= <- <- _].
Qed.

(** The rows the journal part of a disposal writes. *)
Lemma disposal_journal_lines dd amt bv gl a w a' w' res :
  disposal_journal dd amt bv gl (a, w) = ((a', w'), Ok res) →
  ∃ cash accum asset_acct gl_acct : Z,
    journal_lines (ledger w')
    = journal_lines (ledger w)
      ++ (if ltb zero amt
          then [mkLine (journal_entry_id res) cash (column_cents amt) 0] else [])
      ++ [mkLine (journal_entry_id res) accum
            (column_cents (accumulated_depreciation a)) 0;
          mkLine (journal_entry_id res) asset_acct
            0 (column_cents (purchase_cost a))]
      ++ (if is_true gl
          then [if ltb zero gl
                then mkLine (journal_entry_id res) gl_acct
                       0 (column_cents (dec_abs gl))
                else mkLine (journal_entry_id res) gl_acct
                       (column_cents (dec_abs gl)) 0]
          else []).
Proof.
  unfold disposal_journal. intros H.
  apply bind_ok_inv in H as (self & [a0 w0] & H0 & H).
  injection H0 as <- <- <-.
  apply bind_ok_inv in H as (je & [a1 w1] & H1 & H).
  apply on_ledger_keeps_lines in H1 as [-> Hl1];
    [|intros ? ? ?; apply objects_create_lines].
  apply bind_ok_inv in H as (cash_acct & [a2 w2] & H2 & H).
  apply on_ledger_keeps_lines in H2 as [-> Hl2];
    [|intros ? ? ?; apply get_account_by_code_lines].
  apply bind_ok_inv in H as (asset_acct & [a3 w3] & H3 & H).
  apply on_ledger_keeps_lines in H3 as [-> Hl3];
    [|intros ? ? ?; apply get_account_by_code_lines].
  apply bind_ok_inv in H as (accum_acct & [a4 w4] & H4 & H).
  apply on_ledger_keeps_lines in H4 as [-> Hl4];
    [|intros ? ? ?; apply get_account_by_code_lines].
  apply bind_ok_inv in H as ([] & [a5 w5] & H5 & H).
  assert (a5 = a ∧ journal_lines (ledger w5)
            = journal_lines (ledger w)
              ++ (if ltb zero amt
                  then [mkLine (entry_pk je) (account_pk cash_acct)
                          (column_cents amt) 0] else [])) as [-> Hl5].
  { destruct (ltb zero amt).
    - apply line_step in H5 as [-> ->]. by rewrite Hl4, Hl3, Hl2, Hl1.
    - injection H5 as <- <-. by rewrite app_nil_r, Hl4, Hl3, Hl2, Hl1. }
  apply bind_ok_inv in H as ([] & [a6 w6] & H6 & H).
  apply line_step in H6 as [-> Hl6].
  apply bind_ok_inv in H as ([] & [a7 w7] & H7 & H).
  apply line_step in H7 as [-> Hl7].
  apply bind_ok_inv in H as ([] & [a8 w8] & H8 & H).
  injection H as <- <- <-. cbn [journal_entry_id].
  destruct (is_true gl).
  - apply bind_ok_inv in H8 as (gla & [a9 w9] & H9 & H8).
    apply on_ledger_keeps_lines in H9 as [-> Hl9];
      [|intros ? ? ?; apply gain_loss_account_lines].
    exists (account_pk cash_acct), (account_pk accum_acct),
           (account_pk asset_acct), (account_pk gla).
    destruct (ltb zero gl); apply line_step in H8 as [_ ->];
      rewrite Hl9, Hl7, Hl6, Hl5, <- !app_assoc; reflexivity.
  - injection H8 as _ <-.
    exists (account_pk cash_acct), (account_pk accum_acct),
           (account_pk asset_acct), 0.
    rewrite Hl7, Hl6, Hl5, <- !app_assoc. reflexivity.
Qed.

Lemma save_prepared_amounts now a w :
  accumulated_depreciation (save_prepared now a w) = accumulated_depreciation a
  ∧ purchase_cost (save_prepared now a w) = purchase_cost a
  ∧ status (save_prepared now a w) = status a.
Proof.
  unfold save_prepared.
  destruct (decide (asset_number a = ""%string));
    destruct (depreciation_method a) eqn:Hm;
    cbn [depreciation_method with_asset_number category]; try rewrite Hm;
    repeat split; reflexivity.
Qed.

(** X19. The disposal entry balances exactly when the stored values do.
    For amounts in whole hundredths, a disposal that returns has appended
    the lines of one entry, and their debits exceed their credits by
    accumulated depreciation + book value − purchase cost of the asset as
    stored; so the entry, which is stored as posted without a check, is
    balanced if and only if the stored book value is the purchase cost less
    the accumulated depreciation. *)
Theorem disposal_entry_imbalance (now dd : date) (amt : Decimal) (dm : string)
    (a a' : Asset) (w w' : World) (res : DisposalResult)
    (Hamt : is_money amt)
    (Hcost : is_money (purchase_cost a))
    (Hacc : is_money (accumulated_depreciation a))
    (Hbook : is_money (current_book_value a))
    (Hrun : create_disposal_entry now dd amt dm (a, w) = ((a', w'), Ok res)) :
  ∃ new_lines,
    journal_lines (ledger w') = journal_lines (ledger w) ++ new_lines
    ∧ Forall (λ l, journal_entry l = journal_entry_id res) new_lines
    ∧ total_debits new_lines - total_credits new_lines
      = coef (accumulated_depreciation a) + coef (current_book_value a)
        - coef (purchase_cost a)
    ∧ (balanced new_lines
       ↔ coef (current_book_value a)
         = coef (purchase_cost a) - coef (accumulated_depreciation a)).
Proof.
  unfold create_disposal_entry in Hrun.
  apply bind_ok_inv in Hrun as ([] & [a0 w0] & H0 & H).
  injection H0 as <- <-.
  apply bind_ok_inv in H as (self & [a0 w0] & H0 & H).
  injection H0 as <- <- <-.
  apply bind_ok_inv in H as ([] & [a1 w1] & Hsave & H).
  pose proof (Asset_save_frame _ _ _ _ _ _ Hsave) as [Hl1 _].
  rewrite Asset_save_eq in Hsave.
  match type of Hsave with context [save_prepared now ?x ?y] =>
    destruct (save_prepared_amounts now x y) as (Hpa & Hpc & Hps);
    rewrite (calculate_current_values_disposed now (save_prepared now x y)) in Hsave
      by (unfold disposed_or_sold; rewrite Hps; reflexivity)
  end.
  destruct (Model_save_asset _ _) as [w1' r1] in Hsave.
  injection Hsave as <- _ _.
  cbn [accumulated_depreciation purchase_cost current_book_value with_disposal]
    in Hpa, Hpc, H.
  unfold try_except, atomic in H.
  match type of H with context [disposal_journal ?d ?x ?b ?g ?s] =>
    destruct (disposal_journal d x b g s) as [[a2 w2] [res'|e]] eqn:Hj
  end.
  2: { exfalso. revert H. munfold_a.
       destruct (Asset_save now _) as [[a3 w3] [[]|e']]; discriminate. }
  injection H as <- <- <-.
  apply disposal_journal_lines in Hj
    as (cash & accum & asset_acct & gl_acct & Hlines).
  rewrite Hpa, Hpc, Hl1 in Hlines.
  rewrite (money_of_cents _ Hamt), (money_of_cents _ Hcost),
    (money_of_cents _ Hacc), (money_of_cents _ Hbook) in Hlines.
  destruct Hamt as [_ Hx], Hcost as [_ Hc], Hacc as [_ Hd], Hbook as [_ Hb].
  set (x := coef amt) in *. set (c := coef (purchase_cost a)) in *.
  set (d := coef (accumulated_depreciation a)) in *.
  set (b := coef (current_book_value a)) in *.
  assert (Hp : (10 ^ 15 < 10 ^ prec)) by reflexivity.
  rewrite sub_cents in Hlines by lia.
  rewrite !ltb_zero_cents, !column_cents_of_cents in Hlines.
  unfold is_true, dec_abs in Hlines. cbn [coef dexp of_cents] in Hlines.
  fold (of_cents (Z.abs (x - b))) in Hlines.
  rewrite !column_cents_of_cents in Hlines.
  eexists. split; [exact Hlines|].
  assert (Hbal : ∀ ls, total_debits ls - total_credits ls = d + b - c →
                       balanced ls ↔ b = c - d).
  { intros ls Hls. unfold balanced. lia. }
  destruct (Z.eqb_spec (x - b) 0) as [Hz|Hz]; cbn [negb];
    repeat case_bool_decide;
    (split; [repeat constructor|]);
    (split; [|apply Hbal]);
    rewrite ?total_debits_app, ?total_credits_app;
    unfold total_debits, total_credits; simpl; lia.
Qed.

Lemma disposal_entry_imbalance_witness :
  let run := create_disposal_entry (mkDate 2029 3 1) (mkDate 2029 3 1)
               (of_cents 700000) "SALE"
               (active_lift, world_of disposal_chart active_lift) in
  ∃ res new_lines,
    snd run = Ok res
    ∧ journal_lines (ledger (snd (fst run))) = [] ++ new_lines
    ∧ balanced new_lines.
Proof.
  intros run.
  set (res := mkDisposalResult 1 (of_cents 500000) (of_cents 700000)
                (of_cents 200000)).
  assert (Hrun : run = ((fst (fst run), snd (fst run)), Ok res))
    by (vm_compute; reflexivity).
  assert (Hamt : is_money (of_cents 700000)) by (split; [reflexivity | cbn; lia]).
  assert (Hcost : is_money (purchase_cost active_lift))
    by (split; [reflexivity | cbn; lia]).
  assert (Hacc : is_money (accumulated_depreciation active_lift))
    by (split; [reflexivity | cbn; lia]).
  assert (Hbook : is_money (current_book_value active_lift))
    by (split; [reflexivity | cbn; lia]).
  destruct (disposal_entry_imbalance (mkDate 2029 3 1) (mkDate 2029 3 1)
              (of_cents 700000) "SALE" active_lift (fst (fst run))
              (world_of disposal_chart active_lift) (snd (fst run)) res
              Hamt Hcost Hacc Hbook Hrun)
    as (new_lines & Hl & _ & _ & Hbal).
  exists res, new_lines. split; [by rewrite Hrun|]. split; [exact Hl|].
  apply Hbal. reflexivity.
Defined.

End DisposalEntry.

(** * Positive quotients *)

Section DecimalQuotients.

Import Dec.

#[local] Arguments Z.pow : simpl never.
#[local] Arguments Z.mul : simpl never.
#[local] Arguments Z.div : simpl never.
#[local] Arguments Z.modulo : simpl never.
#[local] Arguments fix_ctx : simpl never.

Lemma ndigits_fuel_pos fuel : ∀ m, 1 ≤ ndigits_fuel fuel m.
Proof.
  induction fuel as [|fuel IH]; intros m; cbn [ndigits_fuel]; [lia|].
  destruct (m <? 10); [lia|]. specialize (IH (m / 10)). lia.
Qed.

(** With fuel for every binary digit, the count is the number of decimal
    digits. *)
Lemma ndigits_fuel_above fuel : ∀ m,
  0 ≤ m < 2 ^ Z.of_nat fuel → m < 10 ^ ndigits_fuel fuel m.
Proof.
  induction fuel as [|fuel IH]; intros m Hm.
  - cbn [ndigits_fuel]. change (2 ^ Z.of_nat 0) with 1 in Hm.
    change (10 ^ 1) with 10. lia.
  - cbn [ndigits_fuel].
    destruct (Z.ltb_spec m 10); [change (10 ^ 1) with 10; lia|].
    assert (Hdiv : 0 ≤ m / 10 < 2 ^ Z.of_nat fuel).
    { split; [apply Z.div_pos; lia|].
      apply Z.div_lt_upper_bound; [lia|].
      rewrite Nat2Z.inj_succ, Z.pow_succ_r in Hm by lia.
      assert (0 < 2 ^ Z.of_nat fuel) by (apply Z.pow_pos_nonneg; lia). lia. }
    specialize (IH _ Hdiv).
    pose proof (ndigits_fuel_pos fuel (m / 10)) as Hpos.
    rewrite Z.pow_add_r by lia. change (10 ^ 1) with 10.
    pose proof (Z.div_mod m 10 ltac:(lia)).
    pose proof (Z.mod_pos_bound m 10 ltac:(lia)).
    lia.
Qed.

Lemma ndigits_bounds m :
  1 ≤ m → 10 ^ (ndigits m - 1) ≤ m < 10 ^ ndigits m.
Proof.
  intros Hm. unfold ndigits. rewrite Z.abs_eq by lia. split.
  - apply ndigits_fuel_lower. exact Hm.
  - apply ndigits_fuel_above. split; [lia|].
    rewrite Nat2Z.inj_succ, Z2Nat.id by apply Z.log2_nonneg.
    apply Z.log2_spec. lia.
Qed.

Lemma strip_zeros_pos fuel : ∀ c e, 0 < c → 0 < fst (strip_zeros fuel c e).
Proof.
  induction fuel as [|fuel IH]; intros c e Hc; cbn [strip_zeros fst]; [exact Hc|].
  destruct (Z.eqb_spec (c mod 10) 0) as [Hz|Hz]; [|exact Hc].
  apply IH.
  pose proof (Z.div_mod c 10 ltac:(lia)). lia.
Qed.

(** A positive dividend over a positive divisor gives a positive
    quotient: the 28 digits of the context never round it down to zero. *)
Lemma div_pos a b q :
  0 < coef a → 0 < coef b → div a b = Ok q → 0 < coef q.
Proof.
  intros Ha Hb. unfold div.
  destruct (Z.eqb_spec (coef b) 0); [lia|].
  destruct (Z.eqb_spec (coef a) 0); [lia|].
  rewrite (Z.abs_eq (coef a)), (Z.abs_eq (coef b)) by lia.
  set (ma := coef a) in *. set (mb := coef b) in *.
  destruct (ndigits_bounds ma ltac:(lia)) as [Hal Hau].
  destruct (ndigits_bounds mb ltac:(lia)) as [Hbl Hbu].
  set (na := ndigits ma) in *. set (nb := ndigits mb) in *.
  assert (Hna : 1 ≤ na) by apply ndigits_fuel_pos.
  assert (Hnb : 1 ≤ nb) by apply ndigits_fuel_pos.
  set (shift := nb - na + prec + 1).
  set (num := if 0 <=? shift then ma * 10 ^ shift else ma).
  set (den := if 0 <=? shift then mb else mb * 10 ^ (- shift)).
  assert (Hden : 0 < den).
  { unfold den. destruct (Z.leb_spec 0 shift); [lia|].
    apply Z.mul_pos_pos; [lia|]. apply Z.pow_pos_nonneg; lia. }
  assert (Hle : den ≤ num).
  { unfold den, num, shift, prec. destruct (Z.leb_spec 0 (nb - na + 28 + 1)).
    - assert (10 ^ nb ≤ 10 ^ (na - 1) * 10 ^ (nb - na + 28 + 1)).
      { rewrite <- Z.pow_add_r by lia. apply Z.pow_le_mono_r; lia. }
      assert (0 < 10 ^ (nb - na + 28 + 1)) by (apply Z.pow_pos_nonneg; lia).
      nia.
    - assert (10 ^ nb * 10 ^ (- (nb - na + 28 + 1)) ≤ 10 ^ (na - 1)).
      { rewrite <- Z.pow_add_r by lia. apply Z.pow_le_mono_r; lia. }
      assert (0 < 10 ^ (- (nb - na + 28 + 1))) by (apply Z.pow_pos_nonneg; lia).
      nia. }
  assert (Hq : 0 < num / den).
  { apply Z.div_str_pos. lia. }
  destruct (num mod den =? 0).
  - pose proof (strip_zeros_pos
      (Z.to_nat (dexp a - dexp b - (dexp a - dexp b - shift))) (num / den)
      (dexp a - dexp b - shift) Hq) as Hs.
    destruct (strip_zeros _ _ _) as [c e']. cbn [fst] in Hs.
    intros [= <-]. apply fix_ctx_pos. cbn [coef].
    rewrite sgn_mul_nonneg by nia. exact Hs.
  - intros [= <-]. apply fix_ctx_pos. cbn [coef].
    rewrite sgn_mul_nonneg by nia.
    destruct (num / den mod 5 =? 0); lia.
Qed.

Lemma ltb_zero_pos d : 0 < coef d → ltb zero d = true.
Proof.
  intros Hd. unfold ltb, compare, scaled, zero, of_int. cbn [coef dexp].
  assert (0 < 10 ^ (dexp d - Z.min 0 (dexp d))) by (apply Z.pow_pos_nonneg; lia).
  destruct (Z.compare_spec (0 * 10 ^ (0 - Z.min 0 (dexp d)))
              (coef d * 10 ^ (dexp d - Z.min 0 (dexp d)))); [nia | reflexivity | nia].
Qed.

Lemma ltb_zero_zero_coef d : coef d = 0 → ltb zero d = false.
Proof.
  intros Hd. unfold ltb, compare, scaled, zero, of_int. cbn [coef dexp].
  rewrite Hd. by rewrite !Z.mul_0_l.
Qed.

End DecimalQuotients.

Section MonthlyAmounts.

Import Dec Assets.

#[local] Arguments fix_ctx : simpl never.
#[local] Arguments add : simpl never.
#[local] Arguments sub : simpl never.
#[local] Arguments mul : simpl never.
#[local] Arguments div : simpl never.
#[local] Arguments quantize_cents : simpl never.
#[local] Arguments leb : simpl never.
#[local] Arguments ltb : simpl never.
#[local] Arguments min : simpl never.
#[local] Arguments max : simpl never.
#[local] Arguments Z.pow : simpl never.
#[local] Arguments calculate_current_values : simpl never.
#[local] Arguments calculate_current_depreciation : simpl never.
#[local] Arguments generate_asset_number : simpl never.

(** The straight-line month: a positive amount that the stored values do
    not enter. *)
Lemma straight_line_month a :
  method_of a = STRAIGHT_LINE →
  is_money (purchase_cost a) → is_money (salvage_value a) →
  coef (salvage_value a) < coef (purchase_cost a) →
  0 < useful_life_years a →
  ∃ amt, 0 < coef amt
    ∧ ∀ acc book, disposed_or_sold a = false →
        monthly_depreciation (with_values a acc book) = Ok amt.
Proof.
  intros Hm Hc Hs Hlt Hlife.
  pose proof pow15_lt_prec as Hp.
  assert (Hsub : sub (purchase_cost a) (salvage_value a)
                 = of_cents (coef (purchase_cost a) - coef (salvage_value a))).
  { rewrite (money_of_cents _ Hc) at 1. rewrite (money_of_cents _ Hs) at 1.
    destruct Hc as [_ Hc], Hs as [_ Hs]. apply sub_cents. lia. }
  destruct (div_ok (sub (purchase_cost a) (salvage_value a))
              (of_int (useful_life_years a))) as [annual Hannual];
    [cbn [coef of_int]; lia|].
  assert (Hannual0 : 0 < coef annual).
  { apply (div_pos (sub (purchase_cost a) (salvage_value a))
                    (of_int (useful_life_years a)) annual);
      [rewrite Hsub; cbn [coef of_cents]; lia | cbn [coef of_int]; lia
      | exact Hannual]. }
  destruct (div_ok annual (of_int 12)) as [amt Hamt]; [cbn [coef of_int]; lia|].
  exists amt. split.
  { apply (div_pos annual (of_int 12) amt);
      [exact Hannual0 | cbn [coef of_int]; lia | exact Hamt]. }
  intros acc book Hd.
  unfold monthly_depreciation, annual_depreciation.
  change (disposed_or_sold (with_values a acc book)) with (disposed_or_sold a).
  change (method_of (with_values a acc book)) with (method_of a).
  rewrite Hd, Hm.
  cbn [purchase_cost salvage_value useful_life_years with_values].
  rewrite Hannual. unfold mbind, result_bind. exact Hamt.
Qed.

(** X20. Straight-line depreciation is booked month after month without
    end. For an active asset on the straight-line method, with a cost
    above its salvage value and a positive useful life, the monthly amount
    is positive and one and the same whatever accumulated depreciation and
    book value the asset is stored with, and the step run in a month that
    has no record yet books it and adds a record for the month: also when
    the asset is already depreciated in full. *)
Theorem straight_line_books_every_month (now : date) (a : Asset) (w : World)
    (Hmethod : method_of a = STRAIGHT_LINE)
    (Hstatus : status a = ACTIVE)
    (Hcost : is_money (purchase_cost a))
    (Hsalvage : is_money (salvage_value a))
    (Hlt : coef (salvage_value a) < coef (purchase_cost a))
    (Hlife : 0 < useful_life_years a)
    (Hnone : Forall (λ r, ¬ (dep_asset r = asset_pk a
                             ∧ period_month r = month now
                             ∧ period_year r = year now))
                    (depreciation_entries w)) :
  ∃ amt, ltb zero amt = true
    ∧ ∀ acc book,
        monthly_depreciation (with_values a acc book) = Ok amt
        ∧ ∃ a' w' r,
            depreciation_step now (with_values a acc book, w) = ((a', w'), r)
            ∧ r ≠ Ok false
            ∧ depreciation_entries w'
              = depreciation_entries w
                ++ [mkDepreciation (asset_pk a) now (month now) (year now)].
Proof.
  assert (Hds : disposed_or_sold a = false).
  { unfold disposed_or_sold. by rewrite Hstatus. }
  destruct (straight_line_month a Hmethod Hcost Hsalvage Hlt Hlife)
    as (amt & Hpos & Hmon).
  exists amt. split; [by apply ltb_zero_pos|].
  intros acc book. split; [by apply Hmon|].
  assert (Hcalc : calculate_current_depreciation now (with_values a acc book) w
                  = Ok amt).
  { unfold calculate_current_depreciation.
    change (disposed_or_sold (with_values a acc book)) with (disposed_or_sold a).
    rewrite Hds. cbn [asset_pk with_values].
    rewrite (filter_none _ (depreciation_entries w)) by exact Hnone.
    by apply Hmon. }
  unfold depreciation_step.
  unfold mbind at 1, M_bind at 1. unfold get_self at 1, gets at 1.
  unfold mbind at 1, M_bind at 1. unfold gets at 1. cbn [fst snd].
  unfold mbind at 1, M_bind at 1. unfold lift_result at 1.
  rewrite Hcalc, (ltb_zero_pos _ Hpos).
  unfold mbind at 1, M_bind at 1. unfold on_world at 1, modify at 1.
  unfold mbind at 1, M_bind at 1. unfold set_self at 1, modify at 1.
  unfold mbind at 1, M_bind at 1.
  match goal with |- context [Asset_save now ?s] =>
    destruct (Asset_save now s) as [[a1 w1] r1] eqn:Hsave
  end.
  apply Asset_save_frame in Hsave as [_ Hrows].
  destruct r1 as [[]|e]; do 3 eexists;
    (split; [reflexivity|]); (split; [discriminate | exact Hrows]).
Qed.

Lemma straight_line_books_every_month_witness :
  ∃ amt a' w' r,
    ltb zero amt = true
    ∧ depreciation_step (mkDate 2040 3 10)
        (with_values lift_in_service (of_cents 900000) (of_cents 100000), lift_world)
      = ((a', w'), r)
    ∧ r ≠ Ok false
    ∧ depreciation_entries w'
      = [mkDepreciation 1 (mkDate 2040 3 10) 3 2040].
Proof.
  destruct (straight_line_books_every_month (mkDate 2040 3 10) lift_in_service
              lift_world eq_refl eq_refl
              ltac:(split; [reflexivity | cbn; lia])
              ltac:(split; [reflexivity | cbn; lia])
              ltac:(cbn; lia) ltac:(cbn; lia) (Forall_nil_2 _))
    as (amt & Hpos & Hall).
  destruct (Hall (of_cents 900000) (of_cents 100000))
    as (_ & a' & w' & r & Hrun & Hr & Hrows).
  exists amt, a', w', r. repeat split; assumption.
Defined.

(** X21. The declining methods stop at the salvage value. For an asset
    on a declining method whose stored book value is not above its salvage
    value, the monthly amount is zero, and the step books nothing and
    leaves the instance and the tables as they are. *)
Theorem declining_stops_at_salvage (now : date) (a : Asset) (w : World)
    (Hmethod : method_of a = DECLINING_BALANCE ∨ method_of a = DOUBLE_DECLINING)
    (Hbook : leb (sub (current_book_value a) (salvage_value a)) zero = true) :
  (∃ amt, monthly_depreciation a = Ok amt ∧ coef amt = 0)
  ∧ depreciation_step now (a, w) = ((a, w), Ok false).
Proof.
  assert (Hmon : ∃ amt, monthly_depreciation a = Ok amt ∧ coef amt = 0).
  { unfold monthly_depreciation, annual_depreciation.
    assert (Hz : ∃ amt, div zero (of_int 12) = Ok amt ∧ coef amt = 0).
    { eexists. split; [vm_compute; reflexivity | reflexivity]. }
    destruct (disposed_or_sold a); [exact Hz|].
    destruct Hmethod as [-> | ->]; rewrite Hbook; exact Hz. }
  split; [exact Hmon|].
  destruct Hmon as (amt & Hmon & Hzero).
  assert (Hcalc : ∃ z, calculate_current_depreciation now a w = Ok z ∧ coef z = 0).
  { unfold calculate_current_depreciation.
    destruct (disposed_or_sold a); [by exists zero|].
    destruct (filter _ _); [by exists amt | by exists zero]. }
  destruct Hcalc as (z & Hcalc & Hz).
  unfold depreciation_step.
  unfold mbind at 1, M_bind at 1. unfold get_self at 1, gets at 1.
  unfold mbind at 1, M_bind at 1. unfold gets at 1. cbn [fst snd].
  unfold mbind at 1, M_bind at 1. unfold lift_result at 1.
  rewrite Hcalc, (ltb_zero_zero_coef _ Hz). reflexivity.
Qed.

Lemma declining_stops_at_salvage_witness :
  let a := with_values (with_disposal (lift DOUBLE_DECLINING) ACTIVE None None "")
             (of_cents 900000) (of_cents 100000) in
  depreciation_step (mkDate 2040 3 10) (a, world_of disposal_chart a)
  = ((a, world_of disposal_chart a), Ok false).
Proof.
  intros a.
  exact (proj2 (declining_stops_at_salvage (mkDate 2040 3 10) a
                  (world_of disposal_chart a) (or_intror eq_refl) eq_refl)).
Defined.

End MonthlyAmounts.

(** * The request decision and the shape of the ledger *)

Section RequestDecision.

Import Sales.

Lemma existsb_false_Forall {A} (f : A → bool) (l : list A) :
  existsb f l = false ↔ Forall (λ x, f x = false) l.
Proof.
  induction l as [|x l IH]; cbn [existsb].
  - split; [constructor | reflexivity].
  - rewrite orb_false_iff, Forall_cons, IH. reflexivity.
Qed.

(** X22. The serializer's decision, in full. A request is recorded if
    and only if the amount is positive and has no more than twelve digits,
    the sender asks for themselves or
    is a manager or administrator, the employee has no advance dated today,
    the amount is within the employee's available balance, and that
    balance is a value of the [DecimalField(12, 2)] column it is recorded
    in; then the advance is appended, paid in full, with the balance as its
    snapshot. When one of the first four conditions fails the call raises
    a validation error; when only the column is too small the insert
    raises. In both cases the tables are as before. *)
Theorem advance_request_decision (request_user : User) (today : date)
    (data : AdvanceData) (t : Tables) :
  let emp := user_id (advance_employee request_user data) in
  let allowed :=
    0 < data_requested_amount data < 10 ^ 12
    ∧ (data_employee data = None ∨ can_record_for_others request_user = true)
    ∧ Forall (λ a, ¬ (employee a = emp ∧ requested_at a = today))
             (advance_payments t)
    ∧ data_requested_amount data ≤ available_balance emp t in
  let fits := available_balance emp t < 10 ^ 12 in
  (allowed ∧ fits →
     let adv := mkAdvance emp (data_requested_amount data)
                  (data_requested_amount data) (available_balance emp t) PAID
                  today (Some (user_id request_user))
                  (Some (user_id request_user)) in
     request_advance request_user today data t
     = (mkTables (commissions t) (advance_payments t ++ [adv]), Ok adv))
  ∧ (¬ allowed →
       ∃ msg, request_advance request_user today data t
              = (t, Raise (ValidationError msg)))
  ∧ (allowed ∧ ¬ fits →
       request_advance request_user today data t = (t, Raise DecimalException)).
Proof.
  intros emp allowed fits. subst allowed fits.
  assert (Hday : ∀ e,
    existsb (λ a, bool_decide (employee a = user_id e)
                  && bool_decide (requested_at a = today)) (advance_payments t)
    = false
    ↔ Forall (λ a, ¬ (employee a = user_id e ∧ requested_at a = today))
             (advance_payments t)).
  { intros e. rewrite existsb_false_Forall. apply Forall_proper; [|reflexivity].
    intros a. rewrite andb_false_iff, !bool_decide_eq_false. split; [tauto|].
    intros H. destruct (decide (employee a = user_id e)); [right|left]; tauto. }
  unfold request_advance, AdvancePaymentCreateSerializer_create, is_valid.
  unfold advance_employee in emp. munfold_t.
  destruct (Z.leb_spec (10 ^ 12) (Z.abs (data_requested_amount data))) as [Hbig|Hdig].
  { split; [intros [(? & _) _]; lia|]. split; [eauto|]. intros [(? & _) _]; lia. }
  destruct (Z.leb_spec (data_requested_amount data) 0) as [Hle|Hpos0].
  { split; [intros [(? & _) _]; lia|]. split; [eauto|]. intros [(? & _) _]; lia. }
  assert (Hpos : 0 < data_requested_amount data < 10 ^ 12) by lia.
  destruct (data_employee data) as [e|] eqn:He; cbn [default from_option id] in emp.
  - destruct (can_record_for_others request_user) eqn:Hrole.
    2: { split; [intros [(_ & [?|?] & _) _]; discriminate|].
         split; [eauto|]. intros [(_ & [?|?] & _) _]; discriminate. }
    cbn [id]. specialize (Hday e).
    destruct (existsb _ _).
    { split; [intros [(_ & _ & Hf & _) _]; apply Hday in Hf; discriminate|].
      split; [eauto|]. intros [(_ & _ & Hf & _) _]. apply Hday in Hf. discriminate. }
    destruct (Z.ltb_spec (available_balance (user_id e) t)
                (data_requested_amount data)) as [Hlt|Hge].
    { split; [intros [(_ & _ & _ & ?) _]; subst emp; lia|].
      split; [eauto|]. intros [(_ & _ & _ & ?) _]. subst emp. lia. }
    rewrite advance_create_run by (assumption || lia).
    assert (Hall : 0 < data_requested_amount data < 10 ^ 12
                   ∧ (Some e = None ∨ true = true)
                   ∧ Forall (λ a, ¬ (employee a = emp ∧ requested_at a = today))
                       (advance_payments t)
                   ∧ data_requested_amount data ≤ available_balance emp t).
    { split; [exact Hpos|]. split; [by right|].
      split; [by apply Hday | exact Hge]. }
    case_bool_decide as Hfit.
    + split; [reflexivity|]. split; [intros Hno; by destruct Hno|].
      intros [_ Hno]. by destruct Hno.
    + split; [intros [_ ?]; contradiction|].
      split; [intros Hno; by destruct Hno | reflexivity].
  - cbn [id]. specialize (Hday request_user).
    destruct (existsb _ _).
    { split; [intros [(_ & _ & Hf & _) _]; apply Hday in Hf; discriminate|].
      split; [eauto|]. intros [(_ & _ & Hf & _) _]. apply Hday in Hf. discriminate. }
    destruct (Z.ltb_spec (available_balance (user_id request_user) t)
                (data_requested_amount data)) as [Hlt|Hge].
    { split; [intros [(_ & _ & _ & ?) _]; subst emp; lia|].
      split; [eauto|]. intros [(_ & _ & _ & ?) _]. subst emp. lia. }
    rewrite advance_create_run by (assumption || lia).
    assert (Hall : 0 < data_requested_amount data < 10 ^ 12
                   ∧ (@None User = None ∨ can_record_for_others request_user = true)
                   ∧ Forall (λ a, ¬ (employee a = emp ∧ requested_at a = today))
                       (advance_payments t)
                   ∧ data_requested_amount data ≤ available_balance emp t).
    { split; [exact Hpos|]. split; [by left|].
      split; [by apply Hday | exact Hge]. }
    case_bool_decide as Hfit.
    + split; [reflexivity|]. split; [intros Hno; by destruct Hno|].
      intros [_ Hno]. by destruct Hno.
    + split; [intros [_ ?]; contradiction|].
      split; [intros Hno; by destruct Hno | reflexivity].
Qed.

Lemma advance_request_decision_witness :
  (∃ msg, request_advance technician (mkDate 2025 1 10) (mkAdvanceData None 100)
            commission_tables
          = (commission_tables, Raise (ValidationError msg)))
  ∧ request_advance technician (mkDate 2025 2 3) (mkAdvanceData None 100)
      rich_tables
    = (rich_tables, Raise DecimalException).
Proof.
  split.
  - apply (proj1 (proj2 (advance_request_decision technician (mkDate 2025 1 10)
                           (mkAdvanceData None 100) commission_tables))).
    intros (_ & _ & Hf & _).
    apply Forall_cons in Hf as [Hf _]. apply Hf. split; reflexivity.
  - apply (proj2 (proj2 (advance_request_decision technician (mkDate 2025 2 3)
                           (mkAdvanceData None 100) rich_tables))).
    split.
    + split; [cbn [data_requested_amount]; lia|]. split; [by left|].
      split; [apply Forall_nil_2|].
      by vm_compute.
    + by vm_compute.
Defined.

End RequestDecision.

Section LedgerShape.







End LedgerShape.
